(** * steamgrid: artwork resolution (download.go) and its batch caller (steamgrid.go)

    A shallow embedding of the resolution pipeline: the HTTP helpers, the four
    artwork providers, [getImageAlternatives], [DownloadImage] and the
    "download if missing" part of the loop of [startApplication].

    The network is an oracle with its own state; every request handed to the
    HTTP client is recorded, with the reply, in the trace of the run.  A Go
    panic (index out of range, nil dereference) is an outcome of its own.
    Functions of packages outside the repository (encoding/json, regexp,
    net/url, the image header decoders, the fuzzy sorter) are the members of
    the class [Library]. *)

From Stdlib Require Import String Ascii List ZArith Bool Lia DecimalString.
Import ListNotations.
Open Scope Z_scope.
Open Scope list_scope.
Open Scope string_scope.

(** ** Go values *)

(** A Go [error]: nil, or a value whose [Error()] is the message. *)
Definition error := option string.
Definition errors_New (msg : string) : error := Some msg.

(** [err != nil && err.Error() == msg] *)
Definition err_is (err : error) (msg : string) : bool :=
  match err with
  | Some m => m =? msg
  | None => false
  end.

Definition is_nil {A : Type} (o : option A) : bool :=
  match o with
  | None => true
  | Some _ => false
  end.

(** The result of a library call that returns a value and an error. *)
Inductive res (A : Type) : Type :=
| Ok (a : A)
| Fail (msg : string).
Arguments Ok {A} a.
Arguments Fail {A} msg.

(** The double quote, as a one-character string. *)
Definition dquote : string := String (ascii_of_nat 34) EmptyString.

(** ** Standard-library string functions, as far as the program uses them *)

(** strings.Contains *)
Fixpoint strings_Contains (s substr : string) : bool :=
  String.prefix substr s ||
  match s with
  | EmptyString => false
  | String _ s' => strings_Contains s' substr
  end.

(** strings.Split with a one-byte separator *)
Fixpoint strings_Split (s : string) (sep : ascii) : list string :=
  match s with
  | EmptyString => [EmptyString]
  | String c s' =>
      if Ascii.eqb c sep then EmptyString :: strings_Split s' sep
      else match strings_Split s' sep with
           | x :: xs => String c x :: xs
           | [] => [String c EmptyString]
           end
  end.

(** path/filepath.Ext, with the separator of a Unix system: the suffix that
    starts at the last dot of the last element of the path. *)
Fixpoint filepath_Ext (path : string) : string :=
  match path with
  | EmptyString => EmptyString
  | String c rest =>
      match filepath_Ext rest with
      | EmptyString =>
          if Ascii.eqb c "."%char && negb (strings_Contains rest "/") then path
          else EmptyString
      | ext => ext
      end
  end.

(** strconv.Itoa *)
Definition strconv_Itoa (n : Z) : string := NilZero.string_of_int (Z.to_int n).

(** fmt.Sprintf for the verbs of the program's format strings: [%v] takes
    the next operand, [%%] is a percent sign. *)
Fixpoint fmt_Sprintf (format : string) (a : list string) : string :=
  match format with
  | EmptyString => EmptyString
  | String "%"%char (String "v"%char rest) =>
      match a with
      | x :: a' => x ++ fmt_Sprintf rest a'
      | [] => "%!v(MISSING)" ++ fmt_Sprintf rest []
      end
  | String "%"%char (String "%"%char rest) => String "%"%char (fmt_Sprintf rest a)
  | String c rest => String c (fmt_Sprintf rest a)
  end.

(** ** HTTP *)

Inductive Request : Type :=
| GET (url : string) (header : list (string * string))
| POST (url : string) (header : list (string * string)) (body : string).

Definition request_url (req : Request) : string :=
  match req with
  | GET url _ => url
  | POST url _ _ => url
  end.

(** The parts of an [*http.Response] that the program reads. *)
Record Response : Type := {
  StatusCode : Z;
  Status : string;
  ContentType : string;      (* Header.Get("Content-Type") *)
  RequestURLPath : string;   (* Request.URL.Path *)
  Body : string;             (* the bytes ioutil.ReadAll(Body) returns ... *)
  BodyErr : error            (* ... and the error it returns with them *)
}.

(** What [client.Do] returns: a response, or an error. *)
Inductive Reply : Type :=
| Answer (response : Response)
| Failure (msg : string).

Definition event : Type := Request * Reply.

(** The network: a state and what a round trip does to it. *)
Class Network (W : Type) : Type := {
  roundTrip : Request -> W -> Reply * W
}.

(** ** Data of the program *)

(** [Game] (declared in games.go): the fields this code reads and writes. *)
Record Game : Type := {
  ID : string;
  Name : string;
  Custom : bool;
  LegacyID : Z;
  ImageSource : string;
  ImageExt : string;
  CleanImageBytes : option string;
  OverlayImageBytes : option string
}.

Definition set_Name (g : Game) (v : string) : Game :=
  {| ID := ID g; Name := v; Custom := Custom g; LegacyID := LegacyID g;
     ImageSource := ImageSource g; ImageExt := ImageExt g;
     CleanImageBytes := CleanImageBytes g; OverlayImageBytes := OverlayImageBytes g |}.

Definition set_ImageExt (g : Game) (v : string) : Game :=
  {| ID := ID g; Name := Name g; Custom := Custom g; LegacyID := LegacyID g;
     ImageSource := ImageSource g; ImageExt := v;
     CleanImageBytes := CleanImageBytes g; OverlayImageBytes := OverlayImageBytes g |}.

Definition set_ImageSource (g : Game) (v : string) : Game :=
  {| ID := ID g; Name := Name g; Custom := Custom g; LegacyID := LegacyID g;
     ImageSource := v; ImageExt := ImageExt g;
     CleanImageBytes := CleanImageBytes g; OverlayImageBytes := OverlayImageBytes g |}.

Definition set_CleanImageBytes (g : Game) (v : option string) : Game :=
  {| ID := ID g; Name := Name g; Custom := Custom g; LegacyID := LegacyID g;
     ImageSource := ImageSource g; ImageExt := ImageExt g;
     CleanImageBytes := v; OverlayImageBytes := OverlayImageBytes g |}.

Definition set_OverlayImageBytes (g : Game) (v : option string) : Game :=
  {| ID := ID g; Name := Name g; Custom := Custom g; LegacyID := LegacyID g;
     ImageSource := ImageSource g; ImageExt := ImageExt g;
     CleanImageBytes := CleanImageBytes g; OverlayImageBytes := v |}.

(** steamGridDBResponse.Data[i] *)
Record gridAuthor : Type := {
  author_Name : string;
  author_Steam64 : string;
  author_Avatar : string
}.

Record gridData : Type := {
  grid_ID : Z;
  grid_Score : Z;
  grid_Style : string;
  grid_URL : string;
  grid_Thumb : string;
  grid_Tags : list string;
  grid_Author : gridAuthor
}.

Record steamGridDBResponse : Type := {
  grid_Success : bool;
  grid_Data : list gridData
}.

(** steamGridDBSearchResponse.Data[i] *)
Record searchData : Type := {
  search_ID : Z;
  search_Name : string;
  search_Types : list string;
  search_Verified : bool
}.

Record steamGridDBSearchResponse : Type := {
  search_Success : bool;
  search_Data : list searchData
}.

Record igdbGame : Type := {
  igdbGame_ID : Z;
  igdbGame_Cover : Z;
  igdbGame_Name : string
}.

Record igdbCover : Type := {
  igdbCover_ID : Z;
  igdbCover_Image_ID : string
}.

(** ** Packages outside the repository *)

Class Library : Type := {
  (* http.NewRequest(method, url, body): the error for a URL it cannot parse *)
  http_NewRequest : string -> string -> error;
  (* json.Unmarshal into each of the five targets of the program *)
  json_Unmarshal_steamGridDBResponse : string -> res steamGridDBResponse;
  json_Unmarshal_steamGridDBSearchResponse : string -> res steamGridDBSearchResponse;
  json_Unmarshal_igdbGames : string -> res (list igdbGame);
  json_Unmarshal_igdbCovers : string -> res (list igdbCover);
  json_Unmarshal_token : string -> res string;
  (* fuzzy.Sort(results, query): the order of Data after the call *)
  fuzzy_Sort : list searchData -> string -> list searchData;
  strings_ToLower : string -> string;
  url_QueryEscape : string -> string;
  (* regexp.MustCompile(pattern).FindStringSubmatch(s); nil is [] *)
  regexp_FindStringSubmatch : string -> string -> list string;
  (* width and height from the container header *)
  webpanimation_GetInfo : string -> res (Z * Z);
  apng_DecodeConfig : string -> res (Z * Z);
  image_DecodeConfig : string -> res (Z * Z)
}.

(** Functions of the repository that live in files other than the two
    modelled here.  [loadExisting overridePath gridDir game extensions]
    gives the game after the call. *)
Class Collaborators : Type := {
  loadExisting : string -> string -> Game -> list string -> Game
}.

(** ** The monad of the program: network state, trace, panics *)

Inductive outcome (A : Type) : Type :=
| Ret (a : A)
| Panic (msg : string).
Arguments Ret {A} a.
Arguments Panic {A} msg.

(** How a block of a function body ends: the function returns [r], or
    control goes on with [a]. *)
Inductive ctl (R A : Type) : Type :=
| Return (r : R)
| Next (a : A).
Arguments Return {R A} r.
Arguments Next {R A} a.

Section Model.

Context {W : Type} {N : Network W} {L : Library}.

Definition M (A : Type) : Type := W -> outcome A * list event * W.

Definition ret {A : Type} (a : A) : M A := fun w => (Ret a, [], w).

Definition panic {A : Type} (msg : string) : M A := fun w => (Panic msg, [], w).

Definition bind {A B : Type} (m : M A) (k : A -> M B) : M B :=
  fun w =>
    match m w with
    | (Ret a, t1, w1) =>
        match k a w1 with
        | (r, t2, w2) => (r, (t1 ++ t2)%list, w2)
        end
    | (Panic msg, t1, w1) => (Panic msg, t1, w1)
    end.

Notation "x <- m ;; k" := (bind m (fun x => k))
  (at level 100, m at next level, right associativity).
Notation "' p <- m ;; k" := (bind m (fun x => match x with p => k end))
  (at level 100, p pattern, m at next level, right associativity).

(** A block that may return from the function, followed by the rest. *)
Definition bindc {R A B : Type} (m : M (ctl R A)) (k : A -> M (ctl R B)) : M (ctl R B) :=
  c <- m ;;
  match c with
  | Return r => ret (Return r)
  | Next a => k a
  end.

Notation "x <~ m ;; k" := (bindc m (fun x => k))
  (at level 100, m at next level, right associativity).

(** [l[i]] *)
Definition index {A : Type} (l : list A) (i : nat) : M A :=
  match nth_error l i with
  | Some a => ret a
  | None => panic "index out of range"
  end.

(** [client.Do(req)].  net/http refuses a URL without a scheme before
    anything is sent; the empty URL is the case the program relies on. *)
Definition unsupported_scheme : string :=
  "unsupported protocol scheme " ++ dquote ++ dquote.

Definition client_Do (req : Request) : M Reply :=
  fun w =>
    if request_url req =? "" then (Ret (Failure unsupported_scheme), [], w)
    else match roundTrip req w with
         | (reply, w') => (Ret reply, [(req, reply)], w')
         end.

(** [http.Get(url)] *)
Definition http_Get (url : string) : M Reply :=
  match http_NewRequest "GET" url with
  | Some e => ret (Failure e)
  | None => client_Do (GET url [])
  end.

(** ** Web search (lines 22-71) *)

Definition googleSearchFormat : string :=
  "https://www.google.com.br/search?tbs=isz%%3Aex%%2Ciszw%%3A%v%%2Ciszh%%3A%v&tbm=isch&num=5&q=".

Definition googleSearchResultPatterns : list string :=
  [ "imgurl=(.+?\.(jpeg|jpg|png))&amp;imgrefurl=";
    "\" ++ dquote ++ "ou\" ++ dquote ++ ":\" ++ dquote ++ "(.+?)\" ++ dquote ++ ",\" ++ dquote ].

Definition googleUserAgent : string :=
  "Mozilla/5.0 (Windows NT 6.3; WOW64) AppleWebKit/537.36 (KHTML, like Gecko) Chrome/39.0.2171.71 Safari/537.36".

(** The loop over the result patterns (lines 62-70). *)
Fixpoint googleScan (patterns : list string) (responseBytes : string) : M (string * error) :=
  match patterns with
  | [] => ret ("", None)
  | googleSearchResultPattern :: rest =>
      let matches := regexp_FindStringSubmatch googleSearchResultPattern responseBytes in
      if (1 <=? length matches)%nat then
        m <- index matches 1 ;;
        ret (m, None)
      else googleScan rest responseBytes
  end.

Definition getGoogleImage (gameName : string) (artStyleExtensions : list string)
  : M (string * error) :=
  if gameName =? "" then ret ("", None)
  else
    let url := fmt_Sprintf googleSearchFormat [strconv_Itoa 460; strconv_Itoa 215]
               ++ url_QueryEscape gameName in
    match http_NewRequest "GET" url with
    | Some e => ret ("", Some e)
    | None =>
        reply <- client_Do (GET url [("User-Agent", googleUserAgent)]) ;;
        match reply with
        | Failure e => ret ("", Some e)
        | Answer response =>
            match BodyErr response with
            | Some e => ret ("", Some e)
            | None => googleScan googleSearchResultPatterns (Body response)
            end
        end
    end.

(** ** Community database (lines 73-243) *)

Definition steamGridDBBaseURL : string := "https://www.steamgriddb.com/api/v2".

Definition steamGridDBGetRequest (url steamGridDBApiKey : string) : M (string * error) :=
  match http_NewRequest "GET" url with
  | Some e => ret ("", Some e)
  | None =>
      reply <- client_Do (GET url [("Authorization", "Bearer " ++ steamGridDBApiKey)]) ;;
      match reply with
      | Failure e => ret ("", Some e)
      | Answer response =>
          if (StatusCode response =? 401)%Z then ret ("", errors_New "401")
          else if (StatusCode response =? 404)%Z then ret ("", errors_New "404")
          else match BodyErr response with
               | Some e => ret ("", Some e)
               | None => ret (Body response, None)
               end
      end
  end.

Definition sgdbAuthError : string :=
  " SteamGridDB authorization token is missing or invalid".

(** The switch on [artStyleExtensions[1]] (lines 157-166). *)
Definition sgdbBaseURL (nameExtension : string) : string :=
  if nameExtension =? ".banner" then steamGridDBBaseURL ++ "/grids"
  else if nameExtension =? ".cover" then steamGridDBBaseURL ++ "/grids"
  else if nameExtension =? ".hero" then steamGridDBBaseURL ++ "/heroes"
  else if nameExtension =? ".logo" then steamGridDBBaseURL ++ "/logos"
  else "".

(** The search by name (lines 190-220): returns from the function, or goes
    on with the bytes of the per-game listing. *)
Definition sgdbSearchByName (game : Game) (artStyleExtensions : list string)
    (steamGridDBApiKey baseURL : string) : M (ctl (string * error) string) :=
  filter <- index artStyleExtensions 3 ;;
  let url := steamGridDBBaseURL ++ "/search/autocomplete/" ++ Name game ++ filter in
  '(responseBytes, err) <- steamGridDBGetRequest url steamGridDBApiKey ;;
  if err_is err "401" then ret (Return ("", errors_New sgdbAuthError))
  else if negb (is_nil err) then ret (Return ("", err))
  else
    match json_Unmarshal_steamGridDBSearchResponse responseBytes with
    | Fail _ =>
        ret (Return ("", errors_New "best search match doesn't has a requested type or style"))
    | Ok jsonSearchResponse =>
        SteamGridDBGameID <-
          (if search_Success jsonSearchResponse
              && (1 <=? length (search_Data jsonSearchResponse))%nat
           then
             first <- index (fuzzy_Sort (search_Data jsonSearchResponse)
                                        (strings_ToLower (Name game))) 0 ;;
             ret (search_ID first)
           else ret (-1)) ;;
        if (SteamGridDBGameID =? -1)%Z then ret (Return ("", None))
        else
          filter <- index artStyleExtensions 3 ;;
          let url := baseURL ++ "/game/" ++ strconv_Itoa SteamGridDBGameID ++ filter in
          '(responseBytes, err) <- steamGridDBGetRequest url steamGridDBApiKey ;;
          if negb (is_nil err) then ret (Return ("", err))
          else ret (Next responseBytes)
    end.

(** The selection among the results (lines 230-239). *)
Definition sgdbSelect (animatedFirst : bool) (jsonResponse : steamGridDBResponse)
  : M (ctl (string * error) unit) :=
  if grid_Success jsonResponse && (1 <=? length (grid_Data jsonResponse))%nat then
    match (if animatedFirst
           then find (fun data => strings_Contains (grid_Thumb data) "webm")
                     (grid_Data jsonResponse)
           else None) with
    | Some data => ret (Return (grid_URL data, None))
    | None =>
        first <- index (grid_Data jsonResponse) 0 ;;
        ret (Return (grid_URL first, None))
    end
  else ret (Next tt).

(** One turn of the loop of [getSteamGridDBImage] (lines 155-239). *)
Definition sgdbPass (game : Game) (artStyleExtensions : list string)
    (steamGridDBApiKey : string) : M (ctl (string * error) unit) :=
  nameExtension <- index artStyleExtensions 1 ;;
  let baseURL := sgdbBaseURL nameExtension in
  filter <- index artStyleExtensions 3 ;;
  let url := baseURL ++ "/steam/" ++ ID game ++ filter in
  let animatedFirst := strings_Contains url "animated,static" in
  '(responseBytes, err) <-
     (if negb (Custom game) then steamGridDBGetRequest url steamGridDBApiKey
      else ret ("", errors_New "404")) ;;
  responseBytes <~
     (if err_is err "401" then ret (Return ("", errors_New sgdbAuthError))
      else if err_is err "404" then
        sgdbSearchByName game artStyleExtensions steamGridDBApiKey baseURL
      else if negb (is_nil err) then ret (Return ("", err))
      else ret (Next responseBytes)) ;;
  match json_Unmarshal_steamGridDBResponse responseBytes with
  | Fail e => ret (Return ("", Some e))
  | Ok jsonResponse => sgdbSelect animatedFirst jsonResponse
  end.

(** [for i := 0; i < 3; i += 2 { ... }; return "", nil]: [turns] bounds the
    number of turns left; two are enough, see [sgdbLoop_turns]. *)
Fixpoint sgdbLoop (turns : nat) (i : Z) (game : Game) (artStyleExtensions : list string)
    (steamGridDBApiKey : string) : M (string * error) :=
  if (i <? 3)%Z then
    match turns with
    | O => panic "loop bound"
    | S turns' =>
        c <- sgdbPass game artStyleExtensions steamGridDBApiKey ;;
        match c with
        | Return r => ret r
        | Next _ => sgdbLoop turns' (i + 2) game artStyleExtensions steamGridDBApiKey
        end
    end
  else ret ("", None).

Definition getSteamGridDBImage (game : Game) (artStyleExtensions : list string)
    (steamGridDBApiKey : string) : M (string * error) :=
  sgdbLoop 2 0 game artStyleExtensions steamGridDBApiKey.

(** ** Metadata database (lines 245-344) *)

Definition igdbImageURL : string := "https://images.igdb.com/igdb/image/upload/t_720p/%v.jpg".
Definition igdbGameURL : string := "https://api.igdb.com/v4/games".
Definition igdbCoverURL : string := "https://api.igdb.com/v4/covers".
Definition igdbGameBody : string := "fields name,cover; search " ++ dquote ++ "%v" ++ dquote ++ ";".
Definition igdbCoverBody : string := "fields image_id; where id = %v;".

Definition igdbTokenURL (IGDBSecret IGDBClient : string) : string :=
  "https://id.twitch.tv/oauth2/token?client_id=" ++ IGDBClient
  ++ "&client_secret=" ++ IGDBSecret ++ "&grant_type=client_credentials".

(** The error of the first [http.NewRequest] is dropped and the headers of
    the second request are set before its error is looked at: a request that
    could not be built is a nil dereference. *)
Definition igdbPostRequest (url body IGDBSecret IGDBClient : string) : M (string * error) :=
  match http_NewRequest "POST" (igdbTokenURL IGDBSecret IGDBClient) with
  | Some _ => panic "nil pointer dereference"
  | None =>
      reply <- client_Do (POST (igdbTokenURL IGDBSecret IGDBClient) [] body) ;;
      match reply with
      | Failure e => ret ("", Some e)
      | Answer tokenResponse =>
          match BodyErr tokenResponse with
          | Some e => ret ("", Some e)
          | None =>
              match json_Unmarshal_token (Body tokenResponse) with
              | Fail jsonErr => ret ("", Some jsonErr)
              | Ok token1 =>
                  match http_NewRequest "POST" url with
                  | Some _ => panic "nil pointer dereference"
                  | None =>
                      reply <- client_Do
                                 (POST url [("Client-ID", IGDBClient);
                                            ("Authorization", "Bearer " ++ token1);
                                            ("Accept", "application/json")] body) ;;
                      match reply with
                      | Failure e => ret ("", Some e)
                      | Answer response =>
                          match BodyErr response with
                          | Some e => ret ("", Some e)
                          | None => ret (Body response, None)
                          end
                      end
                  end
              end
          end
      end
  end.

Definition getIGDBImage (gameName IGDBSecret IGDBClient : string) : M (string * error) :=
  '(responseBytes, err) <-
     igdbPostRequest igdbGameURL (fmt_Sprintf igdbGameBody [gameName]) IGDBSecret IGDBClient ;;
  if negb (is_nil err) then ret ("", err)
  else
    match json_Unmarshal_igdbGames responseBytes with
    | Fail _ => ret ("", None)
    | Ok jsonGameResponse =>
        match jsonGameResponse with
        | [] => ret ("", None)
        | first :: _ =>
            if (igdbGame_Cover first =? 0)%Z then ret ("", None)
            else
              '(responseBytes, err) <-
                 igdbPostRequest igdbCoverURL
                   (fmt_Sprintf igdbCoverBody [strconv_Itoa (igdbGame_Cover first)])
                   IGDBSecret IGDBClient ;;
              if negb (is_nil err) then ret ("", err)
              else
                match json_Unmarshal_igdbCovers responseBytes with
                | Fail _ => ret ("", None)
                | Ok jsonCoverResponse =>
                    match jsonCoverResponse with
                    | cover :: _ =>
                        ret (fmt_Sprintf igdbImageURL [igdbCover_Image_ID cover], None)
                    | [] => ret ("", None)
                    end
                end
        end
    end.

(** ** Downloader (lines 346-362) *)

Definition tryDownload (url : string) : M (option Response * error) :=
  reply <- http_Get url ;;
  match reply with
  | Failure e => ret (None, Some e)
  | Answer response =>
      if (StatusCode response =? 404)%Z then ret (None, None)
      else if (400 <=? StatusCode response)%Z then
        ret (None, errors_New ("Failed to download image " ++ url ++ ": " ++ Status response))
      else ret (Some response, None)
  end.

(** ** Resolver (lines 364-430) *)

Definition akamaiURLFormat : string := "https://steamcdn-a.akamaihd.net/steam/apps/%v/".
Definition steamCdnURLFormat : string := "cdn.akamai.steamstatic.com/steam/apps/%v/".

(** The named results of [getImageAlternatives]: response, from, err. *)
Definition resolution : Type := option Response * string * error.

(** Its variables between two stages. *)
Record vars : Type := {
  v_response : option Response;
  v_from : string;
  v_err : error;
  v_url : string
}.

(** Lines 377-395: the two variants of the primary CDN. *)
Definition primaryCDN (game : Game) (artStyleExtensions : list string)
    (skipSteam onlyMissingArtwork steamGridDBOnly : bool) (from : string)
  : M (ctl resolution (option Response * error)) :=
  if negb skipSteam && negb steamGridDBOnly then
    suffix <- index artStyleExtensions 2 ;;
    '(response, err) <- tryDownload (fmt_Sprintf (akamaiURLFormat ++ suffix) [ID game]) ;;
    if is_nil err && negb (is_nil response) then
      if onlyMissingArtwork then ret (Return (None, "", None))
      else ret (Return (response, from, err))
    else
      suffix <- index artStyleExtensions 2 ;;
      '(response, err) <- tryDownload (fmt_Sprintf (steamCdnURLFormat ++ suffix) [ID game]) ;;
      if is_nil err && negb (is_nil response) then
        if onlyMissingArtwork then ret (Return (None, "", None))
        else ret (Return (response, from, err))
      else ret (Next (response, err))
  else ret (Next (None, None)).

(** Lines 398-404. *)
Definition communityStage (game : Game) (artStyleExtensions : list string)
    (steamGridDBApiKey : string) (v : vars) : M (ctl resolution vars) :=
  if negb (steamGridDBApiKey =? "") && (v_url v =? "") then
    let from := "SteamGridDB" in
    '(url, err) <- getSteamGridDBImage game artStyleExtensions steamGridDBApiKey ;;
    if negb (is_nil err) then ret (Return (v_response v, from, err))
    else ret (Next {| v_response := v_response v; v_from := from; v_err := err; v_url := url |})
  else ret (Next v).

(** Lines 406-413. *)
Definition metadataStage (game : Game) (artStyle IGDBSecret IGDBClient : string)
    (steamGridDBOnly : bool) (v : vars) : M (ctl resolution vars) :=
  if (artStyle =? "Cover") && negb (IGDBClient =? "") && negb (IGDBSecret =? "")
     && (v_url v =? "") && negb steamGridDBOnly then
    let from := "IGDB" in
    '(url, err) <- getIGDBImage (Name game) IGDBSecret IGDBClient ;;
    if negb (is_nil err) then ret (Return (v_response v, from, err))
    else ret (Next {| v_response := v_response v; v_from := from; v_err := err; v_url := url |})
  else ret (Next v).

(** Lines 415-422. *)
Definition searchStage (game : Game) (artStyle : string) (artStyleExtensions : list string)
    (skipGoogle steamGridDBOnly : bool) (v : vars) : M (ctl resolution vars) :=
  if negb skipGoogle && (artStyle =? "Banner") && (v_url v =? "") && negb steamGridDBOnly then
    let from := "search" in
    '(url, err) <- getGoogleImage (Name game) artStyleExtensions ;;
    if negb (is_nil err) then ret (Return (v_response v, from, err))
    else ret (Next {| v_response := v_response v; v_from := from; v_err := err; v_url := url |})
  else ret (Next v).

(** Lines 424-429. *)
Definition finalDownload (v : vars) : M resolution :=
  '(response, err) <- tryDownload (v_url v) ;;
  if is_nil err && negb (is_nil response) then ret (response, v_from v, err)
  else ret (None, "", None).

(** Lines 376-422: the stages up to the candidate URL. *)
Definition candidates (game : Game) (artStyle : string)
    (artStyleExtensions : list string) (skipSteam : bool)
    (steamGridDBApiKey IGDBSecret IGDBClient : string)
    (skipGoogle onlyMissingArtwork steamGridDBOnly : bool) : M (ctl resolution vars) :=
  let from := "steam server" in
  p <~ primaryCDN game artStyleExtensions skipSteam onlyMissingArtwork
                  steamGridDBOnly from ;;
  let v := {| v_response := fst p; v_from := from; v_err := snd p; v_url := "" |} in
  v <~ communityStage game artStyleExtensions steamGridDBApiKey v ;;
  v <~ metadataStage game artStyle IGDBSecret IGDBClient steamGridDBOnly v ;;
  searchStage game artStyle artStyleExtensions skipGoogle steamGridDBOnly v.

Definition getImageAlternatives (game : Game) (artStyle : string)
    (artStyleExtensions : list string) (skipSteam : bool)
    (steamGridDBApiKey IGDBSecret IGDBClient : string)
    (skipGoogle onlyMissingArtwork steamGridDBOnly : bool) : M resolution :=
  c <- candidates game artStyle artStyleExtensions skipSteam steamGridDBApiKey
         IGDBSecret IGDBClient skipGoogle onlyMissingArtwork steamGridDBOnly ;;
  match c with
  | Return r => ret r
  | Next v => finalDownload v
  end.

(** ** Validation and normalisation (lines 432-503) *)

(** Lines 441-458: the extension; [None] is the index panic of
    [strings.Split(contentType, "/")[1]]. *)
Definition deriveExt (contentType urlExt : string) : option string :=
  if negb (contentType =? "") then
    match nth_error (strings_Split contentType "/"%char) 1 with
    | Some subtype => Some ("." ++ subtype)
    | None => None
    end
  else if negb (urlExt =? "") then Some urlExt
  else Some "jpg".

Definition rewriteExt (ext : string) : string :=
  if ext =? ".jpeg" then ".jpg"
  else if ext =? ".octet-stream" then ".png"
  else ext.

(** Lines 463-489: the size read from the header, and the error left in
    [err]; the size stays at zero when no decoder accepts the bytes. *)
Definition detectSize (contentType imageBytes : string) : (Z * Z) * error :=
  if strings_Contains contentType "webp" then
    match webpanimation_GetInfo imageBytes with
    | Ok size => (size, None)
    | Fail e => ((0, 0), Some e)
    end
  else
    match apng_DecodeConfig imageBytes with
    | Ok size => (size, None)
    | Fail _ =>
        match image_DecodeConfig imageBytes with
        | Ok size => (size, None)
        | Fail e => ((0, 0), Some e)
        end
    end.

(** Lines 493-497. *)
Definition wrongAspect (artStyle : string) (imgSize : Z * Z) : bool :=
  if (artStyle =? "Banner") && (fst imgSize <? snd imgSize)%Z then true
  else if (artStyle =? "Cover") && (fst imgSize >? snd imgSize)%Z then true
  else false.

(** The game is behind a pointer: the result carries it as the call leaves it. *)
Definition DownloadImage (gridDir : string) (game : Game) (artStyle : string)
    (artStyleExtensions : list string) (skipSteam : bool)
    (steamGridDBApiKey IGDBSecret IGDBClient : string)
    (skipGoogle onlyMissingArtwork steamGridDBOnly : bool) : M (Game * (string * error)) :=
  '(response, from, err) <-
     getImageAlternatives game artStyle artStyleExtensions skipSteam steamGridDBApiKey
       IGDBSecret IGDBClient skipGoogle onlyMissingArtwork steamGridDBOnly ;;
  match response, err with
  | Some response, None =>
      let contentType := ContentType response in
      let urlExt := filepath_Ext (RequestURLPath response) in
      match deriveExt contentType urlExt with
      | None => panic "index out of range"
      | Some ext =>
          let game := set_ImageExt game ext in
          let game := set_ImageExt game (rewriteExt (ImageExt game)) in
          let imageBytes := Body response in
          let '(imgSize, err) := detectSize contentType imageBytes in
          if negb (is_nil err) then ret (game, ("", err))
          else if wrongAspect artStyle imgSize then ret (game, ("", None))
          else
            let game := set_ImageSource game from in
            let game := set_CleanImageBytes game (Some imageBytes) in
            ret (game, (from, None))
      end
  | _, _ => ret (game, ("", err))
  end.

(** ** The name of a game, as a last resort (lines 505-526) *)

Definition steamDBFormat : string := "https://steamdb.info/app/%v".

Definition newline : string := String (ascii_of_nat 10) EmptyString.

Definition steamDBNamePattern : string :=
  "<tr>" ++ newline ++ "<td>Name</td>\s*<td itemprop=" ++ dquote ++ "name" ++ dquote
  ++ ">(.*?)</td>".

Definition getGameName (gameID : string) : M string :=
  '(response, err) <- tryDownload (fmt_Sprintf steamDBFormat [gameID]) ;;
  match response, err with
  | Some response, None =>
      match BodyErr response with
      | Some _ => ret ""
      | None =>
          let matched := regexp_FindStringSubmatch steamDBNamePattern (Body response) in
          if (length matched =? 0)%nat then ret ""
          else index matched 1
      end
  | _, _ => ret ""
  end.

(** ** The batch loop of [startApplication] (steamgrid.go, lines 178-310) *)

(** The command-line flags the loop passes on.  The call at line 227 names
    ten arguments; [steamGridDBOnly], the eleventh parameter of
    [DownloadImage], is taken as one more flag of the run. *)
Record Flags : Type := {
  skipSteam : bool;
  skipGoogle : bool;
  onlyMissingArtwork : bool;
  steamGridDBOnly : bool;
  IGDBSecret : string;
  IGDBClient : string;
  overridePath : string
}.

Context {C : Collaborators}.

(** Lines 209-234 for one art style of one game: the fields are cleared, an
    image already on disk is loaded, and the image is downloaded if there is
    none; the result is the API key as the step leaves it, and the game.
    What follows in the loop body (counters, overlay, files) reads neither
    the network nor the key. *)
Definition resolveStyle (flags : Flags) (gridDir steamGridDBApiKey : string) (game : Game)
    (artStyle : string) (artStyleExtensions : list string) : M (string * Game) :=
  let game := set_ImageSource game "" in
  let game := set_ImageExt game "" in
  let game := set_CleanImageBytes game None in
  let game := set_OverlayImageBytes game None in
  let game := loadExisting (overridePath flags) gridDir game artStyleExtensions in
  if ImageSource game =? "" then
    '(game, (from, err)) <-
       DownloadImage gridDir game artStyle artStyleExtensions (skipSteam flags)
         steamGridDBApiKey (IGDBSecret flags) (IGDBClient flags) (skipGoogle flags)
         (onlyMissingArtwork flags) (steamGridDBOnly flags) ;;
    if err_is err "SteamGridDB authorization token is missing or invalid"
    then ret ("", game)
    else ret (steamGridDBApiKey, game)
  else ret (steamGridDBApiKey, game).

(** [for artStyle, artStyleExtensions := range artStyles], in the order the
    map yields its entries. *)
Fixpoint forStyles (flags : Flags) (gridDir steamGridDBApiKey : string) (game : Game)
    (artStyles : list (string * list string)) : M (string * Game) :=
  match artStyles with
  | [] => ret (steamGridDBApiKey, game)
  | (artStyle, artStyleExtensions) :: rest =>
      '(steamGridDBApiKey, game) <-
         resolveStyle flags gridDir steamGridDBApiKey game artStyle artStyleExtensions ;;
      forStyles flags gridDir steamGridDBApiKey game rest
  end.

(** [for _, game := range games] *)
Fixpoint forGames (flags : Flags) (gridDir steamGridDBApiKey : string) (games : list Game)
    (artStyles : list (string * list string)) : M (string * list Game) :=
  match games with
  | [] => ret (steamGridDBApiKey, [])
  | game :: rest =>
      game <- (if Name game =? "" then
                 name <- getGameName (ID game) ;;
                 ret (set_Name game name)
               else ret game) ;;
      '(steamGridDBApiKey, game) <-
         forStyles flags gridDir steamGridDBApiKey game artStyles ;;
      '(steamGridDBApiKey, rest) <-
         forGames flags gridDir steamGridDBApiKey rest artStyles ;;
      ret (steamGridDBApiKey, game :: rest)
  end.

End Model.

(** ** Who issued a request: the four kinds of request the program builds *)

(** [http.Get]: no header of the program's own. *)
Definition isDownload (req : Request) : bool :=
  match req with
  | GET _ [] => true
  | _ => false
  end.

(** [steamGridDBGetRequest]: the bearer key and nothing else. *)
Definition isCommunityRequest (req : Request) : bool :=
  match req with
  | GET _ [(name, _)] => name =? "Authorization"
  | _ => false
  end.

(** [igdbPostRequest]: the only POSTs. *)
Definition isMetadataRequest (req : Request) : bool :=
  match req with
  | POST _ _ _ => true
  | _ => false
  end.

(** [getGoogleImage]: the browser's user agent and nothing else. *)
Definition isSearchRequest (req : Request) : bool :=
  match req with
  | GET _ [(name, _)] => name =? "User-Agent"
  | _ => false
  end.

Definition requests (t : list event) : list Request := map fst t.

(** ** Properties of a run *)

(** A stretch of trace made of at most [n] requests of one kind. *)
Definition traceOf (cls : Request -> bool) (n : nat) (t : list event) : Prop :=
  Forall (fun e => cls (fst e) = true) t /\ (length t <= n)%nat.

(** The token exchange of [igdbPostRequest]: the POST without headers. *)
Definition isTokenRequest (req : Request) : bool :=
  match req with
  | POST _ [] _ => true
  | _ => false
  end.

(** The search by name of the community database (line 191): its reply is
    parsed as a search result (line 199); the reply to the request by the
    identifier of the game or by the number the database gave it is parsed
    as a listing of images (line 225). *)
Definition isSearchByName (req : Request) : bool :=
  String.prefix (steamGridDBBaseURL ++ "/search/autocomplete/") (request_url req).

Arguments isSearchByName : simpl never.

Section Properties.

Context {W : Type} {N : Network W} {L : Library}.

(** Every run of [m] ends with an outcome and a trace that satisfy [Q]. *)
Definition post {A : Type} (m : @M W A) (Q : outcome A -> list event -> Prop) : Prop :=
  forall w r t w', m w = (r, t, w') -> Q r t.

(** A community-database reply with a body, which does not parse as the
    shape the program expects in reply to this request: a search result for
    the search by name, a listing of images otherwise. *)
Definition unparsable (req : Request) (resp : Response) : Prop :=
  StatusCode resp <> 401 /\ StatusCode resp <> 404 /\ BodyErr resp = None /\
  if isSearchByName req
  then exists e, json_Unmarshal_steamGridDBSearchResponse (Body resp) = Fail e
  else exists e, json_Unmarshal_steamGridDBResponse (Body resp) = Fail e.

(** The exchanges with a candidate provider that end the attempt: a request
    that failed (for the community database, with a message other than the
    "404" it uses itself), a community-database body that does not parse, a
    token reply that does not parse. *)
Definition fatal (ev : event) : Prop :=
  match ev with
  | (req, Failure msg) =>
      if isCommunityRequest req then msg <> "404"
      else isMetadataRequest req || isSearchRequest req = true
  | (req, Answer resp) =>
      if isCommunityRequest req then unparsable req resp
      else isTokenRequest req = true /\ BodyErr resp = None /\
           exists e, json_Unmarshal_token (Body resp) = Fail e
  end.

(** The error of a failed request is the error reported, except that the
    community database reports its own message for "401". *)
Definition reported (ev : event) (e : string) : Prop :=
  match ev with
  | (req, Failure msg) => (isCommunityRequest req = true -> msg <> "401") -> e = msg
  | (_, Answer _) => True
  end.

(** A metadata-database reply to a query, with a body that does not parse
    as the shape the program expects in reply to it: a list of games for the
    query of the games, a list of covers for the query of the covers. *)
Definition unparsableQuery (ev : event) : Prop :=
  match ev with
  | (POST url (_ :: _) _, Answer resp) =>
      BodyErr resp = None /\
      ((url = igdbGameURL /\ exists e, json_Unmarshal_igdbGames (Body resp) = Fail e) \/
       (url = igdbCoverURL /\ exists e, json_Unmarshal_igdbCovers (Body resp) = Fail e))
  | _ => False
  end.

(** The community-database request by the game's identifier (line 167). *)
Definition byIdentifier (game : Game) (exts : list string) (key : string) (req : Request) : Prop :=
  exists nameExt filter,
    nth_error exts 1 = Some nameExt /\ nth_error exts 3 = Some filter /\
    req = GET (sgdbBaseURL nameExt ++ "/steam/" ++ ID game ++ filter)
              [("Authorization", "Bearer " ++ key)].

(** What a caller learns from one community-database request. *)
Definition communityReply (url key : string) (r : outcome (string * error)) (t : list event) : Prop :=
  exists bytes err, r = Ret (bytes, err) /\
    (t = [] \/
     exists reply, t = [(GET url [("Authorization", "Bearer " ++ key)], reply)] /\
       (forall e, reply = Failure e -> err = Some e) /\
       (forall resp, reply = Answer resp ->
          StatusCode resp <> 401 -> StatusCode resp <> 404 -> BodyErr resp = None ->
          bytes = Body resp /\ err = None)).

(** The search by name: a fatal exchange makes it return the error, unless
    it is the last one, whose bytes it hands on. *)
Definition searchPost (game : Game) (exts : list string) (key : string)
    (c : outcome (ctl (string * error) string)) (t : list event) : Prop :=
  traceOf isCommunityRequest 2 t /\
  (forall ev, In ev t -> fatal ev ->
     (exists e, c = Ret (Return ("", Some e)) /\ reported ev e) \/
     (exists resp, snd ev = Answer resp /\ c = Ret (Next (Body resp)) /\
                   isSearchByName (fst ev) = false)) /\
  (forall ev, In ev t -> ~ byIdentifier game exts key (fst ev)).

(** One turn of the lookup, and the lookup: a fatal exchange makes it return
    an error; the request by identifier is not made for a custom game. *)
Definition communityPost (shape : list event -> Prop) (game : Game) (exts : list string)
    (key : string) {A : Type} (failed : string -> outcome A)
    (r : outcome A) (t : list event) : Prop :=
  shape t /\
  (forall ev, In ev t -> fatal ev -> exists e, r = failed e /\ reported ev e) /\
  (Custom game = true -> forall ev, In ev t -> ~ byIdentifier game exts key (fst ev)).

(** At most two turns of at most three requests each. *)
Definition twoTurns (t : list event) : Prop :=
  exists t1 t2, t = (t1 ++ t2)%list /\
    traceOf isCommunityRequest 3 t1 /\ traceOf isCommunityRequest 3 t2.

(** The metadata database: one call of [igdbPostRequest] to [url], and the
    lookup. *)
Definition metadataReply (url : string) (r : outcome (string * error)) (t : list event)
  : Prop :=
  traceOf isMetadataRequest 2 t /\
  (forall ev, In ev t -> fatal ev -> exists e, r = Ret ("", Some e) /\ reported ev e) /\
  (forall ev, In ev t -> unparsableQuery ev ->
     request_url (fst ev) = url /\
     exists resp, snd ev = Answer resp /\ r = Ret (Body resp, None)).

Definition metadataPost (r : outcome (string * error)) (t : list event) : Prop :=
  traceOf isMetadataRequest 4 t /\
  (forall ev, In ev t -> fatal ev -> exists e, r = Ret ("", Some e) /\ reported ev e) /\
  (forall ev, In ev t -> unparsableQuery ev -> r = Ret ("", None)).

(** Web search. *)
Definition searchProviderPost (r : outcome (string * error)) (t : list event) : Prop :=
  traceOf isSearchRequest 1 t /\
  (forall ev, In ev t -> fatal ev -> exists e, r = Ret ("", Some e) /\ reported ev e).

(** The downloader: never a panic, never a response together with an error,
    and nothing is sent for the empty URL. *)
Definition downloadPost (url : string) (r : outcome (option Response * error))
    (t : list event) : Prop :=
  traceOf isDownload 1 t /\
  exists response err, r = Ret (response, err) /\
    (response = None \/ err = None) /\
    (url = "" -> response = None /\ t = []).

(** The stretches of the trace of a resolution, stage by stage. *)
Definition primarySegment (t : list event) : Prop := traceOf isDownload 2 t.

Definition metadataSegment (artStyle : string) (t : list event) : Prop :=
  traceOf isMetadataRequest 4 t /\ (t <> [] -> artStyle = "Cover").

Definition searchSegment (artStyle : string) (t : list event) : Prop :=
  traceOf isSearchRequest 1 t /\ (t <> [] -> artStyle = "Banner").

Definition finalSegment (t : list event) : Prop := traceOf isDownload 1 t.

(** [t] is made of consecutive stretches, one for each member of [segments]. *)
Fixpoint splits (segments : list (list event -> Prop)) (t : list event) : Prop :=
  match segments with
  | [] => t = []
  | segment :: rest =>
      exists t1 t2, t = (t1 ++ t2)%list /\ segment t1 /\ splits rest t2
  end.

(** The three candidate stages have one shape (lines 398-404, 407-413,
    416-422): under a guard, set the label, ask the provider, return on an
    error, else keep the URL. *)
Definition stageResult (label : string) (v : vars) (r : outcome (string * error))
  : outcome (ctl resolution vars) :=
  match r with
  | Ret (url, err) =>
      if negb (is_nil err) then Ret (Return (v_response v, label, err))
      else Ret (Next {| v_response := v_response v; v_from := label;
                        v_err := err; v_url := url |})
  | Panic msg => Panic msg
  end.

Definition stageOf (guard : bool) (label : string) (provider : @M W (string * error))
    (v : vars) : @M W (ctl resolution vars) :=
  if guard then
    bind provider (fun x =>
      match x with
      | (url, err) =>
          if negb (is_nil err) then ret (Return (v_response v, label, err))
          else ret (Next {| v_response := v_response v; v_from := label;
                            v_err := err; v_url := url |})
      end)
  else ret (Next v).

(** A stage did nothing, or ran its provider and decided by its result. *)
Definition stagePost (guard : bool) (label : string)
    (Q : outcome (string * error) -> list event -> Prop) (v : vars)
    (c : outcome (ctl resolution vars)) (t : list event) : Prop :=
  (guard = false /\ c = Ret (Next v) /\ t = []) \/
  (guard = true /\ exists r, Q r t /\ c = stageResult label v r).

(** The primary CDN returns the response it found, or the empty result. *)
Definition primaryPost (c : outcome (ctl resolution (option Response * error)))
    (t : list event) : Prop :=
  primarySegment t /\
  (forall x, c = Ret (Return x) ->
     x = (None, "", None) \/ exists resp, x = (Some resp, "steam server", None)).

(** The final download: a response under the label of the candidate, or the
    empty result; the empty result, and no request, without a candidate. *)
Definition finalPost (v : vars) (r : outcome resolution) (t : list event) : Prop :=
  finalSegment t /\
  (r = Ret (None, "", None) \/ exists resp, r = Ret (Some resp, v_from v, None)) /\
  (v_url v = "" -> r = Ret (None, "", None) /\ t = []).

(** The stretches of a resolution, in the order of the stages. *)
Definition resolutionShape (artStyle : string) : list event -> Prop :=
  splits [primarySegment; twoTurns; metadataSegment artStyle;
          searchSegment artStyle; finalSegment].

End Properties.

Arguments unparsable {L} req resp : simpl never.

(** ** The extension, in the words of the specification *)

(** The text after the first slash. *)
Fixpoint afterSlash (s : string) : option string :=
  match s with
  | EmptyString => None
  | String c rest => if Ascii.eqb c "/"%char then Some rest else afterSlash rest
  end.

(** The text before the first slash. *)
Fixpoint uptoSlash (s : string) : string :=
  match s with
  | EmptyString => EmptyString
  | String c rest => if Ascii.eqb c "/"%char then EmptyString else String c (uptoSlash rest)
  end.







(** The field after the first slash of a content type: the text up to the
    next slash or to the end, with the parameters if there are any. *)
Definition slashField (contentType : string) : option string :=
  option_map uptoSlash (afterSlash contentType).



(** ** The loop's view of one resolution *)

(** The request of line 167, with the header of line 126. *)
Definition requestByIdentifier (game : Game) (nameExtension filter key : string) : Request :=
  GET (sgdbBaseURL nameExtension ++ "/steam/" ++ ID game ++ filter)
      [("Authorization", "Bearer " ++ key)].

Section Prepared.
Context {C : Collaborators}.

(** The game as line 216 leaves it: fields cleared, image on disk loaded. *)
Definition prepared (flags : Flags) (gridDir : string) (game : Game)
    (artStyleExtensions : list string) : Game :=
  loadExisting (overridePath flags) gridDir
    (set_OverlayImageBytes
       (set_CleanImageBytes (set_ImageExt (set_ImageSource game "") "") None) None)
    artStyleExtensions.

End Prepared.
(** ** Further properties of a run *)

(** The forms of the requests the program builds: a download without
    headers; a request to the community database, with the key as the bearer;
    the web search, with the browser's user agent; the token exchange of the
    metadata database, and its queries with the client and a bearer token. *)
Definition ownRequest (key secret client : string) (req : Request) : Prop :=
  match req with
  | GET url headers =>
      headers = [] \/
      (headers = [("Authorization", "Bearer " ++ key)] /\
       String.prefix steamGridDBBaseURL url = true) \/
      (headers = [("User-Agent", googleUserAgent)] /\
       String.prefix "https://www.google.com.br/search?" url = true)
  | POST url headers body =>
      (headers = [] /\ url = igdbTokenURL secret client) \/
      (exists token,
         headers = [("Client-ID", client); ("Authorization", "Bearer " ++ token);
                    ("Accept", "application/json")] /\
         (url = igdbGameURL \/ url = igdbCoverURL))
  end.

Definition ownExchange (key secret client : string) (ev : event) : Prop :=
  ownRequest key secret client (fst ev).

(** Every exchange of the trace satisfies [P]. *)
Definition always {A : Type} (P : event -> Prop) : outcome A -> list event -> Prop :=
  fun _ t => Forall P t.

(** An exchange with anyone but the community database. *)
Definition notCommunity (ev : event) : Prop := isCommunityRequest (fst ev) = false.

(** What a stretch of the loop does with the key it is given: it hands on
    that key or the empty one, and without a key it leaves the community
    database alone. *)
Definition keyPost (key : string) {A : Type} (r : outcome (string * A)) (t : list event)
  : Prop :=
  (forall k a, r = Ret (k, a) -> k = key \/ k = "") /\
  (key = "" -> Forall notCommunity t).

(** The response is the answer of the last exchange of [t], a download
    with a status below 400. *)
Definition downloaded (response : Response) (t : list event) : Prop :=
  exists t0 url,
    t = (t0 ++ [(GET url [], Answer response)])%list /\
    StatusCode response < 400 /\ StatusCode response <> 404.

(** What a source label says about the flags and the style of the
    resolution that returns it. *)
Definition provenance (artStyle : string) (skipSteam : bool) (key secret client : string)
    (skipGoogle onlyMissing sgdbOnly : bool) (from : string) : Prop :=
  (from = "steam server" /\ skipSteam = false /\ sgdbOnly = false /\ onlyMissing = false) \/
  (from = "SteamGridDB" /\ key <> "") \/
  (from = "IGDB" /\ artStyle = "Cover" /\ client <> "" /\ secret <> "" /\ sgdbOnly = false) \/
  (from = "search" /\ artStyle = "Banner" /\ skipGoogle = false /\ sgdbOnly = false).

(** How a candidate stage ends, by its guard. *)
Definition stageCases (guard : bool) (label : string) (v : vars)
    (c : outcome (ctl resolution vars)) (t : list event) : Prop :=
  (guard = false /\ c = Ret (Next v) /\ t = []) \/
  (guard = true /\
   ((exists e, c = Ret (Return (v_response v, label, Some e))) \/
    (exists url, c = Ret (Next {| v_response := v_response v; v_from := label;
                                  v_err := None; v_url := url |})) \/
    (exists msg, c = Panic msg))).

(** The run ends without a panic. *)
Definition returns {A : Type} : outcome A -> list event -> Prop :=
  fun r _ => exists a, r = Ret a.

(** What the program expects of the packages it calls: a POST to the
    metadata database can be built; a match of one of its patterns, which
    all have a group, has the whole match and the group; sorting keeps the
    number of entries. *)
Definition sane (L : Library) (IGDBSecret IGDBClient : string) : Prop :=
  http_NewRequest "POST" (igdbTokenURL IGDBSecret IGDBClient) = None /\
  http_NewRequest "POST" igdbGameURL = None /\
  http_NewRequest "POST" igdbCoverURL = None /\
  (forall pattern s,
     In pattern (steamDBNamePattern :: googleSearchResultPatterns) ->
     length (regexp_FindStringSubmatch pattern s) <> 1%nat) /\
  (forall data query, length (fuzzy_Sort data query) = length data).

(** ** The metadata database, call by call *)

(** The token exchange of a call, and its query with the token [token]. *)
Definition tokenRequest (IGDBSecret IGDBClient body : string) : Request :=
  POST (igdbTokenURL IGDBSecret IGDBClient) [] body.

Definition queryRequest (url IGDBClient token body : string) : Request :=
  POST url [("Client-ID", IGDBClient); ("Authorization", "Bearer " ++ token);
            ("Accept", "application/json")] body.

(** The exchanges of one call of [igdbPostRequest]: none; the token exchange
    alone; or the token exchange, answered with a token, and the query that
    carries this token. *)
Definition igdbCall (L : Library) (url body IGDBSecret IGDBClient : string) (t : list event)
  : Prop :=
  t = [] \/
  (exists reply, t = [(tokenRequest IGDBSecret IGDBClient body, reply)]) \/
  (exists tokenResponse token reply,
     t = [(tokenRequest IGDBSecret IGDBClient body, Answer tokenResponse);
          (queryRequest url IGDBClient token body, reply)] /\
     json_Unmarshal_token (Body tokenResponse) = Ok token).

(** A call that gave the bytes [bytes]: both exchanges were answered. *)
Definition igdbExchange (L : Library) (url body IGDBSecret IGDBClient bytes : string)
    (t : list event) : Prop :=
  exists tokenResponse token response,
    t = [(tokenRequest IGDBSecret IGDBClient body, Answer tokenResponse);
         (queryRequest url IGDBClient token body, Answer response)] /\
    json_Unmarshal_token (Body tokenResponse) = Ok token /\
    BodyErr response = None /\ bytes = Body response.

(** The entry the lookup takes from a listing: the first one; with
    [animatedFirst], the first one whose thumbnail is a WEBM, if there is
    one. *)
Definition selected (animatedFirst : bool) (entries : list gridData) (data : gridData)
  : Prop :=
  (animatedFirst = true /\
   find (fun d => strings_Contains (grid_Thumb d) "webm") entries = Some data) \/
  ((animatedFirst = false \/
    find (fun d => strings_Contains (grid_Thumb d) "webm") entries = None) /\
   nth_error entries 0 = Some data).

(** A listing of the community database received in the run, and the entry
    taken from it. *)
Definition listed (L : Library) (animatedFirst : bool) (data : gridData) (t : list event)
  : Prop :=
  exists req response listing,
    In (req, Answer response) t /\ isCommunityRequest req = true /\
    StatusCode response <> 401 /\ StatusCode response <> 404 /\
    json_Unmarshal_steamGridDBResponse (Body response) = Ok listing /\
    grid_Success listing = true /\ selected animatedFirst (grid_Data listing) data.

(** The bytes a turn goes on with are the body of the last answer. *)
Definition lastBody (bytes : string) (t : list event) : Prop :=
  exists t0 req response,
    t = (t0 ++ [(req, Answer response)])%list /\ isCommunityRequest req = true /\
    bytes = Body response /\ StatusCode response <> 401 /\ StatusCode response <> 404.


(** ** Sorting the search results (download.go, lines 101-115) *)

(** [l[i]] for an [int]: a panic below zero and from the length on. *)
Definition at_index {A : Type} (l : list A) (i : Z) : outcome A :=
  if (i <? 0)%Z then Panic "index out of range"
  else match nth_error l (Z.to_nat i) with
       | Some a => Ret a
       | None => Panic "index out of range"
       end.

(** [l[n] = v], for [n] in range. *)
Fixpoint store {A : Type} (l : list A) (n : nat) (v : A) : list A :=
  match l, n with
  | [], _ => []
  | _ :: l', O => v :: l'
  | a :: l', S n' => a :: store l' n' v
  end.

(** The methods have value receivers; [Data] is a slice, so [Swap] writes
    to the array of the caller: the result is the response after the call. *)
Definition Len (results : steamGridDBSearchResponse) : Z :=
  Z.of_nat (length (search_Data results)).

(** [results.Data[i], results.Data[j] = results.Data[j], results.Data[i]]:
    both operands are read, then [Data[i]] and [Data[j]] are written. *)
Definition Swap (results : steamGridDBSearchResponse) (i j : Z)
  : outcome steamGridDBSearchResponse :=
  match at_index (search_Data results) j with
  | Panic msg => Panic msg
  | Ret dj =>
      match at_index (search_Data results) i with
      | Panic msg => Panic msg
      | Ret di =>
          Ret {| search_Success := search_Success results;
                 search_Data := store (store (search_Data results) (Z.to_nat i) dj)
                                      (Z.to_nat j) di |}
      end
  end.

Section Sortable.
Context {L : Library}.

(** Go compares strings byte by byte. *)
Definition Less (results : steamGridDBSearchResponse) (i j : Z) : outcome bool :=
  match at_index (search_Data results) i with
  | Panic msg => Panic msg
  | Ret di =>
      match at_index (search_Data results) j with
      | Panic msg => Panic msg
      | Ret dj =>
          Ret (String.ltb (strings_ToLower (search_Name di))
                          (strings_ToLower (search_Name dj)))
      end
  end.

Definition Keywords (results : steamGridDBSearchResponse) (i : Z) : outcome string :=
  match at_index (search_Data results) i with
  | Panic msg => Panic msg
  | Ret d => Ret (strings_ToLower (search_Name d))
  end.

End Sortable.

(** ** steamgrid.go *)

(** [bToMb] (lines 32-34), on a [uint64]. *)
Definition bToMb (b : Z) : Z := b / 1024 / 1024.

(** The flags that make the table of the styles (lines 56-70). *)
Record Options : Type := {
  steamGridDBStyles : string;
  steamGridDBLogoStyles : string;
  steamGridDBTypes : string;
  steamGridDBNsfw : string;
  steamGridDBHumor : string;
  steamGridDBBannerDimensions : string;
  steamGridDBCoverDimensions : string;
  steamGridDBHeroDimensions : string;
  skipBanner : bool;
  skipCover : bool;
  skipHero : bool;
  skipLogo : bool
}.

(** Lines 85-88. *)
Definition steamGridDBBannerFilter (o : Options) : string :=
  "?styles=" ++ steamGridDBStyles o ++ "&types=" ++ steamGridDBTypes o
  ++ "&nsfw=" ++ steamGridDBNsfw o ++ "&humor=" ++ steamGridDBHumor o
  ++ "&dimensions=" ++ steamGridDBBannerDimensions o.

Definition steamGridDBCoverFilter (o : Options) : string :=
  "?styles=" ++ steamGridDBStyles o ++ "&types=" ++ steamGridDBTypes o
  ++ "&nsfw=" ++ steamGridDBNsfw o ++ "&humor=" ++ steamGridDBHumor o
  ++ "&dimensions=" ++ steamGridDBCoverDimensions o.

Definition steamGridDBHeroFilter (o : Options) : string :=
  "?styles=" ++ steamGridDBStyles o ++ "&types=" ++ steamGridDBTypes o
  ++ "&nsfw=" ++ steamGridDBNsfw o ++ "&humor=" ++ steamGridDBHumor o
  ++ "&dimensions=" ++ steamGridDBHeroDimensions o.

Definition steamGridDBLogoFilter (o : Options) : string :=
  "?styles=" ++ steamGridDBLogoStyles o ++ "&types=" ++ steamGridDBTypes o
  ++ "&nsfw=" ++ steamGridDBNsfw o ++ "&humor=" ++ steamGridDBHumor o.

(** [delete(artStyles, key)]: the map is the list of its entries; [range]
    may yield them in any order. *)
Definition delete (key : string) (m : list (string * list string))
  : list (string * list string) :=
  filter (fun entry => negb (fst entry =? key)) m.

(** Lines 90-109. *)
Definition artStyles (o : Options) : list (string * list string) :=
  let m := [ ("Banner", [""; ".banner"; "header.jpg"; steamGridDBBannerFilter o]);
             ("Cover", ["p"; ".cover"; "library_600x900_2x.jpg"; steamGridDBCoverFilter o]);
             ("Hero", ["_hero"; ".hero"; "library_hero.jpg"; steamGridDBHeroFilter o]);
             ("Logo", ["_logo"; ".logo"; "logo.png"; steamGridDBLogoFilter o]) ] in
  let m := if skipBanner o then delete "Banner" m else m in
  let m := if skipCover o then delete "Cover" m else m in
  let m := if skipHero o then delete "Hero" m else m in
  if skipLogo o then delete "Logo" m else m.



(** *** Saving the result (lines 285-304) *)





(** [id<<32|0x02000000] on a [uint64] *)
Definition legacyName (id : Z) : Z :=
  Z.lor (Z.shiftl id 32 mod 2 ^ 64) 0x02000000.


(** *** The counters of the loop (lines 144-169 and 236-252) *)

Record Tally : Type := {
  nDownloaded : Z;
  notFounds : list (string * Game);
  steamGridDB : list (string * Game);
  IGDB : list (string * Game);
  searchedGames : list (string * Game)
}.

Definition emptyTally : Tally :=
  {| nDownloaded := 0; notFounds := []; steamGridDB := []; IGDB := [];
     searchedGames := [] |}.

(** Lines 236-252: the game is appended under its style; the report at the
    end reads the name and the identifier of the entries, which no later
    step writes. *)
Definition tallyResult (tally : Tally) (artStyle : string) (game : Game)
    (from : string) (err : error) : Tally * bool :=
  if ImageSource game =? "" then
    ({| nDownloaded := nDownloaded tally;
        notFounds := notFounds tally ++ [(artStyle, game)];
        steamGridDB := steamGridDB tally; IGDB := IGDB tally;
        searchedGames := searchedGames tally |}, false)
  else
    let n := if is_nil err then nDownloaded tally + 1 else nDownloaded tally in
    (if from =? "IGDB" then
       {| nDownloaded := n; notFounds := notFounds tally;
          steamGridDB := steamGridDB tally;
          IGDB := IGDB tally ++ [(artStyle, game)];
          searchedGames := searchedGames tally |}
     else if from =? "SteamGridDB" then
       {| nDownloaded := n; notFounds := notFounds tally;
          steamGridDB := steamGridDB tally ++ [(artStyle, game)];
          IGDB := IGDB tally; searchedGames := searchedGames tally |}
     else if from =? "search" then
       {| nDownloaded := n; notFounds := notFounds tally;
          steamGridDB := steamGridDB tally; IGDB := IGDB tally;
          searchedGames := searchedGames tally ++ [(artStyle, game)] |}
     else
       {| nDownloaded := n; notFounds := notFounds tally;
          steamGridDB := steamGridDB tally; IGDB := IGDB tally;
          searchedGames := searchedGames tally |}, true).

Section DownloadIfMissing.
Context {W : Type} {N : Network W} {L : Library}.

(** Lines 226-253, for a game as line 216 leaves it: the key, the game and
    the counters after the step, and whether the body of the loop goes on
    (it does not after [continue]). *)
Definition downloadIfMissing (flags : Flags) (gridDir steamGridDBApiKey : string)
    (game : Game) (artStyle : string) (artStyleExtensions : list string) (tally : Tally)
  : @M W (string * Game * Tally * bool) :=
  if ImageSource game =? "" then
    bind (DownloadImage gridDir game artStyle artStyleExtensions (skipSteam flags)
            steamGridDBApiKey (IGDBSecret flags) (IGDBClient flags) (skipGoogle flags)
            (onlyMissingArtwork flags) (steamGridDBOnly flags))
      (fun result =>
         match result with
         | (game, (from, err)) =>
             let steamGridDBApiKey :=
               if err_is err "SteamGridDB authorization token is missing or invalid"
               then "" else steamGridDBApiKey in
             let '(tally, goesOn) := tallyResult tally artStyle game from err in
             ret (steamGridDBApiKey, game, tally, goesOn)
         end)
  else ret (steamGridDBApiKey, game, tally, true).

End DownloadIfMissing.

(** ** Web search *)

(** The URL of the search for a name: the size is the one of a banner. *)
Definition googleSearchURL (L : Library) (gameName : string) : string :=
  "https://www.google.com.br/search?tbs=isz%3Aex%2Ciszw%3A460%2Ciszh%3A215&tbm=isch&num=5&q="
  ++ url_QueryEscape gameName.

(** [url] is the first group of the first of the patterns that matches the
    page. *)
Definition firstMatch (L : Library) (patterns : list string) (page url : string) : Prop :=
  exists before pattern after,
    patterns = (before ++ pattern :: after)%list /\
    (forall p, In p before -> regexp_FindStringSubmatch p page = []) /\
    nth_error (regexp_FindStringSubmatch pattern page) 1 = Some url.
(** ** Concrete libraries, networks and inputs *)

Module Examples.

(** url.QueryEscape: letters, digits and [-_.~] stay, a space becomes [+],
    any other byte is written [%XX]. *)
Definition hexDigit (n : nat) : ascii :=
  nth n ["0"; "1"; "2"; "3"; "4"; "5"; "6"; "7"; "8"; "9";
         "A"; "B"; "C"; "D"; "E"; "F"]%char "0"%char.

Definition unreserved (c : ascii) : bool :=
  let n := nat_of_ascii c in
  ((48 <=? n) && (n <=? 57) || (65 <=? n) && (n <=? 90) || (97 <=? n) && (n <=? 122)
   || (n =? 45) || (n =? 95) || (n =? 46) || (n =? 126))%nat.

Fixpoint queryEscape (s : string) : string :=
  match s with
  | EmptyString => EmptyString
  | String c rest =>
      if unreserved c then String c (queryEscape rest)
      else if Ascii.eqb c " "%char then String "+"%char (queryEscape rest)
      else String "%"%char
             (String (hexDigit (nat_of_ascii c / 16))
                (String (hexDigit (nat_of_ascii c mod 16)) (queryEscape rest)))
  end.

(** strings.ToLower on ASCII text *)
Fixpoint toLower (s : string) : string :=
  match s with
  | EmptyString => EmptyString
  | String c rest =>
      let n := nat_of_ascii c in
      String (if ((65 <=? n) && (n <=? 90))%nat then ascii_of_nat (n + 32) else c)
             (toLower rest)
  end.

Definition q (s : string) : string := dquote ++ s ++ dquote.

(** Bodies the example servers send. *)
Definition gridsEmptyJSON : string :=
  "{" ++ q "success" ++ ":true," ++ q "data" ++ ":[]}".

Definition gridsErrorJSON : string :=
  "{" ++ q "success" ++ ":false," ++ q "errors" ++ ":[" ++ q "Internal error" ++ "]}".

Definition gridsOneJSON : string :=
  "{" ++ q "success" ++ ":true," ++ q "data" ++ ":[{" ++ q "id" ++ ":1," ++ q "score" ++ ":0,"
  ++ q "style" ++ ":" ++ q "alternate" ++ "," ++ q "url" ++ ":"
  ++ q "https://cdn2.steamgriddb.com/grid/abc.png" ++ "," ++ q "thumb" ++ ":"
  ++ q "https://cdn2.steamgriddb.com/thumb/abc.jpg" ++ "}]}".

Definition tokenJSON : string := "{" ++ q "access_token" ++ ":" ++ q "tok" ++ "}".

Definition notJSON : string := "<html>Service Unavailable</html>".

Definition gamesJSON : string :=
  "[{" ++ q "id" ++ ":5," ++ q "cover" ++ ":9," ++ q "name" ++ ":" ++ q "Half-Life 2" ++ "}]".

Definition coversJSON : string :=
  "[{" ++ q "id" ++ ":9," ++ q "image_id" ++ ":" ++ q "abc123" ++ "}]".

(** A reply that parses as a search result and not as a listing of images:
    [Tags] of an entry of a listing is a list. *)
Definition tagsJSON : string :=
  "{" ++ q "success" ++ ":true," ++ q "data" ++ ":[{" ++ q "id" ++ ":1," ++ q "name" ++ ":"
  ++ q "Half-Life 2" ++ "," ++ q "tags" ++ ":" ++ q "fps" ++ "}]}".

Definition tagsError : string :=
  "json: cannot unmarshal string into Go struct field .Data.Tags of type []string".

Definition jsonSyntaxError : string := "invalid character '<' looking for beginning of value".

(** The error of json.Unmarshal on a body that is no JSON. *)
Definition syntaxErrorOf (b : string) : string :=
  if b =? "" then "unexpected end of JSON input" else jsonSyntaxError.

Definition isObjectBody (b : string) : bool :=
  (b =? gridsEmptyJSON) || (b =? gridsErrorJSON) || (b =? gridsOneJSON) || (b =? tokenJSON)
  || (b =? tagsJSON).

Definition isArrayBody (b : string) : bool := (b =? gamesJSON) || (b =? coversJSON).

Definition gridOne : gridData :=
  {| grid_ID := 1; grid_Score := 0; grid_Style := "alternate";
     grid_URL := "https://cdn2.steamgriddb.com/grid/abc.png";
     grid_Thumb := "https://cdn2.steamgriddb.com/thumb/abc.jpg";
     grid_Tags := [];
     grid_Author := {| author_Name := ""; author_Steam64 := ""; author_Avatar := "" |} |}.

(** Image payloads of the examples; the decoders below know their headers. *)
Definition webp600x900 : string := "RIFF....WEBPVP8X 600x900".
Definition png460x215 : string := "PNG 460x215".
Definition png300x450 : string := "PNG 300x450".
Definition jpeg460x215 : string := "JFIF 460x215".

(** The library on the inputs of the examples: json.Unmarshal on the bodies
    above (a key without a field is dropped, a field without a key keeps its
    zero value), the decoders on the payloads above. *)
Definition exampleLibrary : Library := {|
  http_NewRequest := fun _ _ => None;
  json_Unmarshal_steamGridDBResponse := fun b =>
    if b =? gridsEmptyJSON then Ok {| grid_Success := true; grid_Data := [] |}
    else if b =? gridsErrorJSON then Ok {| grid_Success := false; grid_Data := [] |}
    else if b =? gridsOneJSON then Ok {| grid_Success := true; grid_Data := [gridOne] |}
    else if b =? tokenJSON then Ok {| grid_Success := false; grid_Data := [] |}
    else if b =? tagsJSON then Fail tagsError
    else if isArrayBody b
    then Fail "json: cannot unmarshal array into Go value of type main.steamGridDBResponse"
    else Fail (syntaxErrorOf b);
  json_Unmarshal_steamGridDBSearchResponse := fun b =>
    if b =? gridsEmptyJSON then Ok {| search_Success := true; search_Data := [] |}
    else if b =? gridsErrorJSON then Ok {| search_Success := false; search_Data := [] |}
    else if b =? gridsOneJSON
    then Ok {| search_Success := true;
               search_Data := [ {| search_ID := 1; search_Name := ""; search_Types := [];
                                   search_Verified := false |} ] |}
    else if b =? tokenJSON then Ok {| search_Success := false; search_Data := [] |}
    else if b =? tagsJSON
    then Ok {| search_Success := true;
               search_Data := [ {| search_ID := 1; search_Name := "Half-Life 2";
                                   search_Types := []; search_Verified := false |} ] |}
    else if isArrayBody b
    then Fail "json: cannot unmarshal array into Go value of type main.steamGridDBSearchResponse"
    else Fail (syntaxErrorOf b);
  json_Unmarshal_igdbGames := fun b =>
    if b =? gamesJSON
    then Ok [ {| igdbGame_ID := 5; igdbGame_Cover := 9; igdbGame_Name := "Half-Life 2" |} ]
    else if b =? coversJSON
    then Ok [ {| igdbGame_ID := 9; igdbGame_Cover := 0; igdbGame_Name := "" |} ]
    else if isObjectBody b
    then Fail "json: cannot unmarshal object into Go value of type []main.igdbGame"
    else Fail (syntaxErrorOf b);
  json_Unmarshal_igdbCovers := fun b =>
    if b =? coversJSON
    then Ok [ {| igdbCover_ID := 9; igdbCover_Image_ID := "abc123" |} ]
    else if b =? gamesJSON
    then Ok [ {| igdbCover_ID := 5; igdbCover_Image_ID := "" |} ]
    else if isObjectBody b
    then Fail "json: cannot unmarshal object into Go value of type []main.igdbCover"
    else Fail (syntaxErrorOf b);
  json_Unmarshal_token := fun b =>
    if b =? tokenJSON then Ok "tok"
    else if isObjectBody b then Ok ""
    else if isArrayBody b
    then Fail "json: cannot unmarshal array into Go value of type main.token"
    else Fail (syntaxErrorOf b);
  fuzzy_Sort := fun data _ => data;
  strings_ToLower := toLower;
  url_QueryEscape := queryEscape;
  regexp_FindStringSubmatch := fun _ _ => [];
  webpanimation_GetInfo := fun b =>
    if b =? webp600x900 then Ok (600, 900) else Fail "webp: invalid format";
  apng_DecodeConfig := fun b =>
    if b =? png460x215 then Ok (460, 215)
    else if b =? png300x450 then Ok (300, 450)
    else Fail "apng: invalid format";
  image_DecodeConfig := fun b =>
    if b =? jpeg460x215 then Ok (460, 215) else Fail "image: unknown format"
|}.

Definition exampleCollaborators : Collaborators := {|
  loadExisting := fun _ _ game _ => game
|}.

(** A server that answers by the request alone. *)
Definition staticNetwork (answer : Request -> Reply) : Network unit := {|
  roundTrip := fun req w => (answer req, w)
|}.

Definition response (code : Z) (status contentType path body : string) : Response :=
  {| StatusCode := code; Status := status; ContentType := contentType;
     RequestURLPath := path; Body := body; BodyErr := None |}.

Definition reply (code : Z) (status contentType path body : string) : Reply :=
  Answer (response code status contentType path body).

Definition notFound : Reply := reply 404 "404 Not Found" "text/html" "" "".

Definition hasHeader (name : string) (req : Request) : bool :=
  match req with
  | GET _ header => existsb (fun h => fst h =? name) header
  | POST _ header _ => existsb (fun h => fst h =? name) header
  end.

Definition halfLife2 : Game :=
  {| ID := "220"; Name := "Half-Life 2"; Custom := false; LegacyID := 0;
     ImageSource := ""; ImageExt := ""; CleanImageBytes := None;
     OverlayImageBytes := None |}.

(** A shortcut the user added: its identifier is not one of the catalog. *)
Definition emulator : Game :=
  {| ID := "3405713804"; Name := "Emulator"; Custom := true; LegacyID := 0;
     ImageSource := ""; ImageExt := ""; CleanImageBytes := None;
     OverlayImageBytes := None |}.

(** The entries of [artStyles] for the default flags (steamgrid.go, 85-96). *)
Definition bannerExtensions : list string :=
  [ ""; ".banner"; "header.jpg";
    "?styles=alternate&types=static&nsfw=false&humor=false&dimensions=460x215,920x430" ].

Definition coverExtensions : list string :=
  [ "p"; ".cover"; "library_600x900_2x.jpg";
    "?styles=alternate&types=static&nsfw=false&humor=false&dimensions=600x900,342x482,660x930" ].


(** net/http sends nothing for a URL without a scheme. *)
Definition realistic (answer : Request -> Reply) (req : Request) : Reply :=
  if String.prefix "http" (request_url req) then answer req
  else Failure unsupported_scheme.

Definition bannerOnCDN : string :=
  "https://steamcdn-a.akamaihd.net/steam/apps/220/header.jpg".

Definition coverOnCDN : string :=
  "https://steamcdn-a.akamaihd.net/steam/apps/220/library_600x900_2x.jpg".

Definition bannerOnSteamCDN : string :=
  "cdn.akamai.steamstatic.com/steam/apps/220/header.jpg".

Definition gridOneURL : string := "https://cdn2.steamgriddb.com/grid/abc.png".

(** Every server answers 404. *)
Definition nothingAnywhere : Network unit :=
  staticNetwork (realistic (fun _ => notFound)).

(** The community database rejects the key; nothing else is found. *)
Definition unauthorized : Reply := reply 401 "401 Unauthorized" "application/json" "" "".

Definition rejectsKey : Network unit :=
  staticNetwork (realistic (fun req =>
    if isCommunityRequest req then unauthorized else notFound)).

(** The primary CDN has the banner of game 220. *)
Definition bannerReply : Reply :=
  reply 200 "200 OK" "image/png" "/steam/apps/220/header.jpg" png460x215.

Definition cdnHasBanner : Network unit :=
  staticNetwork (realistic (fun req =>
    if request_url req =? bannerOnCDN then bannerReply else notFound)).

(** The community database lists one image; its host fails. *)
Definition listingReply : Reply :=
  reply 200 "200 OK" "application/json" "" gridsOneJSON.

Definition serverError : Reply :=
  reply 500 "500 Internal Server Error" "text/html" "" "".

Definition brokenImageHost : Network unit :=
  staticNetwork (realistic (fun req =>
    if isCommunityRequest req then listingReply
    else if request_url req =? gridOneURL then serverError
    else notFound)).

(** The community database answers 500 with a JSON body of its own. *)
Definition errorReply : Reply :=
  reply 500 "500 Internal Server Error" "application/json" "" gridsErrorJSON.

Definition failingListing : Network unit :=
  staticNetwork (realistic (fun req =>
    if isCommunityRequest req then errorReply else notFound)).

(** The community database has no image for the game. *)
Definition emptyReply : Reply := reply 200 "200 OK" "application/json" "" gridsEmptyJSON.

Definition emptyListing : Network unit :=
  staticNetwork (realistic (fun req =>
    if isCommunityRequest req then emptyReply else notFound)).

(** The metadata database hands out a token and then answers with a page
    that is no JSON. *)
Definition tokenReply : Reply := reply 200 "200 OK" "application/json" "" tokenJSON.

Definition pageReply : Reply :=
  reply 503 "503 Service Unavailable" "text/html" "" notJSON.

Definition brokenMetadata : Network unit :=
  staticNetwork (realistic (fun req =>
    if isTokenRequest req then tokenReply
    else if isMetadataRequest req then pageReply
    else notFound)).

(** The primary CDN serves an upright image as the banner. *)
Definition uprightReply : Reply :=
  reply 200 "200 OK" "image/png" "/steam/apps/220/header.jpg" png300x450.

Definition uprightBanner : Network unit :=
  staticNetwork (realistic (fun req =>
    if request_url req =? bannerOnCDN then uprightReply else notFound)).

(** The primary CDN serves a WEBP of 600 by 900 as the cover. *)
Definition webpReply : Reply :=
  reply 200 "200 OK" "image/webp" "/steam/apps/220/library_600x900_2x.jpg" webp600x900.

Definition webpResponse : Response :=
  response 200 "200 OK" "image/webp" "/steam/apps/220/library_600x900_2x.jpg" webp600x900.

Definition cdnHasWebpCover : Network unit :=
  staticNetwork (realistic (fun req =>
    if request_url req =? coverOnCDN then webpReply else notFound)).

(** The community database cannot be reached. *)
Definition connectionRefused : string :=
  "dial tcp 104.26.3.204:443: connect: connection refused".

Definition communityDown : Network unit :=
  staticNetwork (realistic (fun req =>
    if isCommunityRequest req then Failure connectionRefused else notFound)).

(** The metadata database knows the game: game 5, cover 9, image abc123. *)
Definition gamesReply : Reply := reply 200 "200 OK" "application/json" "" gamesJSON.
Definition coversReply : Reply := reply 200 "200 OK" "application/json" "" coversJSON.

Definition metadataKnowsGame : Network unit :=
  staticNetwork (realistic (fun req =>
    if isTokenRequest req then tokenReply
    else if request_url req =? igdbGameURL then gamesReply
    else if request_url req =? igdbCoverURL then coversReply
    else notFound)).

(** A run with the community database alone. *)
Definition communityFlags : Flags :=
  {| skipSteam := true; skipGoogle := true; onlyMissingArtwork := false;
     steamGridDBOnly := false; IGDBSecret := ""; IGDBClient := "";
     overridePath := "games" |}.

Definition bannerByIdentifier : Request :=
  GET ("https://www.steamgriddb.com/api/v2/grids/steam/220"
       ++ "?styles=alternate&types=static&nsfw=false&humor=false&dimensions=460x215,920x430")
      [("Authorization", "Bearer K3Y")].

Definition coverByIdentifier : Request :=
  GET ("https://www.steamgriddb.com/api/v2/grids/steam/220"
       ++ "?styles=alternate&types=static&nsfw=false&humor=false&dimensions=600x900,342x482,660x930")
      [("Authorization", "Bearer K3Y")].

(** The community database answers every request with a body that is a
    search result and no listing. *)
Definition tagsReply : Reply := reply 200 "200 OK" "application/json" "" tagsJSON.

Definition mislabelledListing : Network unit :=
  staticNetwork (realistic (fun req =>
    if isCommunityRequest req then tagsReply else notFound)).

(** The flags as the program starts without arguments. *)
Definition defaultFlags : Flags :=
  {| skipSteam := false; skipGoogle := false; onlyMissingArtwork := false;
     steamGridDBOnly := false; IGDBSecret := ""; IGDBClient := "";
     overridePath := "games" |}.



(** The primary CDN labels the banner [png], a content type without a
    slash. *)
Definition bareTypeReply : Reply :=
  reply 200 "200 OK" "png" "/steam/apps/220/header.jpg" png460x215.

Definition cdnBareType : Network unit :=
  staticNetwork (realistic (fun req =>
    if request_url req =? bannerOnCDN then bareTypeReply else notFound)).

(** Three results of a search in the community database. *)
Definition searchEntry (id : Z) (name : string) : searchData :=
  {| search_ID := id; search_Name := name; search_Types := [];
     search_Verified := false |}.

Definition searchResults : steamGridDBSearchResponse :=
  {| search_Success := true;
     search_Data := [ searchEntry 2 "Half-Life"; searchEntry 220 "half-life 2";
                      searchEntry 400 "Portal" ] |}.


End Examples.
(** ** Running the monad *)

Section Runs.

Context {W : Type} {N : Network W} {L : Library}.

Lemma bind_inv {A B : Type} (m : @M W A) (k : A -> @M W B) w r t w' :
  bind m k w = (r, t, w') ->
  (exists a t1 w1 t2,
      m w = (Ret a, t1, w1) /\ k a w1 = (r, t2, w') /\ t = (t1 ++ t2)%list) \/
  (exists msg, r = Panic msg /\ m w = (Panic msg, t, w')).
Proof.
  unfold bind. destruct (m w) as [[[a | msg] t1] w1].
  - destruct (k a w1) as [[r2 t2] w2] eqn:Hk. intros H. inversion H; subst.
    left. exists a, t1, w1, t2. auto.
  - intros H. inversion H; subst. right. exists msg. auto.
Qed.

Lemma ret_inv {A : Type} (a : A) (w : W) r t w' :
  ret a w = (r, t, w') -> r = Ret a /\ t = [] /\ w' = w.
Proof. unfold ret. intros H. inversion H. auto. Qed.

Lemma panic_inv {A : Type} msg (w : W) (r : outcome A) t w' :
  panic msg w = (r, t, w') -> r = Panic msg /\ t = [] /\ w' = w.
Proof. unfold panic. intros H. inversion H. auto. Qed.

Lemma index_inv {A : Type} (l : list A) i (w : W) r t w' :
  index l i w = (r, t, w') ->
  t = [] /\ w' = w /\
  ((exists a, nth_error l i = Some a /\ r = Ret a) \/
   (nth_error l i = None /\ exists msg, r = Panic msg)).
Proof.
  unfold index. destruct (nth_error l i) as [a |]; intros H.
  - apply ret_inv in H. destruct H as (-> & -> & ->). eauto 6.
  - apply panic_inv in H. destruct H as (-> & -> & ->). eauto 6.
Qed.

Lemma client_Do_inv (req : Request) (w : W) r t w' :
  client_Do req w = (r, t, w') ->
  exists reply, r = Ret reply /\
    ((request_url req = "" /\ reply = Failure unsupported_scheme /\ t = [] /\ w' = w) \/
     (request_url req <> "" /\ roundTrip req w = (reply, w') /\ t = [(req, reply)])).
Proof.
  unfold client_Do. destruct (String.eqb_spec (request_url req) "") as [E | E].
  - intros H. inversion H; subst. eexists. split; [reflexivity |]. left. auto.
  - destruct (roundTrip req w) as [reply w1]. intros H. inversion H; subst.
    eexists. split; [reflexivity |]. right. auto.
Qed.

End Runs.

(** ** The calculus of postconditions *)

Section Post.
Context {W : Type} {N : Network W} {L : Library}.

Lemma post_ret {A : Type} (a : A) (Q : outcome A -> list event -> Prop) :
  Q (Ret a) [] -> post (W := W) (ret a) Q.
Proof. intros H w r t w' E. apply ret_inv in E. destruct E as (-> & -> & _). exact H. Qed.

Lemma post_panic {A : Type} msg (Q : outcome A -> list event -> Prop) :
  Q (Panic msg) [] -> post (W := W) (panic msg) Q.
Proof. intros H w r t w' E. apply panic_inv in E. destruct E as (-> & -> & _). exact H. Qed.

Lemma post_bind {A B : Type} (m : @M W A) (k : A -> @M W B) (Q : outcome B -> list event -> Prop) :
  post m (fun r t1 =>
            match r with
            | Ret a => post (k a) (fun r2 t2 => Q r2 (t1 ++ t2)%list)
            | Panic msg => Q (Panic msg) t1
            end) ->
  post (bind m k) Q.
Proof.
  intros H w r t w' E. apply bind_inv in E.
  destruct E as [(a & t1 & w1 & t2 & Hm & Hk & ->) | (msg & -> & Hm)].
  - apply H in Hm. eapply Hm. exact Hk.
  - apply H in Hm. exact Hm.
Qed.

Lemma post_index {A : Type} (l : list A) i (Q : outcome A -> list event -> Prop) :
  (forall a, nth_error l i = Some a -> Q (Ret a) []) ->
  (nth_error l i = None -> Q (Panic "index out of range") []) ->
  post (W := W) (index l i) Q.
Proof.
  intros H1 H2. unfold index. destruct (nth_error l i) as [a |].
  - apply post_ret. auto.
  - apply post_panic. auto.
Qed.

Lemma post_client_Do (req : Request) (Q : outcome Reply -> list event -> Prop) :
  (request_url req = "" -> Q (Ret (Failure unsupported_scheme)) []) ->
  (request_url req <> "" -> forall reply, Q (Ret reply) [(req, reply)]) ->
  post (client_Do req) Q.
Proof.
  intros H1 H2 w r t w' E. apply client_Do_inv in E.
  destruct E as (reply & -> & [(Eu & -> & -> & _) | (Eu & _ & ->)]); auto.
Qed.

Lemma post_conseq {A : Type} (m : @M W A) (Q Q' : outcome A -> list event -> Prop) :
  post m Q' -> (forall r t, Q' r t -> Q r t) -> post m Q.
Proof. intros H HQ w r t w' E. apply HQ. eapply H. exact E. Qed.


Lemma traceOf_app cls n1 n2 n (t1 t2 : list event) :
  traceOf cls n1 t1 -> traceOf cls n2 t2 -> (n1 + n2 <= n)%nat ->
  traceOf cls n (t1 ++ t2).
Proof.
  intros [F1 L1] [F2 L2] Hn. split.
  - apply Forall_app. auto.
  - rewrite length_app. lia.
Qed.

Lemma traceOf_nil cls n : traceOf cls n [].
Proof. split; [constructor | simpl; lia]. Qed.

Lemma traceOf_weaken cls n n' (t : list event) :
  traceOf cls n t -> (n <= n')%nat -> traceOf cls n' t.
Proof. intros [F Ln] H. split; [exact F | lia]. Qed.

End Post.

(** Which of the requests to the community database is the search by name. *)
Lemma prefix_app (s t : string) : String.prefix s (s ++ t) = true.
Proof.
  induction s as [| c s IH]; cbn [String.prefix String.append].
  - destruct t; reflexivity.
  - destruct (ascii_dec c c) as [_ | Hne]; [exact IH | contradiction Hne; reflexivity].
Qed.

Lemma append_assoc (s1 s2 s3 : string) : (s1 ++ s2) ++ s3 = s1 ++ s2 ++ s3.
Proof. induction s1 as [| c s1 IH]; cbn; [reflexivity | rewrite IH; reflexivity]. Qed.

Lemma isSearchByName_search name filter headers :
  isSearchByName
    (GET (steamGridDBBaseURL ++ "/search/autocomplete/" ++ name ++ filter) headers) = true.
Proof.
  unfold isSearchByName. cbn [request_url]. rewrite <- append_assoc. apply prefix_app.
Qed.

Lemma isSearchByName_other nameExtension rest headers :
  isSearchByName (GET (sgdbBaseURL nameExtension ++ "/" ++ rest) headers) = false.
Proof.
  unfold isSearchByName, sgdbBaseURL. cbn [request_url].
  destruct (nameExtension =? ".banner"); [destruct rest as [| [[] [] [] [] [] [] [] []] rest]; reflexivity |].
  destruct (nameExtension =? ".cover"); [destruct rest as [| [[] [] [] [] [] [] [] []] rest]; reflexivity |].
  destruct (nameExtension =? ".hero"); [destruct rest as [| [[] [] [] [] [] [] [] []] rest]; reflexivity |].
  destruct (nameExtension =? ".logo"); [destruct rest as [| [[] [] [] [] [] [] [] []] rest]; reflexivity |].
  reflexivity.
Qed.

Lemma isSearchByName_game nameExtension n filter headers :
  isSearchByName (GET (sgdbBaseURL nameExtension ++ "/game/" ++ n ++ filter) headers) = false.
Proof. exact (isSearchByName_other nameExtension ("game/" ++ n ++ filter) headers). Qed.

Lemma isSearchByName_identifier nameExtension id filter headers :
  isSearchByName (GET (sgdbBaseURL nameExtension ++ "/steam/" ++ id ++ filter) headers) = false.
Proof. exact (isSearchByName_other nameExtension ("steam/" ++ id ++ filter) headers). Qed.

Ltac wp_step :=
  lazymatch goal with
  | |- post (bind _ _) _ => apply post_bind
  | |- post (bindc _ _) _ => unfold bindc at 1
  | |- post (ret _) _ => apply post_ret; cbv beta iota
  | |- post (panic _) _ => apply post_panic; cbv beta iota
  | |- post (index _ _) _ => apply post_index; [intros ? ? | intros ?]; cbv beta iota
  | |- post (client_Do _) _ => apply post_client_Do; [intros ? | intros ? ?]; cbv beta iota
  | |- post (if ?b then _ else _) _ => destruct b eqn:?
  | |- post (match ?x with _ => _ end) _ => destruct x eqn:?
  | |- post (let '(_, _) := ?x in _) _ => destruct x eqn:?
  end.

Ltac wp := repeat wp_step.


Ltac trace_leaf :=
  repeat match goal with
    | H : searchPost _ _ _ _ _ |- _ => destruct H as [[? ?] _]
    | H : traceOf _ _ _ |- _ => destruct H as [? ?]
    end;
  unfold traceOf; split;
  [ repeat first [ apply Forall_nil | assumption
                 | apply Forall_cons; [reflexivity |]
                 | apply Forall_app; split ]
  | cbn [length app]; rewrite ?length_app; cbn [length]; lia ].

Tactic Notation "in_split" ident(H) :=
  rewrite ?in_app_iff in H; cbn [In] in H;
  repeat match type of H with
         | _ \/ _ => destruct H as [H | H]
         | False => destruct H
         end.

(** An exchange of the trace is the one at hand: what the reply says about
    the error and the bytes the caller got. *)
Ltac use_reply :=
  repeat match goal with
    | Hin : (_, _) = ?ev |- _ => is_var ev; subst ev
    | Hf : fatal (_, ?x) |- _ => is_var x; destruct x; simpl in Hf
    | Hf : forall e, Failure _ = Failure e -> _ |- _ => specialize (Hf _ eq_refl)
    | Hf : forall e, Answer _ = Failure e -> _ |- _ => clear Hf
    | Ha : forall resp, Failure _ = Answer resp -> _ |- _ => clear Ha
    | Ha : forall resp, Answer ?r = Answer resp -> _, Hu : unparsable _ ?r |- _ =>
        let H1 := fresh in
        let H2 := fresh in
        destruct (Ha r eq_refl (proj1 Hu) (proj1 (proj2 Hu)) (proj1 (proj2 (proj2 Hu))))
          as [H1 H2];
        clear Ha
    end; subst; cbn [err_is is_nil negb snd] in *.

(** The body that failed its parser is the one the program has parsed. *)
Ltac expected_parser Hu :=
  match type of Hu with
  | context [isSearchByName ?q] =>
      first
        [ match goal with
          | Hns : isSearchByName q = _ |- _ => rewrite Hns in Hu
          end
        | replace (isSearchByName q) with true in Hu
            by (symmetry; apply isSearchByName_search)
        | replace (isSearchByName q) with false in Hu
            by (symmetry; first [ apply isSearchByName_game
                                | apply isSearchByName_identifier ]) ]
  end.

Ltac unparsable_contra :=
  match goal with
  | Hu : unparsable ?q ?r |- _ =>
      let e1 := fresh in
      let H1 := fresh in
      destruct Hu as (_ & _ & _ & Hu); expected_parser Hu;
      destruct Hu as (e1 & H1); congruence
  end.

Ltac not404 :=
  match goal with
  | Hne : ?m <> "404", E : (?m =? "404") = true |- _ =>
      apply String.eqb_eq in E; contradiction
  end.

Ltac reported_leaf :=
  cbn [reported];
  first
    [ exact I
    | intros; first [reflexivity | congruence]
    | let Hn := fresh in
      intros Hn;
      match goal with
      | E : (_ =? "401") = true |- _ =>
          apply String.eqb_eq in E; exfalso; apply (Hn eq_refl); exact E
      end ].

Ltac error_leaf :=
  try discriminate; try not404;
  first
    [ unparsable_contra
    | eexists; split; [reflexivity | reported_leaf]
    | left; eexists; split; [reflexivity | reported_leaf]
    | right; eexists; split; [reflexivity |]; split;
      [reflexivity | apply isSearchByName_game] ].

Ltac custom_contra :=
  match goal with
  | Hc : Custom ?g = true, E : negb (Custom ?g) = true |- _ =>
      rewrite Hc in E; discriminate E
  end.

Ltac guard_facts :=
  repeat match goal with
    | H : _ && _ = true |- _ => apply andb_true_iff in H; destruct H
    | H : negb _ = true |- _ => apply negb_true_iff in H
    | H : (_ =? _) = true |- _ => apply String.eqb_eq in H
    | H : (_ =? _) = false |- _ => apply String.eqb_neq in H
    end.



Section Community.
Context {W : Type} {N : Network W} {L : Library}.

Lemma steamGridDBGetRequest_post url key :
  post (steamGridDBGetRequest url key) (communityReply url key).
Proof.
  unfold steamGridDBGetRequest, communityReply.
  wp; do 2 eexists; (split; [reflexivity |]); auto;
    right; eexists; (split; [reflexivity |]);
    (split; [ intros e Hrep | intros resp Hrep H401 H404 Hbody ]);
    inversion Hrep; subst; try reflexivity.
  all: try (apply Z.eqb_eq in Heqb; contradiction).
  all: try (apply Z.eqb_eq in Heqb0; contradiction).
  all: try congruence.
  all: auto.
Qed.

Lemma sgdbBaseURL_cases nameExt :
  sgdbBaseURL nameExt = steamGridDBBaseURL ++ "/grids" \/
  sgdbBaseURL nameExt = steamGridDBBaseURL ++ "/heroes" \/
  sgdbBaseURL nameExt = steamGridDBBaseURL ++ "/logos" \/
  sgdbBaseURL nameExt = "".
Proof.
  unfold sgdbBaseURL.
  destruct (nameExt =? ".banner"); auto.
  destruct (nameExt =? ".cover"); auto.
  destruct (nameExt =? ".hero"); auto.
  destruct (nameExt =? ".logo"); auto.
Qed.

Lemma search_url_not_identifier nameExt name filter id filter' :
  steamGridDBBaseURL ++ "/search/autocomplete/" ++ name ++ filter
  <> sgdbBaseURL nameExt ++ "/steam/" ++ id ++ filter'.
Proof.
  destruct (sgdbBaseURL_cases nameExt) as [E | [E | [E | E]]]; rewrite E;
    unfold steamGridDBBaseURL; simpl; discriminate.
Qed.

Lemma game_url_not_identifier nameExt n filter id filter' :
  sgdbBaseURL nameExt ++ "/game/" ++ n ++ filter
  <> sgdbBaseURL nameExt ++ "/steam/" ++ id ++ filter'.
Proof.
  destruct (sgdbBaseURL_cases nameExt) as [E | [E | [E | E]]]; rewrite E;
    unfold steamGridDBBaseURL; simpl; discriminate.
Qed.

Ltac wp_community :=
  lazymatch goal with
  | |- post (bind (steamGridDBGetRequest _ _) _) _ =>
      apply post_bind; eapply post_conseq; [apply steamGridDBGetRequest_post |];
      let Hc := fresh "Hcall" in
      let Hf := fresh "Hfail" in
      let Ha := fresh "Hans" in
      intros ? ? (? & ? & -> & Hc); cbv beta iota;
      destruct Hc as [-> | (? & -> & Hf & Ha)]
  | |- post (steamGridDBGetRequest _ _) _ =>
      eapply post_conseq; [apply steamGridDBGetRequest_post |];
      let Hc := fresh "Hcall" in
      let Hf := fresh "Hfail" in
      let Ha := fresh "Hans" in
      intros ? ? (? & ? & -> & Hc); cbv beta iota;
      destruct Hc as [-> | (? & -> & Hf & Ha)]
  end.

Ltac identifier_leaf Hn :=
  match goal with
  | Hid : byIdentifier _ _ _ _ |- False =>
      let n := fresh "n" in
      let f := fresh "f" in
      let E1 := fresh "E" in
      let E3 := fresh "E" in
      let Er := fresh "E" in
      destruct Hid as (n & f & E1 & E3 & Er);
      cbn [fst] in Er; inversion Er;
      rewrite Hn in E1; inversion E1; subst;
      match goal with
      | H : _ = _ |- _ => apply search_url_not_identifier in H; exact H
      | H : _ = _ |- _ => apply game_url_not_identifier in H; exact H
      end
  end.

Lemma sgdbSearchByName_post game exts key nameExt :
  nth_error exts 1 = Some nameExt ->
  post (sgdbSearchByName game exts key (sgdbBaseURL nameExt)) (searchPost game exts key).
Proof.
  intros Hn. unfold sgdbSearchByName.
  repeat (wp_community || wp_step).
  all: unfold searchPost;
    (split; [ trace_leaf | split; [ intros ev0 Hin Hfatal | intros ev0 Hin Hid ] ]).
  all: in_split Hin.
  all: use_reply.
  all: try (identifier_leaf Hn).
  all: try error_leaf.
Qed.

Ltac search_leaf :=
  match goal with
  | Hs : searchPost _ _ _ _ ?t, Hin : In ?ev ?t, Hf : fatal ?ev |- _ =>
      let e := fresh "e" in
      let Ee := fresh "Ee" in
      let He := fresh "He" in
      let resp := fresh "resp" in
      let Hns := fresh "Hns" in
      destruct (proj1 (proj2 Hs) _ Hin Hf) as [(e & Ee & He) | (resp & He & Ee & Hns)];
      [ inversion Ee; subst; eexists; (split; [reflexivity | assumption])
      | inversion Ee; subst;
        let Hc := fresh "Hc" in
        pose proof (proj1 (Forall_forall _ _) (proj1 (proj1 Hs)) _ Hin) as Hc;
        destruct ev as [? ?]; cbn [fst snd] in *; subst;
        cbn [fatal] in Hf; rewrite Hc in Hf ]
  | Hs : searchPost _ _ _ _ ?t, Hin : In ?ev ?t, Hid : byIdentifier _ _ _ (fst ?ev) |- _ =>
      exact (proj2 (proj2 Hs) _ Hin Hid)
  end.

Ltac wp_search :=
  lazymatch goal with
  | |- post (sgdbSearchByName _ _ _ _) _ =>
      eapply post_conseq; [apply sgdbSearchByName_post; eassumption |];
      let r := fresh "r" in
      let Hs := fresh "Hsearch" in
      intros r ? Hs; cbv beta iota;
      destruct r as [[? | ?] | ?]
  end.

Lemma sgdbPass_post game exts key :
  post (sgdbPass game exts key)
    (communityPost (traceOf isCommunityRequest 3) game exts key
       (fun e => Ret (Return (A := unit) ("", Some e)))).
Proof.
  unfold sgdbPass, sgdbSelect.
  repeat (wp_community || wp_search || wp_step).
  all: unfold communityPost;
    (split; [ trace_leaf | split; [ intros ev0 Hin Hfatal | intros Hcustom ev0 Hin Hid ] ]).
  all: in_split Hin.
  all: try search_leaf.
  all: use_reply.
  all: try custom_contra.

  all: try error_leaf.
Qed.


Ltac sub_leaf :=
  match goal with
  | Hs : communityPost _ _ _ _ _ _ ?t, Hin : In ?ev ?t, Hf : fatal ?ev |- _ =>
      let e := fresh "e" in
      let Ee := fresh "Ee" in
      let He := fresh "He" in
      destruct (proj1 (proj2 Hs) _ Hin Hf) as (e & Ee & He);
      inversion Ee; subst; eexists; (split; [reflexivity | assumption])
  | Hs : communityPost _ _ _ _ _ _ ?t, Hc : Custom _ = true,
    Hin : In ?ev ?t, Hid : byIdentifier _ _ _ (fst ?ev) |- _ =>
      exact (proj2 (proj2 Hs) Hc _ Hin Hid)
  end.

Ltac wp_pass :=
  lazymatch goal with
  | |- post (bind (sgdbPass _ _ _) _) _ =>
      apply post_bind; eapply post_conseq; [apply sgdbPass_post |];
      let r := fresh "r" in
      let Hp := fresh "Hpass" in
      intros r ? Hp; cbv beta iota;
      destruct r as [[? | []] | ?]
  end.

Lemma getSteamGridDBImage_post game exts key :
  post (getSteamGridDBImage game exts key)
    (communityPost twoTurns game exts key (fun e => Ret ("", Some e))).
Proof.
  unfold getSteamGridDBImage. cbn [sgdbLoop]. simpl Z.ltb. cbv iota.
  repeat (wp_pass || wp_step).
  all: unfold communityPost;
    (split; [ | split; [ intros ev0 Hin Hfatal | intros Hcustom ev0 Hin Hid ] ]).
  all: try (in_split Hin; sub_leaf).
  all: unfold twoTurns; rewrite ?app_nil_r.
  all: first [ eexists; eexists; split; [reflexivity |]
             | eexists; exists []; split; [symmetry; apply app_nil_r |] ].
  all: repeat match goal with H : communityPost _ _ _ _ _ _ _ |- _ => destruct H as [? _] end.
  all: split; first [assumption | apply traceOf_nil].
Qed.

End Community.

Section Providers.
Context {W : Type} {N : Network W} {L : Library}.

Lemma tryDownload_post url : post (tryDownload url) (downloadPost url).
Proof.
  unfold tryDownload, http_Get, downloadPost.
  wp; (split; [trace_leaf |]); do 2 eexists; (split; [reflexivity |]); split; auto.
  all: intros ->; try (split; reflexivity).
  all: cbn [request_url] in *; congruence.
Qed.

Ltac event_facts :=
  repeat match goal with
    | H : unparsableQuery (?r, _) |- _ => is_var r; destruct r as [? ? | ? [| ? ?] ?]
    | H : match ?r with GET _ _ => _ | POST _ _ _ => _ end |- _ =>
        is_var r; destruct r as [? ? | ? [| ? ?] ?]
    | H : fatal (_, _) |- _ => simpl in H
    | H : unparsableQuery (_, _) |- _ => simpl in H
    | H : _ /\ _ |- _ => destruct H
    | H : exists _, _ |- _ => destruct H
    | H : _ \/ _ |- _ => destruct H
    | H : False |- _ => destruct H
    end.

(** The two queries go to different addresses. *)
Ltac query_url :=
  cbn [request_url fst] in *; subst;
  try match goal with
      | H : igdbGameURL = igdbCoverURL |- _ => discriminate H
      | H : igdbCoverURL = igdbGameURL |- _ => discriminate H
      end.

Ltac event_leaf :=
  event_facts; try discriminate; try congruence;
  first [ eexists; split; [reflexivity | reported_leaf]
        | eexists; split; reflexivity
        | split; [reflexivity | eexists; split; reflexivity]
        | reflexivity ].

Lemma igdbPostRequest_post url body secret client :
  post (igdbPostRequest url body secret client) (metadataReply url).
Proof.
  unfold igdbPostRequest.
  wp.
  all: unfold metadataReply;
    (split; [ trace_leaf | split; [ intros ev0 Hin Hfatal | intros ev0 Hin Hq ] ]).
  all: in_split Hin; subst ev0.
  all: event_leaf.
Qed.

Ltac wp_metadata :=
  lazymatch goal with
  | |- post (bind (igdbPostRequest _ _ _ _) _) _ =>
      apply post_bind; eapply post_conseq; [apply igdbPostRequest_post |];
      let r := fresh "r" in
      let Hm := fresh "Hpost" in
      intros r ? Hm; cbv beta iota;
      destruct r as [[? ?] | ?]
  end.

Ltac metadata_sub :=
  match goal with
  | Hs : metadataReply _ _ ?t, Hin : In ?ev ?t, Hf : fatal ?ev |- _ =>
      let e := fresh "e" in
      let Ee := fresh "Ee" in
      let He := fresh "He" in
      destruct (proj1 (proj2 Hs) _ Hin Hf) as (e & Ee & He);
      inversion Ee; subst; cbn [is_nil negb] in *; try congruence;
      eexists; (split; [reflexivity | assumption])
  | Hs : metadataReply _ _ ?t, Hin : In ?ev ?t, Hq : unparsableQuery ?ev |- _ =>
      let resp := fresh "resp" in
      let Ee := fresh "Ee" in
      let He := fresh "He" in
      let Hu := fresh "Hurl" in
      destruct (proj2 (proj2 Hs) _ Hin Hq) as (Hu & resp & He & Ee);
      inversion Ee; subst; cbn [is_nil negb] in *; try congruence;
      destruct ev as [? ?]; cbn [snd] in He; subst; event_facts;
      query_url;
      first [ reflexivity | congruence ]
  end.

Lemma getIGDBImage_post gameName secret client :
  post (getIGDBImage gameName secret client) metadataPost.
Proof.
  unfold getIGDBImage.
  repeat (wp_metadata || wp_step).
  all: unfold metadataPost;
    (split; [ | split; [ intros ev0 Hin Hfatal | intros ev0 Hin Hq ] ]).
  all: try (in_split Hin; metadata_sub).
  all: repeat match goal with H : metadataReply _ _ _ |- _ => destruct H as [? _] end.
  all: rewrite ?app_nil_r.
  all: try (eapply traceOf_weaken; [eassumption | lia]).
  all: try (eapply traceOf_app; [eassumption | eassumption | lia]).
Qed.

Lemma googleScan_post patterns body :
  post (W := W) (googleScan patterns body) (fun _ t => t = []).
Proof.
  induction patterns as [| p ps IH]; cbn [googleScan].
  - wp. reflexivity.
  - destruct (1 <=? length (regexp_FindStringSubmatch p body))%nat.
    + wp; reflexivity.
    + exact IH.
Qed.

Lemma getGoogleImage_post gameName exts :
  post (getGoogleImage gameName exts) searchProviderPost.
Proof.
  unfold getGoogleImage.
  repeat first
    [ wp_step
    | eapply post_conseq; [apply googleScan_post |]; cbv beta; intros ? ? -> ].
  all: unfold searchProviderPost; (split; [ trace_leaf | intros ev0 Hin Hfatal ]).
  all: in_split Hin; subst ev0.
  all: event_leaf.
Qed.

End Providers.

Section Stages.
Context {W : Type} {N : Network W} {L : Library}.

Lemma fatal_not_download (ev : event) : isDownload (fst ev) = true -> ~ fatal ev.
Proof.
  destruct ev as [[url [| h hs] | url hs body] [resp | msg]]; simpl; try discriminate;
    intros _ H; try discriminate H; destruct H; discriminate.
Qed.

Lemma query_is_metadata (ev : event) : unparsableQuery ev -> isMetadataRequest (fst ev) = true.
Proof. destruct ev as [[url hs | url hs body] rep]; simpl; [intros [] | reflexivity]. Qed.

Lemma identifier_is_community game exts key req :
  byIdentifier game exts key req -> isCommunityRequest req = true.
Proof. intros (n & f & _ & _ & ->). reflexivity. Qed.

Lemma classes_disjoint (req : Request) :
  (isDownload req = true ->
   isCommunityRequest req = false /\ isMetadataRequest req = false /\ isSearchRequest req = false) /\
  (isCommunityRequest req = true ->
   isDownload req = false /\ isMetadataRequest req = false /\ isSearchRequest req = false) /\
  (isMetadataRequest req = true ->
   isDownload req = false /\ isCommunityRequest req = false /\ isSearchRequest req = false) /\
  (isSearchRequest req = true ->
   isDownload req = false /\ isCommunityRequest req = false /\ isMetadataRequest req = false).
Proof.
  destruct req as [url [| [name value] [| h hs]] | url hs body]; simpl;
    repeat split; try discriminate; auto;
    match goal with
    | E : (_ =? _) = true |- _ => apply String.eqb_eq in E; subst; reflexivity
    end.
Qed.

Lemma primaryCDN_post game exts skipSteam onlyMissing sgdbOnly :
  post (primaryCDN game exts skipSteam onlyMissing sgdbOnly "steam server") primaryPost.
Proof.
  unfold primaryCDN.
  repeat first
    [ lazymatch goal with
      | |- post (bind (tryDownload _) _) _ =>
          apply post_bind; eapply post_conseq; [apply tryDownload_post |];
          intros ? ? (? & ? & ? & -> & ? & ?); cbv beta iota
      end
    | wp_step ].
  all: unfold primaryPost, primarySegment; (split; [ | intros res0 Ex ]).
  all: try (inversion Ex; subst; auto).
  all: rewrite ?app_nil_r; cbn [app].
  all: try apply traceOf_nil.
  all: try (eapply traceOf_weaken; [eassumption | lia]).
  all: try (eapply traceOf_app; [eassumption | eassumption | lia]).
  all: repeat match goal with
         | H : _ \/ _ |- _ => destruct H; subst
         end;
       repeat match goal with
         | x : error |- _ => destruct x
         | x : option Response |- _ => destruct x
         end;
       cbn [is_nil negb andb] in *; try discriminate; right; eexists; reflexivity.
Qed.


Lemma twoTurns_nil : twoTurns [].
Proof. exists [], []. split; [reflexivity | split; apply traceOf_nil]. Qed.

Lemma stageOf_post guard label (provider : @M W (string * error)) Q v :
  post provider Q ->
  post (stageOf guard label provider v) (stagePost guard label Q v).
Proof.
  intros Hp. unfold stageOf, stagePost. destruct guard.
  - apply post_bind. eapply post_conseq; [exact Hp |].
    intros [[url err] | msg] t HQ; cbv beta iota.
    + destruct (negb (is_nil err)) eqn:E; apply post_ret; right;
        (split; [reflexivity |]); exists (Ret (url, err));
        rewrite app_nil_r; (split; [exact HQ |]); cbn [stageResult]; rewrite E; reflexivity.
    + right. split; [reflexivity |]. exists (Panic msg). split; [exact HQ | reflexivity].
  - apply post_ret. left. auto.
Qed.

Lemma communityStage_post game exts key v :
  post (communityStage game exts key v)
    (stagePost (negb (key =? "") && (v_url v =? "")) "SteamGridDB"
       (communityPost twoTurns game exts key (fun e => Ret ("", Some e))) v).
Proof. apply (stageOf_post _ _ _ _ v (getSteamGridDBImage_post game exts key)). Qed.

Lemma metadataStage_post game artStyle secret client sgdbOnly v :
  post (metadataStage game artStyle secret client sgdbOnly v)
    (stagePost ((artStyle =? "Cover") && negb (client =? "") && negb (secret =? "")
                && (v_url v =? "") && negb sgdbOnly) "IGDB" metadataPost v).
Proof. apply (stageOf_post _ _ _ _ v (getIGDBImage_post (Name game) secret client)). Qed.

Lemma searchStage_post game artStyle exts skipGoogle sgdbOnly v :
  post (searchStage game artStyle exts skipGoogle sgdbOnly v)
    (stagePost (negb skipGoogle && (artStyle =? "Banner") && (v_url v =? "")
                && negb sgdbOnly) "search" searchProviderPost v).
Proof. apply (stageOf_post _ _ _ _ v (getGoogleImage_post (Name game) exts)). Qed.

Lemma finalDownload_post v : post (finalDownload v) (finalPost v).
Proof.
  unfold finalDownload.
  apply post_bind. eapply post_conseq; [apply tryDownload_post |].
  intros r t (Htr & response & err & -> & Hor & Hempty). cbv beta iota.
  destruct response as [resp |], err as [e |]; cbn [is_nil negb andb];
    apply post_ret; unfold finalPost, finalSegment; rewrite app_nil_r;
    (split; [exact Htr |]); split; auto.
  all: try (destruct Hor; discriminate).
  all: try (right; eexists; reflexivity).
  all: try (intros E; destruct (Hempty E) as [? ?]; try discriminate; auto).
Qed.

End Stages.

Section Resolver.
Context {W : Type} {N : Network W} {L : Library}.

Ltac wp_stage lemma :=
  eapply post_conseq; [apply lemma |];
  let c := fresh "c" in
  let Hs := fresh "Hstage" in
  let r := fresh "r" in
  let HQ := fresh "HQ" in
  let G := fresh "G" in
  intros c ? Hs;
  destruct Hs as [(G & -> & ->) | (G & r & HQ & ->)];
  [ | destruct r as [[? [? |]] | ?]; cbn [stageResult is_nil negb] ];
  cbv beta iota.

Ltac wp_resolver_step :=
  lazymatch goal with
  | |- post (primaryCDN _ _ _ _ _ _) _ =>
      eapply post_conseq; [apply primaryCDN_post |];
      let c := fresh "c" in
      let Hp := fresh "Hprimary" in
      intros c ? Hp; destruct c as [[? | [? ?]] | ?]; cbv beta iota
  | |- post (communityStage _ _ _ _) _ => wp_stage communityStage_post
  | |- post (metadataStage _ _ _ _ _ _) _ => wp_stage metadataStage_post
  | |- post (searchStage _ _ _ _ _ _) _ => wp_stage searchStage_post
  | |- post (finalDownload _) _ =>
      eapply post_conseq; [apply finalDownload_post |];
      let Hf := fresh "Hfinal" in
      intros ? ? Hf; cbv beta iota
  | |- _ => wp_step
  end.

Ltac resolver_wp :=
  unfold getImageAlternatives, candidates, bindc; repeat wp_resolver_step.

Lemma segment_class cls n (t : list event) ev :
  traceOf cls n t -> In ev t -> cls (fst ev) = true.
Proof. intros [F _] Hin. exact (proj1 (Forall_forall _ _) F ev Hin). Qed.

Lemma twoTurns_class (t : list event) ev :
  twoTurns t -> In ev t -> isCommunityRequest (fst ev) = true.
Proof.
  intros (t1 & t2 & -> & H1 & H2) Hin. apply in_app_or in Hin.
  destruct Hin as [Hin | Hin];
    [ exact (segment_class _ _ _ _ H1 Hin) | exact (segment_class _ _ _ _ H2 Hin) ].
Qed.

(** The kind of request of an exchange, from the stage it belongs to. *)
Ltac event_class :=
  match goal with
  | Hin : In ?ev ?t, H : primaryPost _ ?t |- _ =>
      pose proof (segment_class _ _ _ _ (proj1 H) Hin)
  | Hin : In ?ev ?t, H : finalPost _ _ ?t |- _ =>
      pose proof (segment_class _ _ _ _ (proj1 H) Hin)
  | Hin : In ?ev ?t, H : communityPost _ _ _ _ _ _ ?t |- _ =>
      pose proof (twoTurns_class _ _ (proj1 H) Hin)
  | Hin : In ?ev ?t, H : metadataPost _ ?t |- _ =>
      pose proof (segment_class _ _ _ _ (proj1 H) Hin)
  | Hin : In ?ev ?t, H : searchProviderPost _ ?t |- _ =>
      pose proof (segment_class _ _ _ _ (proj1 H) Hin)
  end.

Ltac fatal_leaf :=
  match goal with
  | Hin : In ?ev ?t, Hf : fatal ?ev, H : primaryPost _ ?t |- _ =>
      exfalso; apply (fatal_not_download ev); [ event_class; assumption | exact Hf ]
  | Hin : In ?ev ?t, Hf : fatal ?ev, H : finalPost _ _ ?t |- _ =>
      exfalso; apply (fatal_not_download ev); [ event_class; assumption | exact Hf ]
  | Hin : In ?ev ?t, Hf : fatal ?ev, H : communityPost _ _ _ _ _ _ ?t |- _ =>
      let e := fresh "e" in
      let Ee := fresh "Ee" in
      let He := fresh "He" in
      destruct (proj1 (proj2 H) ev Hin Hf) as (e & Ee & He);
      inversion Ee; subst; do 3 eexists; (split; [reflexivity | exact He])
  | Hin : In ?ev ?t, Hf : fatal ?ev, H : metadataPost _ ?t |- _ =>
      let e := fresh "e" in
      let Ee := fresh "Ee" in
      let He := fresh "He" in
      destruct (proj1 (proj2 H) ev Hin Hf) as (e & Ee & He);
      inversion Ee; subst; do 3 eexists; (split; [reflexivity | exact He])
  | Hin : In ?ev ?t, Hf : fatal ?ev, H : searchProviderPost _ ?t |- _ =>
      let e := fresh "e" in
      let Ee := fresh "Ee" in
      let He := fresh "He" in
      destruct (proj2 H ev Hin Hf) as (e & Ee & He);
      inversion Ee; subst; do 3 eexists; (split; [reflexivity | exact He])
  end.

Lemma getImageAlternatives_fatal game artStyle exts skipSteam key secret client
    skipGoogle onlyMissing sgdbOnly :
  post (getImageAlternatives game artStyle exts skipSteam key secret client
          skipGoogle onlyMissing sgdbOnly)
    (fun r t => forall ev, In ev t -> fatal ev ->
       exists response label e, r = Ret (response, label, Some e) /\ reported ev e).
Proof.
  resolver_wp.
  all: intros ev0 Hin Hfatal.
  all: in_split Hin.
  all: fatal_leaf.
Qed.


Ltac class_contra :=
  event_class;
  match goal with
  | H1 : ?c1 (fst ?ev) = true, H2 : ?c2 (fst ?ev) = true |- _ =>
      let D1 := fresh in
      let D2 := fresh in
      let D3 := fresh in
      let D4 := fresh in
      destruct (classes_disjoint (fst ev)) as (D1 & D2 & D3 & D4);
      first [ destruct (D1 H1) as (? & ? & ?) | destruct (D2 H1) as (? & ? & ?)
            | destruct (D3 H1) as (? & ? & ?) | destruct (D4 H1) as (? & ? & ?) ];
      congruence
  end.

Lemma getImageAlternatives_query game artStyle exts skipSteam key secret client
    skipGoogle onlyMissing sgdbOnly :
  post (getImageAlternatives game artStyle exts skipSteam key secret client
          skipGoogle onlyMissing sgdbOnly)
    (fun r t => forall ev, In ev t -> unparsableQuery ev -> r = Ret (None, "", None)).
Proof.
  resolver_wp.
  all: intros ev0 Hin Hq.
  all: in_split Hin.
  all: pose proof (query_is_metadata _ Hq) as Hmeta.
  all: try class_contra.
  all: match goal with
       | H : metadataPost _ ?t, Hin : In _ ?t |- _ =>
           pose proof (proj2 (proj2 H) _ Hin Hq) as Er; inversion Er; subst
       end.
  all: guard_facts; subst; try discriminate.
  all: match goal with
       | H : finalPost _ _ _ |- _ => exact (proj1 (proj2 (proj2 H) eq_refl))
       end.
Qed.

Lemma getImageAlternatives_identifier game artStyle exts skipSteam key secret client
    skipGoogle onlyMissing sgdbOnly :
  Custom game = true ->
  post (getImageAlternatives game artStyle exts skipSteam key secret client
          skipGoogle onlyMissing sgdbOnly)
    (fun r t => forall ev, In ev t -> ~ byIdentifier game exts key (fst ev)).
Proof.
  intros Hcustom. resolver_wp.
  all: intros ev0 Hin Hid.
  all: in_split Hin.
  all: pose proof (identifier_is_community _ _ _ _ Hid) as Hcommunity.
  all: try class_contra.
  all: match goal with
       | H : communityPost _ _ _ _ _ _ ?t, Hin : In _ ?t |- _ =>
           exact (proj2 (proj2 H) Hcustom _ Hin Hid)
       end.
Qed.

Lemma getImageAlternatives_label game artStyle exts skipSteam key secret client
    skipGoogle onlyMissing sgdbOnly :
  post (getImageAlternatives game artStyle exts skipSteam key secret client
          skipGoogle onlyMissing sgdbOnly)
    (fun r t => forall response from, r = Ret (Some response, from, None) -> from <> "").
Proof.
  resolver_wp.
  all: intros response0 from0 Er.
  all: try (inversion Er; fail).
  all: try match goal with
         | H : primaryPost (Ret (Return ?x)) _ |- _ =>
             destruct (proj2 H x eq_refl) as [-> | (? & ->)]
         | H : finalPost _ ?r _ |- _ =>
             destruct (proj1 (proj2 H)) as [-> | (? & ->)]
         end.
  all: inversion Er; cbn [v_from]; discriminate.
Qed.

Lemma splits_nil : splits [] [].
Proof. reflexivity. Qed.

Lemma splits_take segment rest (a b : list event) :
  segment a -> splits rest b -> splits (segment :: rest) (a ++ b).
Proof. intros Ha Hb. exists a, b. auto. Qed.

Lemma splits_take_last segment rest (a : list event) :
  segment a -> splits rest [] -> splits (segment :: rest) a.
Proof. intros Ha Hb. exists a, []. rewrite app_nil_r. auto. Qed.

Lemma splits_skip (segment : list event -> Prop) rest (t : list event) :
  segment [] -> splits rest t -> splits (segment :: rest) t.
Proof. intros Ha Hb. exists [], t. auto. Qed.

Ltac segment_fact :=
  match goal with
  | H : primaryPost _ ?t |- primarySegment ?t => exact (proj1 H)
  | H : communityPost _ _ _ _ _ _ ?t |- twoTurns ?t => exact (proj1 H)
  | H : metadataPost _ ?t |- metadataSegment _ ?t =>
      split; [exact (proj1 H) | intros _; guard_facts; assumption]
  | H : searchProviderPost _ ?t |- searchSegment _ ?t =>
      split; [exact (proj1 H) | intros _; guard_facts; assumption]
  | H : finalPost _ _ ?t |- finalSegment ?t => exact (proj1 H)
  end.

Ltac segment_nil :=
  first [ apply traceOf_nil | apply twoTurns_nil
        | split; [apply traceOf_nil | intros E; contradiction E; reflexivity] ].

Ltac build_splits :=
  repeat first
    [ apply splits_nil
    | apply splits_take; [solve [segment_fact] |]
    | apply splits_take_last; [solve [segment_fact] |]
    | apply splits_skip; [solve [segment_nil] |] ].

Lemma getImageAlternatives_shape game artStyle exts skipSteam key secret client
    skipGoogle onlyMissing sgdbOnly :
  post (getImageAlternatives game artStyle exts skipSteam key secret client
          skipGoogle onlyMissing sgdbOnly)
    (fun r t => resolutionShape artStyle t).
Proof.
  resolver_wp.
  all: unfold resolutionShape; rewrite <- ?app_assoc; cbn [app]; rewrite ?app_nil_r.
  all: build_splits.
Qed.

End Resolver.

Section Download.
Context {W : Type} {N : Network W} {L : Library}.

Lemma split_field contentType :
  nth_error (strings_Split contentType "/"%char) 1 = slashField contentType.
Proof.
  unfold slashField.
  assert (Hhead : forall s, nth_error (strings_Split s "/"%char) 0 = Some (uptoSlash s)).
  { induction s as [| c s IH]; cbn [strings_Split uptoSlash]; [reflexivity |].
    destruct (Ascii.eqb c "/"%char); [reflexivity |].
    destruct (strings_Split s "/"%char) as [| x xs]; [discriminate IH |].
    cbn in IH |- *. congruence. }
  induction contentType as [| c s IH]; cbn [strings_Split afterSlash]; [reflexivity |].
  destruct (Ascii.eqb c "/"%char).
  - cbn [nth_error option_map]. apply Hhead.
  - specialize (Hhead s).
    destruct (strings_Split s "/"%char) as [| x xs]; [discriminate Hhead |].
    exact IH.
Qed.


Lemma no_slash s : strings_Contains s "/" = false -> afterSlash s = None.
Proof.
  induction s as [| c s IH]; cbn [strings_Contains afterSlash]; [reflexivity |].
  intros H. apply orb_false_elim in H. destruct H as [Hp Hrest].
  destruct (Ascii.eqb_spec c "/"%char) as [-> | Hne]; [| exact (IH Hrest)].
  cbn in Hp. destruct s; discriminate Hp.
Qed.

Lemma slash_found s : strings_Contains s "/" = true -> afterSlash s <> None.
Proof.
  induction s as [| c s IH]; cbn [strings_Contains afterSlash].
  - cbn. discriminate.
  - intros H. destruct (Ascii.eqb_spec c "/"%char) as [-> | Hne]; [discriminate |].
    apply orb_true_iff in H. destruct H as [Hp | Hrest]; [| exact (IH Hrest)].
    cbn [String.prefix] in Hp.
    destruct (ascii_dec "/" c) as [E | E]; [contradiction Hne; auto | discriminate Hp].
Qed.

(** The index of line 444 is out of range exactly for a content type that
    is not empty and has no slash. *)
Lemma deriveExt_None contentType urlExt :
  deriveExt contentType urlExt = None <->
  contentType <> "" /\ strings_Contains contentType "/" = false.
Proof.
  unfold deriveExt. rewrite split_field. unfold slashField.
  destruct (String.eqb_spec contentType "") as [-> | Hne]; cbn [negb].
  - split; [| intros [H _]; contradiction H; reflexivity].
    destruct (urlExt =? ""); discriminate.
  - destruct (strings_Contains contentType "/") eqn:Hs.
    + pose proof (slash_found _ Hs) as Hfound.
      destruct (afterSlash contentType); [| contradiction Hfound; reflexivity].
      cbn [option_map]. split; [discriminate | intros [_ H]; discriminate H].
    + rewrite (no_slash _ Hs). cbn [option_map]. split; auto.
Qed.



Lemma DownloadImage_fatal gridDir game artStyle exts skipSteam key secret client
    skipGoogle onlyMissing sgdbOnly :
  post (DownloadImage gridDir game artStyle exts skipSteam key secret client
          skipGoogle onlyMissing sgdbOnly)
    (fun r t => forall ev, In ev t -> fatal ev ->
       exists e, r = Ret (game, ("", Some e)) /\ reported ev e).
Proof.
  unfold DownloadImage.
  apply post_bind. eapply post_conseq; [apply getImageAlternatives_fatal |].
  intros r t H. destruct r as [[[response from] err] | msg]; cbv beta iota.
  - wp.
    all: intros ev0 Hin Hfatal; rewrite app_nil_r in Hin.
    all: destruct (H ev0 Hin Hfatal) as (response' & label & e' & Er & Hrep).
    all: inversion Er; subst; try discriminate.
    all: eexists; (split; [reflexivity | exact Hrep]).
  - intros ev0 Hin Hfatal.
    destruct (H ev0 Hin Hfatal) as (response' & label & e' & Er & Hrep). discriminate Er.
Qed.

Lemma DownloadImage_query gridDir game artStyle exts skipSteam key secret client
    skipGoogle onlyMissing sgdbOnly :
  post (DownloadImage gridDir game artStyle exts skipSteam key secret client
          skipGoogle onlyMissing sgdbOnly)
    (fun r t => forall ev, In ev t -> unparsableQuery ev -> r = Ret (game, ("", None))).
Proof.
  unfold DownloadImage.
  apply post_bind. eapply post_conseq; [apply getImageAlternatives_query |].
  intros r t H. destruct r as [[[response from] err] | msg]; cbv beta iota.
  - wp.
    all: intros ev0 Hin Hq; rewrite app_nil_r in Hin.
    all: pose proof (H ev0 Hin Hq) as Er; inversion Er; subst; reflexivity.
  - intros ev0 Hin Hq. discriminate (H ev0 Hin Hq).
Qed.

Lemma DownloadImage_frame gridDir game artStyle exts skipSteam key secret client
    skipGoogle onlyMissing sgdbOnly :
  post (DownloadImage gridDir game artStyle exts skipSteam key secret client
          skipGoogle onlyMissing sgdbOnly)
    (fun r t => forall game' from err, r = Ret (game', (from, err)) ->
       from = "" \/ err <> None ->
       CleanImageBytes game' = CleanImageBytes game /\
       ImageSource game' = ImageSource game).
Proof.
  unfold DownloadImage.
  apply post_bind. eapply post_conseq; [apply getImageAlternatives_label |].
  intros r t H. destruct r as [[[response from] err] | msg]; cbv beta iota.
  - wp.
    all: intros game' from' err' Er Hcase; inversion Er; subst.
    all: try (split; reflexivity).
    destruct Hcase as [-> | Hne]; [| contradiction Hne; reflexivity].
    exfalso. exact (H _ _ eq_refl eq_refl).
  - intros game' from' err' Er. discriminate Er.
Qed.

End Download.

Section Forward.
Context {W : Type} {N : Network W} {L : Library}.

Lemma bind_run {A B : Type} (m : @M W A) (k : A -> @M W B) w a t1 w1 :
  m w = (Ret a, t1, w1) ->
  bind m k w = (let '(r, t2, w2) := k a w1 in (r, (t1 ++ t2)%list, w2)).
Proof. intros H. unfold bind. rewrite H. destruct (k a w1) as [[r t2] w2]. reflexivity. Qed.

Lemma finalDownload_empty v (w : W) :
  v_url v = "" -> finalDownload v w = (Ret (None, "", None), [], w).
Proof.
  intros E. unfold finalDownload, tryDownload, http_Get, bind. rewrite E.
  destruct (http_NewRequest "GET" ""); reflexivity.
Qed.

Lemma candidates_community game artStyle exts skipSteam key secret client
    skipGoogle onlyMissing sgdbOnly (w : W) p tP wP url tS wS :
  primaryCDN game exts skipSteam onlyMissing sgdbOnly "steam server" w
    = (Ret (Next p), tP, wP) ->
  key <> "" ->
  getSteamGridDBImage game exts key wP = (Ret (url, None), tS, wS) ->
  url <> "" ->
  candidates game artStyle exts skipSteam key secret client skipGoogle onlyMissing
    sgdbOnly w
  = (Ret (Next {| v_response := fst p; v_from := "SteamGridDB";
                  v_err := None; v_url := url |}), (tP ++ tS)%list, wS).
Proof.
  intros Hp Hk Hs Hu.
  apply String.eqb_neq in Hk. apply String.eqb_neq in Hu.
  unfold candidates, bindc. rewrite (bind_run _ _ _ _ _ _ Hp). cbv beta iota.
  unfold communityStage, metadataStage, searchStage, bind, ret. cbn [v_url].
  rewrite Hk. cbn [negb andb String.eqb]. rewrite Hs.
  repeat (progress (cbn [is_nil negb andb app v_url v_response v_from v_err];
                    rewrite ?Hu, ?andb_false_r)).
  rewrite ?app_nil_r. reflexivity.
Qed.

End Forward.
(** ** Facts shared by the claims *)

Section Shape.
Context {W : Type} {N : Network W} {L : Library}.

(** Where an exchange of a resolution stands, by the kind of its request. *)
Lemma shape_cases artStyle (t : list event) ev :
  resolutionShape artStyle t -> In ev t ->
  isDownload (fst ev) = true \/
  isCommunityRequest (fst ev) = true \/
  (isMetadataRequest (fst ev) = true /\ artStyle = "Cover") \/
  (isSearchRequest (fst ev) = true /\ artStyle = "Banner").
Proof.
  unfold resolutionShape. cbn [splits].
  intros (tP & r1 & -> & HP & tS & r2 & -> & HS & tI & r3 & -> & HI & tG & r4 & -> & HG
          & tF & r5 & -> & HF & ->) Hin.
  rewrite app_nil_r in Hin. rewrite !in_app_iff in Hin.
  destruct Hin as [Hin | [Hin | [Hin | [Hin | Hin]]]].
  - left. exact (segment_class _ _ _ _ HP Hin).
  - right. left. exact (twoTurns_class _ _ HS Hin).
  - right. right. left. destruct HI as [HI Hstyle]. split.
    + exact (segment_class _ _ _ _ HI Hin).
    + apply Hstyle. intros ->. destruct Hin.
  - right. right. right. destruct HG as [HG Hstyle]. split.
    + exact (segment_class _ _ _ _ HG Hin).
    + apply Hstyle. intros ->. destruct Hin.
  - left. exact (segment_class _ _ _ _ HF Hin).
Qed.

Lemma shape_metadata artStyle (t : list event) ev :
  resolutionShape artStyle t -> In ev t -> isMetadataRequest (fst ev) = true ->
  artStyle = "Cover".
Proof.
  intros Hs Hin Hm.
  destruct (classes_disjoint (fst ev)) as (D1 & D2 & D3 & D4).
  destruct (shape_cases _ _ _ Hs Hin) as [H | [H | [[_ H] | [H _]]]]; try exact H.
  - destruct (D1 H) as (_ & E & _). congruence.
  - destruct (D2 H) as (_ & E & _). congruence.
  - destruct (D4 H) as (_ & _ & E). congruence.
Qed.

Lemma shape_search artStyle (t : list event) ev :
  resolutionShape artStyle t -> In ev t -> isSearchRequest (fst ev) = true ->
  artStyle = "Banner".
Proof.
  intros Hs Hin Hm.
  destruct (classes_disjoint (fst ev)) as (D1 & D2 & D3 & D4).
  destruct (shape_cases _ _ _ Hs Hin) as [H | [H | [[H _] | [_ H]]]]; try exact H.
  - destruct (D1 H) as (_ & _ & E). congruence.
  - destruct (D2 H) as (_ & _ & E). congruence.
  - destruct (D3 H) as (_ & _ & E). congruence.
Qed.

End Shape.

(** ** The claims *)

Section Claims.
Context {W : Type} {N : Network W} {L : Library}.

(** C1: in every run of the resolver, a request to the metadata database is
    made only for the style Cover and a request to web search only for the
    style Banner; and when the community database, asked after the primary
    CDN found nothing, gives a non-empty URL, nothing follows but the final
    download of that URL: the metadata database and web search are skipped. *)
Theorem C1_stage_gating game artStyle exts skipSteam key secret client
    skipGoogle onlyMissing sgdbOnly (w : W) r t w' :
  getImageAlternatives game artStyle exts skipSteam key secret client
    skipGoogle onlyMissing sgdbOnly w = (r, t, w') ->
  (forall ev, In ev t -> isMetadataRequest (fst ev) = true -> artStyle = "Cover") /\
  (forall ev, In ev t -> isSearchRequest (fst ev) = true -> artStyle = "Banner") /\
  (forall p tP wP url tS wS,
     primaryCDN game exts skipSteam onlyMissing sgdbOnly "steam server" w
       = (Ret (Next p), tP, wP) ->
     key <> "" ->
     getSteamGridDBImage game exts key wP = (Ret (url, None), tS, wS) ->
     url <> "" ->
     exists tF, t = (tP ++ tS ++ tF)%list /\ finalSegment tF /\
       finalDownload {| v_response := fst p; v_from := "SteamGridDB";
                        v_err := None; v_url := url |} wS = (r, tF, w')).
Proof.
  intros Hrun.
  pose proof (getImageAlternatives_shape game artStyle exts skipSteam key secret client
                skipGoogle onlyMissing sgdbOnly w r t w' Hrun) as Hshape.
  split; [| split].
  - intros ev Hin Hm. exact (shape_metadata _ _ _ Hshape Hin Hm).
  - intros ev Hin Hs. exact (shape_search _ _ _ Hshape Hin Hs).
  - intros p tP wP url tS wS Hp Hk Hc Hu.
    pose proof (candidates_community game artStyle exts skipSteam key secret client
                  skipGoogle onlyMissing sgdbOnly w p tP wP url tS wS Hp Hk Hc Hu) as Hcand.
    unfold getImageAlternatives in Hrun.
    rewrite (bind_run _ _ _ _ _ _ Hcand) in Hrun. cbv beta iota in Hrun.
    destruct (finalDownload _ wS) as [[rF tF] wF] eqn:HF.
    inversion Hrun; subst. exists tF. split; [symmetry; apply app_assoc |].
    split; [| reflexivity].
    exact (proj1 (finalDownload_post _ _ _ _ _ HF)).
Qed.

End Claims.
Section Unauthorized.
Context {W : Type} {N : Network W} {L : Library}.

Lemma bind_ret {A B : Type} (a : A) (k : A -> @M W B) (w : W) :
  bind (ret a) k w = k a w.
Proof. unfold bind, ret. destruct (k a w) as [[r t] w']. reflexivity. Qed.

Lemma steam_url_not_empty base id filter : base ++ "/steam/" ++ id ++ filter <> "".
Proof. destruct base; discriminate. Qed.

(** One request to the community database, by the reply it gets. *)
Lemma steamGridDBGetRequest_run url key (w : W) reply w1 :
  http_NewRequest "GET" url = None -> url <> "" ->
  roundTrip (GET url [("Authorization", "Bearer " ++ key)]) w = (reply, w1) ->
  steamGridDBGetRequest url key w =
  (Ret match reply with
       | Failure e => ("", Some e)
       | Answer response =>
           if (StatusCode response =? 401)%Z then ("", errors_New "401")
           else if (StatusCode response =? 404)%Z then ("", errors_New "404")
           else match BodyErr response with
                | Some e => ("", Some e)
                | None => (Body response, None)
                end
       end,
   [(GET url [("Authorization", "Bearer " ++ key)], reply)], w1).
Proof.
  intros Hnew Hurl Hrt. apply String.eqb_neq in Hurl.
  unfold steamGridDBGetRequest. rewrite Hnew.
  unfold bind, client_Do. cbn [request_url]. rewrite Hurl, Hrt.
  destruct reply as [response | e]; [| reflexivity].
  destruct (StatusCode response =? 401)%Z; [reflexivity |].
  destruct (StatusCode response =? 404)%Z; [reflexivity |].
  destruct (BodyErr response); reflexivity.
Qed.

(** The request by identifier is answered 401: the lookup ends at once,
    with the message of line 187. *)
Lemma getSteamGridDBImage_unauthorized game exts key nameExt filter (w : W) resp w1 :
  Custom game = false ->
  nth_error exts 1 = Some nameExt -> nth_error exts 3 = Some filter ->
  http_NewRequest "GET" (sgdbBaseURL nameExt ++ "/steam/" ++ ID game ++ filter) = None ->
  roundTrip (GET (sgdbBaseURL nameExt ++ "/steam/" ++ ID game ++ filter)
                 [("Authorization", "Bearer " ++ key)]) w = (Answer resp, w1) ->
  StatusCode resp = 401 ->
  getSteamGridDBImage game exts key w =
  (Ret ("", Some sgdbAuthError),
   [(GET (sgdbBaseURL nameExt ++ "/steam/" ++ ID game ++ filter)
         [("Authorization", "Bearer " ++ key)], Answer resp)], w1).
Proof.
  intros Hc H1 H3 Hnew Hrt H401.
  pose proof (steamGridDBGetRequest_run _ key w _ w1 Hnew (steam_url_not_empty _ _ _) Hrt)
    as Hreq.
  cbv beta iota in Hreq. rewrite H401 in Hreq. cbn [Z.eqb Pos.eqb] in Hreq.
  assert (Hpass : sgdbPass game exts key w =
            (Ret (Return ("", Some sgdbAuthError)),
             [(GET (sgdbBaseURL nameExt ++ "/steam/" ++ ID game ++ filter)
                   [("Authorization", "Bearer " ++ key)], Answer resp)], w1)).
  { unfold sgdbPass, index. rewrite H1, H3, Hc. cbn [negb].
    rewrite !bind_ret. rewrite (bind_run _ _ _ _ _ _ Hreq).
    cbv beta iota. unfold errors_New. simpl err_is. cbv iota.
    unfold bindc. rewrite bind_ret. reflexivity. }
  unfold getSteamGridDBImage. cbn [sgdbLoop]. change (0 <? 3)%Z with true. cbv iota.
  rewrite (bind_run _ _ _ _ _ _ Hpass). reflexivity.
Qed.

(** The stages up to the community database, when it reports an error. *)
Lemma candidates_community_error game artStyle exts skipSteam key secret client
    skipGoogle onlyMissing sgdbOnly (w : W) p tP wP url e tS wS :
  primaryCDN game exts skipSteam onlyMissing sgdbOnly "steam server" w
    = (Ret (Next p), tP, wP) ->
  key <> "" ->
  getSteamGridDBImage game exts key wP = (Ret (url, Some e), tS, wS) ->
  candidates game artStyle exts skipSteam key secret client skipGoogle onlyMissing
    sgdbOnly w
  = (Ret (Return (fst p, "SteamGridDB", Some e)), (tP ++ tS)%list, wS).
Proof.
  intros Hp Hk Hs.
  apply String.eqb_neq in Hk.
  unfold candidates, bindc. rewrite (bind_run _ _ _ _ _ _ Hp). cbv beta iota.
  unfold communityStage, bind, ret. cbn [v_url].
  rewrite Hk. cbn [negb andb String.eqb]. rewrite Hs.
  cbn [is_nil negb v_response]. rewrite ?app_nil_r. reflexivity.
Qed.

(** An error of the resolver is the error of [DownloadImage]; the game is
    left as it was. *)
Lemma DownloadImage_error gridDir game artStyle exts skipSteam key secret client
    skipGoogle onlyMissing sgdbOnly (w : W) response from e t w' :
  getImageAlternatives game artStyle exts skipSteam key secret client
    skipGoogle onlyMissing sgdbOnly w = (Ret (response, from, Some e), t, w') ->
  DownloadImage gridDir game artStyle exts skipSteam key secret client
    skipGoogle onlyMissing sgdbOnly w = (Ret (game, ("", Some e)), t, w').
Proof.
  intros H. unfold DownloadImage. rewrite (bind_run _ _ _ _ _ _ H).
  destruct response; cbn [ret]; rewrite app_nil_r; reflexivity.
Qed.

Lemma getImageAlternatives_return game artStyle exts skipSteam key secret client
    skipGoogle onlyMissing sgdbOnly (w : W) r t w' :
  candidates game artStyle exts skipSteam key secret client skipGoogle onlyMissing
    sgdbOnly w = (Ret (Return r), t, w') ->
  getImageAlternatives game artStyle exts skipSteam key secret client
    skipGoogle onlyMissing sgdbOnly w = (Ret r, t, w').
Proof.
  intros H. unfold getImageAlternatives. rewrite (bind_run _ _ _ _ _ _ H).
  cbn [ret]. rewrite app_nil_r. reflexivity.
Qed.

End Unauthorized.

Section Batch.
Context {W : Type} {N : Network W} {L : Library} {C : Collaborators}.

(** C2: the community database answers the request by identifier with 401
    (the primary CDN having been skipped or having found nothing).  The
    resolution returns the message of line 187, which begins with a space;
    the loop compares it with the message without the space (line 228), so
    the key it hands on to the next resolution is the key it was given, not
    the empty one. *)
Theorem C2_key_not_cleared flags gridDir key game artStyle exts nameExt filter
    (w : W) p tP wP resp w1 :
  ImageSource (prepared flags gridDir game exts) = "" ->
  Custom (prepared flags gridDir game exts) = false ->
  primaryCDN (prepared flags gridDir game exts) exts (skipSteam flags)
    (onlyMissingArtwork flags) (steamGridDBOnly flags) "steam server" w
    = (Ret (Next p), tP, wP) ->
  key <> "" ->
  nth_error exts 1 = Some nameExt -> nth_error exts 3 = Some filter ->
  http_NewRequest "GET"
    (request_url (requestByIdentifier (prepared flags gridDir game exts) nameExt filter key))
    = None ->
  roundTrip (requestByIdentifier (prepared flags gridDir game exts) nameExt filter key) wP
    = (Answer resp, w1) ->
  StatusCode resp = 401 ->
  DownloadImage gridDir (prepared flags gridDir game exts) artStyle exts (skipSteam flags)
    key (IGDBSecret flags) (IGDBClient flags) (skipGoogle flags)
    (onlyMissingArtwork flags) (steamGridDBOnly flags) w
  = (Ret (prepared flags gridDir game exts,
          ("", Some " SteamGridDB authorization token is missing or invalid")),
     (tP ++ [(requestByIdentifier (prepared flags gridDir game exts) nameExt filter key,
              Answer resp)])%list, w1) /\
  resolveStyle flags gridDir key game artStyle exts w
  = (Ret (key, prepared flags gridDir game exts),
     (tP ++ [(requestByIdentifier (prepared flags gridDir game exts) nameExt filter key,
              Answer resp)])%list, w1).
Proof.
  unfold requestByIdentifier. cbn [request_url].
  intros Hsrc Hcustom Hp Hk H1 H3 Hnew Hrt H401.
  pose proof (getSteamGridDBImage_unauthorized _ exts key nameExt filter wP resp w1
                Hcustom H1 H3 Hnew Hrt H401) as Hs.
  pose proof (candidates_community_error _ artStyle exts (skipSteam flags) key
                (IGDBSecret flags) (IGDBClient flags) (skipGoogle flags)
                (onlyMissingArtwork flags) (steamGridDBOnly flags) w p tP wP _ _ _ _
                Hp Hk Hs) as Hc.
  apply getImageAlternatives_return in Hc.
  apply (DownloadImage_error gridDir) in Hc.
  split; [exact Hc |].
  unfold resolveStyle. fold (prepared flags gridDir game exts).
  rewrite Hsrc. cbn [String.eqb]. rewrite (bind_run _ _ _ _ _ _ Hc).
  change (err_is (Some sgdbAuthError) _) with false. cbv iota. unfold ret.
  rewrite app_nil_r. reflexivity.
Qed.

End Batch.
Section Present.
Context {W : Type} {N : Network W} {L : Library}.

Lemma candidates_primary_return game artStyle exts skipSteam key secret client
    skipGoogle onlyMissing sgdbOnly (w : W) r t w' :
  primaryCDN game exts skipSteam onlyMissing sgdbOnly "steam server" w
    = (Ret (Return r), t, w') ->
  candidates game artStyle exts skipSteam key secret client skipGoogle onlyMissing
    sgdbOnly w = (Ret (Return r), t, w').
Proof.
  intros H. unfold candidates, bindc. rewrite (bind_run _ _ _ _ _ _ H).
  cbn [ret]. rewrite app_nil_r. reflexivity.
Qed.

(** The primary CDN, when its first variant has the image. *)
Lemma primaryCDN_first game exts onlyMissing suffix (w : W) resp t1 w1 :
  nth_error exts 2 = Some suffix ->
  tryDownload (fmt_Sprintf (akamaiURLFormat ++ suffix) [ID game]) w
    = (Ret (Some resp, None), t1, w1) ->
  primaryCDN game exts false onlyMissing false "steam server" w
  = (Ret (Return (if onlyMissing then (None, "", None)
                  else (Some resp, "steam server", None))), t1, w1).
Proof.
  intros Hn H1. unfold primaryCDN, index. cbn [negb andb]. rewrite Hn.
  rewrite bind_ret. rewrite (bind_run _ _ _ _ _ _ H1). cbn [is_nil negb andb].
  destruct onlyMissing; cbn [ret]; rewrite app_nil_r; reflexivity.
Qed.

(** The primary CDN, when only its second variant has the image. *)
Lemma primaryCDN_second game exts onlyMissing suffix (w : W) x t1 w1 resp t2 w2 :
  nth_error exts 2 = Some suffix ->
  tryDownload (fmt_Sprintf (akamaiURLFormat ++ suffix) [ID game]) w = (Ret x, t1, w1) ->
  is_nil (snd x) && negb (is_nil (fst x)) = false ->
  tryDownload (fmt_Sprintf (steamCdnURLFormat ++ suffix) [ID game]) w1
    = (Ret (Some resp, None), t2, w2) ->
  primaryCDN game exts false onlyMissing false "steam server" w
  = (Ret (Return (if onlyMissing then (None, "", None)
                  else (Some resp, "steam server", None))), (t1 ++ t2)%list, w2).
Proof.
  intros Hn H1 Hx H2. unfold primaryCDN, index. cbn [negb andb]. rewrite Hn.
  rewrite bind_ret. rewrite (bind_run _ _ _ _ _ _ H1). destruct x as [response err].
  cbn [fst snd] in Hx. rewrite Hx. rewrite bind_ret.
  rewrite (bind_run _ _ _ _ _ _ H2). cbn [is_nil negb andb].
  destruct onlyMissing; cbn [ret]; rewrite app_nil_r; reflexivity.
Qed.

(** C3: with "only missing artwork" set and the primary CDN asked, a
    download that succeeds on either variant ends the resolution with the
    empty result (no response, no label, no error), the value it also returns
    when nothing is found anywhere; the trace is that of the primary
    downloads alone, so no other provider is asked and nothing is downloaded
    again. *)
Theorem C3_present_is_empty game artStyle exts key secret client skipGoogle suffix (w : W) :
  nth_error exts 2 = Some suffix ->
  (forall resp t1 w1,
     tryDownload (fmt_Sprintf (akamaiURLFormat ++ suffix) [ID game]) w
       = (Ret (Some resp, None), t1, w1) ->
     getImageAlternatives game artStyle exts false key secret client skipGoogle true false w
     = (Ret (None, "", None), t1, w1)) /\
  (forall x t1 w1 resp t2 w2,
     tryDownload (fmt_Sprintf (akamaiURLFormat ++ suffix) [ID game]) w = (Ret x, t1, w1) ->
     is_nil (snd x) && negb (is_nil (fst x)) = false ->
     tryDownload (fmt_Sprintf (steamCdnURLFormat ++ suffix) [ID game]) w1
       = (Ret (Some resp, None), t2, w2) ->
     getImageAlternatives game artStyle exts false key secret client skipGoogle true false w
     = (Ret (None, "", None), (t1 ++ t2)%list, w2)).
Proof.
  intros Hn. split.
  - intros resp t1 w1 H1.
    apply getImageAlternatives_return, candidates_primary_return.
    exact (primaryCDN_first game exts true suffix w resp t1 w1 Hn H1).
  - intros x t1 w1 resp t2 w2 H1 Hx H2.
    apply getImageAlternatives_return, candidates_primary_return.
    exact (primaryCDN_second game exts true suffix w x t1 w1 resp t2 w2 Hn H1 Hx H2).
Qed.

End Present.
Section Failures.
Context {W : Type} {N : Network W} {L : Library}.

(** A failed request to a candidate provider is one of the fatal exchanges. *)
Lemma failure_fatal req msg :
  isCommunityRequest req = true \/ isMetadataRequest req = true \/ isSearchRequest req = true ->
  (isCommunityRequest req = true -> msg <> "404") ->
  fatal (req, Failure msg).
Proof.
  intros Hkind H404. cbn [fatal].
  destruct (isCommunityRequest req) eqn:Ec; [auto |].
  destruct Hkind as [H | [H | H]]; [discriminate H | |]; rewrite H;
    [reflexivity | apply orb_true_r].
Qed.

(** Without a candidate the resolver returns the empty result and sends
    nothing more. *)
Lemma getImageAlternatives_no_candidate game artStyle exts skipSteam key secret client
    skipGoogle onlyMissing sgdbOnly (w : W) v t w' :
  candidates game artStyle exts skipSteam key secret client skipGoogle onlyMissing
    sgdbOnly w = (Ret (Next v), t, w') ->
  v_url v = "" ->
  getImageAlternatives game artStyle exts skipSteam key secret client
    skipGoogle onlyMissing sgdbOnly w = (Ret (None, "", None), t, w').
Proof.
  intros H Hu. unfold getImageAlternatives. rewrite (bind_run _ _ _ _ _ _ H).
  cbv beta iota. rewrite (finalDownload_empty v w' Hu). rewrite app_nil_r. reflexivity.
Qed.

Lemma DownloadImage_empty gridDir game artStyle exts skipSteam key secret client
    skipGoogle onlyMissing sgdbOnly (w : W) from err t w' :
  getImageAlternatives game artStyle exts skipSteam key secret client
    skipGoogle onlyMissing sgdbOnly w = (Ret (None, from, err), t, w') ->
  DownloadImage gridDir game artStyle exts skipSteam key secret client
    skipGoogle onlyMissing sgdbOnly w = (Ret (game, ("", err)), t, w').
Proof.
  intros H. unfold DownloadImage. rewrite (bind_run _ _ _ _ _ _ H).
  cbn [ret]. rewrite app_nil_r. reflexivity.
Qed.

(** C4: a request to a candidate provider that fails (for the community
    database, with a message other than the "404" it uses itself) ends the
    attempt: [DownloadImage] returns an error and leaves the game as it was;
    the error is that of the request, except that the community database
    reports its own message for "401".  When the stages yield no candidate
    URL, the result is the empty one, without an error and without a
    request for the final download. *)
Theorem C4_failures gridDir game artStyle exts skipSteam key secret client
    skipGoogle onlyMissing sgdbOnly (w : W) r t w' :
  DownloadImage gridDir game artStyle exts skipSteam key secret client
    skipGoogle onlyMissing sgdbOnly w = (r, t, w') ->
  (forall req msg,
     In (req, Failure msg) t ->
     isCommunityRequest req = true \/ isMetadataRequest req = true
       \/ isSearchRequest req = true ->
     (isCommunityRequest req = true -> msg <> "404") ->
     exists e, r = Ret (game, ("", Some e)) /\
       ((isCommunityRequest req = true -> msg <> "401") -> e = msg)) /\
  (forall v tC wC,
     candidates game artStyle exts skipSteam key secret client skipGoogle onlyMissing
       sgdbOnly w = (Ret (Next v), tC, wC) ->
     v_url v = "" ->
     r = Ret (game, ("", None)) /\ t = tC /\ w' = wC).
Proof.
  intros Hrun. split.
  - intros req msg Hin Hkind H404.
    exact (DownloadImage_fatal gridDir game artStyle exts skipSteam key secret client
             skipGoogle onlyMissing sgdbOnly w r t w' Hrun _ Hin
             (failure_fatal req msg Hkind H404)).
  - intros v tC wC Hc Hu.
    pose proof (DownloadImage_empty gridDir _ _ _ _ _ _ _ _ _ _ _ _ _ _ _
                  (getImageAlternatives_no_candidate _ _ _ _ _ _ _ _ _ _ _ _ _ _ Hc Hu))
      as Hd.
    rewrite Hd in Hrun. inversion Hrun. auto.
Qed.

End Failures.
Section Custom.
Context {W : Type} {N : Network W} {L : Library}.

Lemma bind_first_event {A B : Type} (m : @M W A) (k : A -> @M W B) (w : W) ev :
  (exists r t' w', m w = (r, ev :: t', w')) ->
  exists r t' w', bind m k w = (r, ev :: t', w').
Proof.
  intros (r1 & t1 & w1 & H). unfold bind. rewrite H. destruct r1 as [a | msg].
  - destruct (k a w1) as [[r t2] w2]. exists r, (t1 ++ t2)%list, w2. reflexivity.
  - exists (Panic msg), t1, w1. reflexivity.
Qed.

Lemma bind_ret_first {A B : Type} (a : A) (k : A -> @M W B) (w : W) ev :
  (exists r t' w', k a w = (r, ev :: t', w')) ->
  exists r t' w', bind (ret a) k w = (r, ev :: t', w').
Proof. intros (r & t' & w' & H). rewrite bind_ret. eauto. Qed.

Lemma akamai_url_not_empty suffix id :
  fmt_Sprintf (akamaiURLFormat ++ suffix) [id] <> "".
Proof. unfold akamaiURLFormat. cbn. discriminate. Qed.

(** A download of a URL that can be requested is one exchange. *)
Lemma tryDownload_first url (w : W) :
  http_NewRequest "GET" url = None -> url <> "" ->
  exists reply r w1, tryDownload url w = (r, [(GET url [], reply)], w1).
Proof.
  intros Hnew Hurl. apply String.eqb_neq in Hurl.
  unfold tryDownload, http_Get. rewrite Hnew. unfold bind, client_Do.
  cbn [request_url]. rewrite Hurl.
  destruct (roundTrip (GET url []) w) as [reply w1]. exists reply.
  destruct reply as [response | e]; [| do 2 eexists; reflexivity].
  destruct (StatusCode response =? 404)%Z; [do 2 eexists; reflexivity |].
  destruct (400 <=? StatusCode response)%Z; do 2 eexists; reflexivity.
Qed.

(** The primary CDN is asked whenever neither flag forbids it, and its
    first request is the one of line 378. *)
Lemma getImageAlternatives_first game artStyle exts key secret client
    skipGoogle onlyMissing suffix (w : W) :
  nth_error exts 2 = Some suffix ->
  http_NewRequest "GET" (fmt_Sprintf (akamaiURLFormat ++ suffix) [ID game]) = None ->
  exists reply r t' w',
    getImageAlternatives game artStyle exts false key secret client
      skipGoogle onlyMissing false w
    = (r, (GET (fmt_Sprintf (akamaiURLFormat ++ suffix) [ID game]) [], reply) :: t', w').
Proof.
  intros Hn Hnew.
  destruct (tryDownload_first _ w Hnew (akamai_url_not_empty suffix (ID game)))
    as (reply & r0 & w0 & H0).
  exists reply.
  unfold getImageAlternatives, candidates, bindc.
  do 2 apply bind_first_event.
  unfold primaryCDN, index. cbn [negb andb]. rewrite Hn.
  apply bind_ret_first.
  cbv beta. apply bind_first_event. eauto.
Qed.

(** C5: a custom game is never looked up by its identifier in the community
    database.  The primary CDN is another matter: it is left out exactly
    when "skip steam" or "community database only" is set, and otherwise the
    first request of the resolution is the download from the primary CDN
    under the game's identifier, custom or not. *)
Theorem C5_custom_games game artStyle exts skipSteam key secret client
    skipGoogle onlyMissing sgdbOnly (w : W) r t w' :
  getImageAlternatives game artStyle exts skipSteam key secret client
    skipGoogle onlyMissing sgdbOnly w = (r, t, w') ->
  (Custom game = true -> forall ev, In ev t -> ~ byIdentifier game exts key (fst ev)) /\
  (skipSteam = true \/ sgdbOnly = true ->
   primaryCDN game exts skipSteam onlyMissing sgdbOnly "steam server" w
   = (Ret (Next (None, None)), [], w)) /\
  (skipSteam = false -> sgdbOnly = false ->
   forall suffix,
     nth_error exts 2 = Some suffix ->
     http_NewRequest "GET" (fmt_Sprintf (akamaiURLFormat ++ suffix) [ID game]) = None ->
     exists reply t',
       t = (GET (fmt_Sprintf (akamaiURLFormat ++ suffix) [ID game]) [], reply) :: t').
Proof.
  intros Hrun. split; [| split].
  - intros Hcustom.
    exact (getImageAlternatives_identifier game artStyle exts skipSteam key secret client
             skipGoogle onlyMissing sgdbOnly Hcustom w r t w' Hrun).
  - intros [-> | ->]; unfold primaryCDN; cbn [negb andb]; rewrite ?andb_false_r;
      reflexivity.
  - intros -> -> suffix Hn Hnew.
    destruct (getImageAlternatives_first game artStyle exts key secret client
                skipGoogle onlyMissing suffix w Hn Hnew) as (reply & r1 & t1 & w1 & H1).
    rewrite H1 in Hrun. inversion Hrun. eauto.
Qed.

End Custom.
Section Budget.
Context {W : Type} {N : Network W} {L : Library}.

(** C6: the requests of one resolution, in order: at most two downloads from
    the primary CDN; the lookup in the community database, which runs up to
    two turns of at most three requests each; at most four requests to the
    metadata database; at most one to web search; at most one final
    download.  Every stage but the community database runs once; at most
    thirteen requests are made in all. *)
Theorem C6_request_budget game artStyle exts skipSteam key secret client
    skipGoogle onlyMissing sgdbOnly (w : W) r t w' :
  getImageAlternatives game artStyle exts skipSteam key secret client
    skipGoogle onlyMissing sgdbOnly w = (r, t, w') ->
  (exists tP tS1 tS2 tI tG tF,
     t = (tP ++ (tS1 ++ tS2) ++ tI ++ tG ++ tF)%list /\
     traceOf isDownload 2 tP /\
     traceOf isCommunityRequest 3 tS1 /\ traceOf isCommunityRequest 3 tS2 /\
     traceOf isMetadataRequest 4 tI /\
     traceOf isSearchRequest 1 tG /\
     traceOf isDownload 1 tF) /\
  (length t <= 13)%nat.
Proof.
  intros Hrun.
  pose proof (getImageAlternatives_shape game artStyle exts skipSteam key secret client
                skipGoogle onlyMissing sgdbOnly w r t w' Hrun) as Hshape.
  unfold resolutionShape in Hshape. cbn [splits] in Hshape.
  destruct Hshape as (tP & r1 & -> & HP & tS & r2 & -> & (tS1 & tS2 & -> & HS1 & HS2)
                      & tI & r3 & -> & [HI HIs] & tG & r4 & -> & [HG HGs]
                      & tF & r5 & -> & HF & ->).
  rewrite app_nil_r. split.
  - exists tP, tS1, tS2, tI, tG, tF. repeat split; try assumption;
      first [ apply HP | apply HS1 | apply HS2 | apply HI | apply HG | apply HF ].
  - assert (Hone : (length tI + length tG <= 4)%nat).
    { destruct tI as [| i tI'].
      - destruct HG as [_ HG]. cbn [length]. lia.
      - destruct tG as [| g tG'].
        + destruct HI as [_ HI]. cbn [length] in *. lia.
        + assert (E1 : artStyle = "Cover") by (apply HIs; discriminate).
          assert (E2 : artStyle = "Banner") by (apply HGs; discriminate).
          rewrite E1 in E2. discriminate E2. }
    destruct HP as [_ HP], HS1 as [_ HS1], HS2 as [_ HS2], HF as [_ HF].
    rewrite !length_app. lia.
Qed.

End Budget.
Section Validation.
Context {W : Type} {N : Network W} {L : Library}.

(** What [DownloadImage] makes of a response of the resolver (lines 441-502). *)
Lemma DownloadImage_response gridDir game artStyle exts skipSteam key secret client
    skipGoogle onlyMissing sgdbOnly (w : W) response from t w' :
  getImageAlternatives game artStyle exts skipSteam key secret client
    skipGoogle onlyMissing sgdbOnly w = (Ret (Some response, from, None), t, w') ->
  DownloadImage gridDir game artStyle exts skipSteam key secret client
    skipGoogle onlyMissing sgdbOnly w =
  (match deriveExt (ContentType response) (filepath_Ext (RequestURLPath response)) with
   | None => Panic "index out of range"
   | Some ext =>
       match detectSize (ContentType response) (Body response) with
       | (_, Some e) => Ret (set_ImageExt game (rewriteExt ext), ("", Some e))
       | (imgSize, None) =>
           if wrongAspect artStyle imgSize
           then Ret (set_ImageExt game (rewriteExt ext), ("", None))
           else Ret (set_CleanImageBytes
                       (set_ImageSource (set_ImageExt game (rewriteExt ext)) from)
                       (Some (Body response)), (from, None))
       end
   end, t, w').
Proof.
  intros H. unfold DownloadImage. rewrite (bind_run _ _ _ _ _ _ H). cbv beta iota.
  destruct (deriveExt _ _) as [ext |]; [| unfold panic; rewrite app_nil_r; reflexivity].
  destruct (detectSize _ _) as [imgSize [e |]]; cbn [is_nil negb].
  - unfold ret. rewrite app_nil_r. reflexivity.
  - destruct (wrongAspect artStyle imgSize); unfold ret; rewrite app_nil_r; reflexivity.
Qed.

Lemma wrongAspect_spec artStyle width height :
  wrongAspect artStyle (width, height) = true <->
  (artStyle = "Banner" /\ width < height) \/ (artStyle = "Cover" /\ width > height).
Proof.
  unfold wrongAspect. cbn [fst snd].
  destruct (String.eqb_spec artStyle "Banner") as [-> | Hb]; cbn [andb].
  - destruct (Z.ltb_spec width height) as [Hlt | Hge].
    + split; auto.
    + cbn [String.eqb Ascii.eqb Bool.eqb andb]. split; [discriminate |].
      intros [[_ H] | [H _]]; [lia | discriminate H].
  - destruct (String.eqb_spec artStyle "Cover") as [-> | Hc]; cbn [andb].
    + destruct (Z.gtb_spec width height) as [Hgt | Hle].
      * split; [intros _; right; split; [reflexivity | lia] | reflexivity].
      * split; [discriminate |]. intros [[H _] | [_ H]]; [discriminate H | lia].
    + split; [discriminate |]. intros [[H _] | [H _]]; contradiction.
Qed.

(** C7: a response of the resolver whose image has the detected width and
    height is rejected, with the benign result (no label, no error), exactly
    when the style is Banner and the width is less than the height, or the
    style is Cover and the width is greater than the height; otherwise it is
    accepted, so for Hero and Logo whatever the size.  A WEBP whose header
    gives 600 by 900 is detected with these dimensions and accepted as a
    Cover. *)
Theorem C7_aspect_policy gridDir game artStyle exts skipSteam key secret client
    skipGoogle onlyMissing sgdbOnly (w : W) response from t w' ext width height :
  getImageAlternatives game artStyle exts skipSteam key secret client
    skipGoogle onlyMissing sgdbOnly w = (Ret (Some response, from, None), t, w') ->
  deriveExt (ContentType response) (filepath_Ext (RequestURLPath response)) = Some ext ->
  detectSize (ContentType response) (Body response) = ((width, height), None) ->
  ((artStyle = "Banner" /\ width < height) \/ (artStyle = "Cover" /\ width > height) ->
   DownloadImage gridDir game artStyle exts skipSteam key secret client
     skipGoogle onlyMissing sgdbOnly w
   = (Ret (set_ImageExt game (rewriteExt ext), ("", None)), t, w')) /\
  (~ ((artStyle = "Banner" /\ width < height) \/ (artStyle = "Cover" /\ width > height)) ->
   DownloadImage gridDir game artStyle exts skipSteam key secret client
     skipGoogle onlyMissing sgdbOnly w
   = (Ret (set_CleanImageBytes (set_ImageSource (set_ImageExt game (rewriteExt ext)) from)
             (Some (Body response)), (from, None)), t, w')) /\
  (artStyle = "Hero" \/ artStyle = "Logo" ->
   DownloadImage gridDir game artStyle exts skipSteam key secret client
     skipGoogle onlyMissing sgdbOnly w
   = (Ret (set_CleanImageBytes (set_ImageSource (set_ImageExt game (rewriteExt ext)) from)
             (Some (Body response)), (from, None)), t, w')) /\
  (artStyle = "Cover" ->
   strings_Contains (ContentType response) "webp" = true ->
   webpanimation_GetInfo (Body response) = Ok (600, 900) ->
   (width, height) = (600, 900) /\
   DownloadImage gridDir game artStyle exts skipSteam key secret client
     skipGoogle onlyMissing sgdbOnly w
   = (Ret (set_CleanImageBytes (set_ImageSource (set_ImageExt game (rewriteExt ext)) from)
             (Some (Body response)), (from, None)), t, w')).
Proof.
  intros Hrun Hext Hsize.
  pose proof (DownloadImage_response gridDir game artStyle exts skipSteam key secret
                client skipGoogle onlyMissing sgdbOnly w response from t w' Hrun) as Hd.
  rewrite Hext, Hsize in Hd.
  assert (Hrej : (artStyle = "Banner" /\ width < height) \/
                 (artStyle = "Cover" /\ width > height) ->
                 DownloadImage gridDir game artStyle exts skipSteam key secret client
                   skipGoogle onlyMissing sgdbOnly w
                 = (Ret (set_ImageExt game (rewriteExt ext), ("", None)), t, w')).
  { intros Hcase. apply wrongAspect_spec in Hcase. rewrite Hcase in Hd. exact Hd. }
  assert (Hacc : ~ ((artStyle = "Banner" /\ width < height) \/
                    (artStyle = "Cover" /\ width > height)) ->
                 DownloadImage gridDir game artStyle exts skipSteam key secret client
                   skipGoogle onlyMissing sgdbOnly w
                 = (Ret (set_CleanImageBytes
                           (set_ImageSource (set_ImageExt game (rewriteExt ext)) from)
                           (Some (Body response)), (from, None)), t, w')).
  { intros Hcase. destruct (wrongAspect artStyle (width, height)) eqn:E.
    - apply wrongAspect_spec in E. contradiction.
    - exact Hd. }
  split; [exact Hrej |]. split; [exact Hacc |]. split.
  - intros Hstyle. apply Hacc.
    intros [[E _] | [E _]]; destruct Hstyle as [E' | E']; rewrite E' in E; discriminate E.
  - intros Hstyle Hwebp Hinfo.
    unfold detectSize in Hsize. rewrite Hwebp, Hinfo in Hsize.
    inversion Hsize; subst. split; [reflexivity |].
    apply Hacc. intros [[E _] | [_ E]]; [discriminate E | lia].
Qed.


End Validation.
Section Malformed.
Context {W : Type} {N : Network W} {L : Library}.

(** C9: a reply of the community database whose body does not parse as the
    shape expected of it (a search result for the search by name, a listing
    of images for the other requests), and a token reply of the metadata
    database that does not parse, end the attempt with an error.  A reply of
    the metadata database to a query that does not parse as the shape
    expected of it (a list of games, a list of covers) does not: the attempt
    ends with the benign result, no label and no error. *)
Theorem C9_malformed_bodies gridDir game artStyle exts skipSteam key secret client
    skipGoogle onlyMissing sgdbOnly (w : W) r t w' :
  DownloadImage gridDir game artStyle exts skipSteam key secret client
    skipGoogle onlyMissing sgdbOnly w = (r, t, w') ->
  (forall req resp,
     In (req, Answer resp) t -> isCommunityRequest req = true -> unparsable req resp ->
     exists e, r = Ret (game, ("", Some e))) /\
  (forall req resp,
     In (req, Answer resp) t -> isTokenRequest req = true -> BodyErr resp = None ->
     (exists e, json_Unmarshal_token (Body resp) = Fail e) ->
     exists e, r = Ret (game, ("", Some e))) /\
  (forall ev, In ev t -> unparsableQuery ev -> r = Ret (game, ("", None))).
Proof.
  intros Hrun.
  pose proof (DownloadImage_fatal gridDir game artStyle exts skipSteam key secret client
                skipGoogle onlyMissing sgdbOnly w r t w' Hrun) as Hfatal.
  split; [| split].
  - intros req resp Hin Hc Hu.
    destruct (Hfatal _ Hin) as (e & He & _); [| eauto].
    cbn [fatal]. rewrite Hc. exact Hu.
  - intros req resp Hin Htok Hbody Hparse.
    destruct (Hfatal _ Hin) as (e & He & _); [| eauto].
    cbn [fatal].
    destruct req as [url hs | url [| h hs] body]; try discriminate Htok.
    cbn [isCommunityRequest]. auto.
  - exact (DownloadImage_query gridDir game artStyle exts skipSteam key secret client
             skipGoogle onlyMissing sgdbOnly w r t w' Hrun).
Qed.

End Malformed.
(** ** The claims on concrete runs *)

Import Examples.

Lemma C1_stage_gating_witness :
  getImageAlternatives (N := brokenImageHost) (L := exampleLibrary)
    halfLife2 "Banner" bannerExtensions true "K3Y" "" "" false false false tt
  = (Ret (None, "", None),
     [(bannerByIdentifier, listingReply); (GET gridOneURL [], serverError)], tt) /\
  exists tF,
    [(bannerByIdentifier, listingReply); (GET gridOneURL [], serverError)]
    = ([] ++ [(bannerByIdentifier, listingReply)] ++ tF)%list /\
    finalSegment tF /\
    finalDownload (N := brokenImageHost) (L := exampleLibrary)
      {| v_response := None; v_from := "SteamGridDB";
         v_err := None; v_url := gridOneURL |} tt
    = (Ret (None, "", None), tF, tt).
Proof.
  split; [reflexivity |].
  apply (proj2 (proj2 (C1_stage_gating (N := brokenImageHost) (L := exampleLibrary)
                         halfLife2 "Banner" bannerExtensions true "K3Y" "" ""
                         false false false tt _ _ _ eq_refl))
           ((None, None) : option Response * error) [] tt gridOneURL [(bannerByIdentifier, listingReply)] tt).
  - reflexivity.
  - discriminate.
  - reflexivity.
  - discriminate.
Defined.
Lemma C2_key_not_cleared_witness :
  DownloadImage (N := rejectsKey) (L := exampleLibrary) "grid" halfLife2 "Banner"
    bannerExtensions true "K3Y" "" "" true false false tt
  = (Ret (halfLife2, ("", Some " SteamGridDB authorization token is missing or invalid")),
     [(bannerByIdentifier, unauthorized)], tt) /\
  resolveStyle (N := rejectsKey) (L := exampleLibrary) (C := exampleCollaborators)
    communityFlags "grid" "K3Y" halfLife2 "Banner" bannerExtensions tt
  = (Ret ("K3Y", halfLife2), [(bannerByIdentifier, unauthorized)], tt).
Proof.
  apply (C2_key_not_cleared (N := rejectsKey) (L := exampleLibrary)
           (C := exampleCollaborators) communityFlags "grid" "K3Y" halfLife2 "Banner"
           bannerExtensions ".banner"
           "?styles=alternate&types=static&nsfw=false&humor=false&dimensions=460x215,920x430"
           tt (None, None) [] tt
           (response 401 "401 Unauthorized" "application/json" "" "") tt).
  - reflexivity.
  - reflexivity.
  - reflexivity.
  - discriminate.
  - reflexivity.
  - reflexivity.
  - reflexivity.
  - reflexivity.
  - reflexivity.
Defined.

(** The key is rejected for the banner, and offered again for the cover. *)
Lemma C2_batch_retries :
  forGames (N := rejectsKey) (L := exampleLibrary) (C := exampleCollaborators)
    communityFlags "grid" "K3Y" [halfLife2]
    [("Banner", bannerExtensions); ("Cover", coverExtensions)] tt
  = (Ret ("K3Y", [halfLife2]),
     [(bannerByIdentifier, unauthorized); (coverByIdentifier, unauthorized)], tt).
Proof. reflexivity. Qed.

Lemma C3_present_is_empty_witness :
  nth_error bannerExtensions 2 = Some "header.jpg" /\
  getImageAlternatives (N := cdnHasBanner) (L := exampleLibrary)
    halfLife2 "Banner" bannerExtensions false "" "" "" true true false tt
  = (Ret (None, "", None), [(GET bannerOnCDN [], bannerReply)], tt).
Proof.
  split; [reflexivity |].
  apply (proj1 (C3_present_is_empty (N := cdnHasBanner) (L := exampleLibrary)
                  halfLife2 "Banner" bannerExtensions "" "" "" true "header.jpg" tt
                  eq_refl)
           (response 200 "200 OK" "image/png" "/steam/apps/220/header.jpg" png460x215)).
  reflexivity.
Defined.

(** The banner is on the primary CDN in the first run and nowhere in the
    second: the resolver returns the same value. *)
Lemma C3_present_like_absent :
  getImageAlternatives (N := cdnHasBanner) (L := exampleLibrary)
    halfLife2 "Banner" bannerExtensions false "" "" "" true true false tt
  = (Ret (None, "", None), [(GET bannerOnCDN [], bannerReply)], tt) /\
  getImageAlternatives (N := nothingAnywhere) (L := exampleLibrary)
    halfLife2 "Banner" bannerExtensions false "" "" "" true true false tt
  = (Ret (None, "", None),
     [(GET bannerOnCDN [], notFound);
      (GET bannerOnSteamCDN [], Failure unsupported_scheme)], tt).
Proof. split; reflexivity. Qed.

Lemma C4_failures_witness :
  DownloadImage (N := communityDown) (L := exampleLibrary) "grid" halfLife2 "Banner"
    bannerExtensions true "K3Y" "" "" true false false tt
  = (Ret (halfLife2, ("", Some connectionRefused)),
     [(bannerByIdentifier, Failure connectionRefused)], tt) /\
  exists e,
    Ret (halfLife2, ("", Some connectionRefused)) = Ret (halfLife2, ("", Some e)) /\
    ((isCommunityRequest bannerByIdentifier = true -> connectionRefused <> "401") ->
     e = connectionRefused).
Proof.
  split; [reflexivity |].
  apply (proj1 (C4_failures (N := communityDown) (L := exampleLibrary) "grid" halfLife2
                  "Banner" bannerExtensions true "K3Y" "" "" true false false tt _ _ _
                  eq_refl)
           bannerByIdentifier connectionRefused).
  - left. reflexivity.
  - left. reflexivity.
  - intros _. discriminate.
Defined.

(** The community database answers 500 in the first run, and the host of
    the image it lists answers 500 in the second: no error is returned. *)
Lemma C4_server_errors_dropped :
  DownloadImage (N := failingListing) (L := exampleLibrary) "grid" halfLife2 "Banner"
    bannerExtensions true "K3Y" "" "" true false false tt
  = (Ret (halfLife2, ("", None)),
     [(bannerByIdentifier, errorReply); (bannerByIdentifier, errorReply)], tt) /\
  DownloadImage (N := brokenImageHost) (L := exampleLibrary) "grid" halfLife2 "Banner"
    bannerExtensions true "K3Y" "" "" true false false tt
  = (Ret (halfLife2, ("", None)),
     [(bannerByIdentifier, listingReply); (GET gridOneURL [], serverError)], tt).
Proof. split; reflexivity. Qed.

Lemma C5_custom_games_witness :
  getImageAlternatives (N := nothingAnywhere) (L := exampleLibrary)
    emulator "Banner" bannerExtensions false "" "" "" true false false tt
  = (Ret (None, "", None),
     [(GET "https://steamcdn-a.akamaihd.net/steam/apps/3405713804/header.jpg" [], notFound);
      (GET "cdn.akamai.steamstatic.com/steam/apps/3405713804/header.jpg" [],
       Failure unsupported_scheme)], tt) /\
  exists reply t',
    [(GET "https://steamcdn-a.akamaihd.net/steam/apps/3405713804/header.jpg" [], notFound);
     (GET "cdn.akamai.steamstatic.com/steam/apps/3405713804/header.jpg" [],
      Failure unsupported_scheme)]
    = (GET (fmt_Sprintf (akamaiURLFormat ++ "header.jpg") [ID emulator]) [], reply) :: t'.
Proof.
  split; [reflexivity |].
  apply (proj2 (proj2 (C5_custom_games (N := nothingAnywhere) (L := exampleLibrary)
                         emulator "Banner" bannerExtensions false "" "" "" true false
                         false tt _ _ _ eq_refl))
           eq_refl eq_refl "header.jpg"); reflexivity.
Defined.

(** A custom game: the first request goes to the primary CDN, with the
    identifier of the shortcut. *)
Lemma C5_custom_on_primary_CDN :
  Custom emulator = true /\
  getImageAlternatives (N := nothingAnywhere) (L := exampleLibrary)
    emulator "Banner" bannerExtensions false "" "" "" true false false tt
  = (Ret (None, "", None),
     [(GET "https://steamcdn-a.akamaihd.net/steam/apps/3405713804/header.jpg" [], notFound);
      (GET "cdn.akamai.steamstatic.com/steam/apps/3405713804/header.jpg" [],
       Failure unsupported_scheme)], tt).
Proof. split; reflexivity. Qed.

Lemma C6_request_budget_witness :
  getImageAlternatives (N := emptyListing) (L := exampleLibrary)
    halfLife2 "Banner" bannerExtensions true "K3Y" "" "" true false false tt
  = (Ret (None, "", None),
     [(bannerByIdentifier, emptyReply); (bannerByIdentifier, emptyReply)], tt) /\
  (length [(bannerByIdentifier, emptyReply); (bannerByIdentifier, emptyReply)] <= 13)%nat.
Proof.
  split; [reflexivity |].
  exact (proj2 (C6_request_budget (N := emptyListing) (L := exampleLibrary)
                  halfLife2 "Banner" bannerExtensions true "K3Y" "" "" true false false
                  tt _ _ _ eq_refl)).
Defined.

(** The listing is empty: the same request is sent a second time. *)
Lemma C6_lookup_repeated :
  getImageAlternatives (N := emptyListing) (L := exampleLibrary)
    halfLife2 "Banner" bannerExtensions true "K3Y" "" "" true false false tt
  = (Ret (None, "", None),
     [(bannerByIdentifier, emptyReply); (bannerByIdentifier, emptyReply)], tt) /\
  ~ NoDup (requests [(bannerByIdentifier, emptyReply); (bannerByIdentifier, emptyReply)]).
Proof.
  split; [reflexivity |].
  intros H. inversion H as [| x l Hnotin _]. apply Hnotin. left. reflexivity.
Qed.

Lemma C7_aspect_policy_witness :
  getImageAlternatives (N := cdnHasWebpCover) (L := exampleLibrary)
    halfLife2 "Cover" coverExtensions false "" "" "" true false false tt
  = (Ret (Some webpResponse, "steam server", None), [(GET coverOnCDN [], webpReply)], tt) /\
  deriveExt (ContentType webpResponse) (filepath_Ext (RequestURLPath webpResponse))
  = Some ".webp" /\
  detectSize (L := exampleLibrary) (ContentType webpResponse) (Body webpResponse)
  = ((600, 900), None) /\
  (600, 900) = (600, 900) /\
  DownloadImage (N := cdnHasWebpCover) (L := exampleLibrary) "grid" halfLife2 "Cover"
    coverExtensions false "" "" "" true false false tt
  = (Ret (set_CleanImageBytes
            (set_ImageSource (set_ImageExt halfLife2 (rewriteExt ".webp")) "steam server")
            (Some (Body webpResponse)), ("steam server", None)),
     [(GET coverOnCDN [], webpReply)], tt).
Proof.
  split; [reflexivity |]. split; [reflexivity |]. split; [reflexivity |].
  apply (proj2 (proj2 (proj2
           (C7_aspect_policy (N := cdnHasWebpCover) (L := exampleLibrary) "grid"
              halfLife2 "Cover" coverExtensions false "" "" "" true false false tt
              webpResponse "steam server" _ tt ".webp" 600 900
              eq_refl eq_refl eq_refl)))); reflexivity.
Defined.



Lemma C9_malformed_bodies_witness :
  DownloadImage (N := mislabelledListing) (L := exampleLibrary) "grid" halfLife2 "Banner"
    bannerExtensions true "K3Y" "" "" true false false tt
  = (Ret (halfLife2, ("", Some tagsError)), [(bannerByIdentifier, tagsReply)], tt) /\
  (exists found,
     json_Unmarshal_steamGridDBSearchResponse (Library := exampleLibrary) tagsJSON
     = Ok found) /\
  exists e, Ret (halfLife2, ("", Some tagsError)) = Ret (halfLife2, ("", Some e)).
Proof.
  split; [reflexivity |]. split; [eexists; reflexivity |].
  apply (proj1 (C9_malformed_bodies (N := mislabelledListing) (L := exampleLibrary)
                  "grid" halfLife2 "Banner" bannerExtensions true "K3Y" "" ""
                  true false false tt _ _ _ eq_refl)
           bannerByIdentifier
           (response 200 "200 OK" "application/json" "" tagsJSON)).
  - left. reflexivity.
  - reflexivity.
  - split; [discriminate |]. split; [discriminate |]. split; [reflexivity |].
    eexists. reflexivity.
Defined.

(** The metadata database answers the query for the game with a page that
    is no JSON: the attempt ends without an error. *)
Lemma C9_malformed_reply_is_benign :
  DownloadImage (N := brokenMetadata) (L := exampleLibrary) "grid" halfLife2 "Cover"
    coverExtensions true "" "secret" "client" true false false tt
  = (Ret (halfLife2, ("", None)),
     [(POST (igdbTokenURL "secret" "client") []
            (fmt_Sprintf igdbGameBody ["Half-Life 2"]), tokenReply);
      (POST igdbGameURL
            [("Client-ID", "client"); ("Authorization", "Bearer tok");
             ("Accept", "application/json")]
            (fmt_Sprintf igdbGameBody ["Half-Life 2"]), pageReply)], tt) /\
  (exists e, json_Unmarshal_igdbGames (Library := exampleLibrary) notJSON = Fail e).
Proof. split; [reflexivity | eexists; reflexivity]. Qed.

(** C10: when [DownloadImage] returns without a label or with an error, the
    image bytes and the source label of the game are those it had on entry.
    The extension is another matter: there is a run in which the image is
    rejected and the extension of the game has changed. *)
Theorem C10_frame :
  (forall (W : Type) (N : Network W) (L : Library) gridDir game artStyle exts skipSteam
          key secret client skipGoogle onlyMissing sgdbOnly (w : W) game' from err t w',
     DownloadImage gridDir game artStyle exts skipSteam key secret client
       skipGoogle onlyMissing sgdbOnly w = (Ret (game', (from, err)), t, w') ->
     from = "" \/ err <> None ->
     CleanImageBytes game' = CleanImageBytes game /\
     ImageSource game' = ImageSource game) /\
  (exists game' t,
     DownloadImage (N := uprightBanner) (L := exampleLibrary) "grid" halfLife2 "Banner"
       bannerExtensions false "" "" "" true false false tt
     = (Ret (game', ("", None)), t, tt) /\
     ImageExt game' <> ImageExt halfLife2).
Proof.
  split.
  - intros W N L gridDir game artStyle exts skipSteam key secret client skipGoogle
      onlyMissing sgdbOnly w game' from err t w' Hrun Hcase.
    exact (DownloadImage_frame gridDir game artStyle exts skipSteam key secret client
             skipGoogle onlyMissing sgdbOnly w _ t w' Hrun game' from err eq_refl Hcase).
  - exists (set_ImageExt halfLife2 ".png"), [(GET bannerOnCDN [], uprightReply)].
    split; [reflexivity | discriminate].
Qed.

Lemma C10_frame_witness :
  DownloadImage (N := uprightBanner) (L := exampleLibrary) "grid" halfLife2 "Banner"
    bannerExtensions false "" "" "" true false false tt
  = (Ret (set_ImageExt halfLife2 ".png", ("", None)),
     [(GET bannerOnCDN [], uprightReply)], tt) /\
  CleanImageBytes (set_ImageExt halfLife2 ".png") = CleanImageBytes halfLife2 /\
  ImageSource (set_ImageExt halfLife2 ".png") = ImageSource halfLife2.
Proof.
  split; [reflexivity |].
  apply (proj1 C10_frame unit uprightBanner exampleLibrary "grid" halfLife2 "Banner"
           bannerExtensions false "" "" "" true false false tt
           (set_ImageExt halfLife2 ".png") "" None
           [(GET bannerOnCDN [], uprightReply)] tt).
  - reflexivity.
  - left. reflexivity.
Defined.
(** ** Invariants of the trace *)

Section Always.
Context {W : Type} {N : Network W} {L : Library}.

Lemma always_ret {A : Type} (P : event -> Prop) (a : A) : post (W := W) (ret a) (always P).
Proof. apply post_ret. constructor. Qed.

Lemma always_panic {A : Type} (P : event -> Prop) msg :
  post (W := W) (panic (A := A) msg) (always P).
Proof. apply post_panic. constructor. Qed.

Lemma always_index {A : Type} (P : event -> Prop) (l : list A) i :
  post (W := W) (index l i) (always P).
Proof. apply post_index; intros; constructor. Qed.

Lemma always_bind {A B : Type} (P : event -> Prop) (m : @M W A) (k : A -> @M W B) :
  post m (always P) -> (forall a, post (k a) (always P)) -> post (bind m k) (always P).
Proof.
  intros Hm Hk. apply post_bind. eapply post_conseq; [exact Hm |].
  intros [a | msg] t1 H1; cbv beta iota; [| exact H1].
  eapply post_conseq; [apply Hk |]. intros r t2 H2. apply Forall_app. split; assumption.
Qed.

Lemma always_client_Do (P : event -> Prop) req :
  (request_url req <> "" -> forall reply, P (req, reply)) ->
  post (client_Do req) (always P).
Proof.
  intros H. apply post_client_Do.
  - intros _. constructor.
  - intros Hu reply. constructor; [auto | constructor].
Qed.

Lemma always_bind_index {A B : Type} (P : event -> Prop) (l : list A) i (k : A -> @M W B) :
  (forall a, nth_error l i = Some a -> post (k a) (always P)) ->
  post (bind (index l i) k) (always P).
Proof.
  intros Hk. unfold index. destruct (nth_error l i) as [a |] eqn:E; apply post_bind.
  - apply post_ret. cbv beta iota.
    eapply post_conseq; [exact (Hk a eq_refl) |]. intros r t H. exact H.
  - apply post_panic. constructor.
Qed.

Lemma always_conseq {A : Type} (P Q : event -> Prop) (m : @M W A) :
  post m (always P) -> (forall ev, P ev -> Q ev) -> post m (always Q).
Proof.
  intros Hm HPQ. eapply post_conseq; [exact Hm |].
  intros r t H. unfold always in *. eapply Forall_impl; [| exact H]. exact HPQ.
Qed.

End Always.

Ltac always_step :=
  lazymatch goal with
  | |- post (bind (index _ _) _) (always _) => apply always_bind_index; intros ? ?
  | |- post (bind _ _) (always _) => apply always_bind; [| intros ?]
  | |- post (bindc _ _) (always _) => unfold bindc at 1
  | |- post (ret _) (always _) => apply always_ret
  | |- post (panic _) (always _) => apply always_panic
  | |- post (index _ _) (always _) => apply always_index
  | |- post (client_Do _) (always _) => apply always_client_Do; intros ? ?
  | |- post (if ?b then _ else _) (always _) => destruct b eqn:?
  | |- post (match ?x with _ => _ end) (always _) => destruct x eqn:?
  | |- post (let '(_, _) := ?x in _) (always _) => destruct x eqn:?
  end.

Section OwnRequests.
Context {W : Type} {N : Network W} {L : Library}.
Variables key secret client : string.


Lemma own_download url : post (tryDownload url) (always (ownExchange key secret client)).
Proof.
  unfold tryDownload, http_Get.
  repeat always_step; cbn; auto.
Qed.

Lemma own_community url :
  String.prefix steamGridDBBaseURL url = true ->
  post (steamGridDBGetRequest url key) (always (ownExchange key secret client)).
Proof.
  intros Hp. unfold steamGridDBGetRequest.
  repeat always_step; cbn; auto.
Qed.

Lemma search_url_prefix name filter :
  String.prefix steamGridDBBaseURL
    (steamGridDBBaseURL ++ "/search/autocomplete/" ++ name ++ filter) = true.
Proof. apply prefix_app. Qed.

Lemma sgdbBaseURL_prefix nameExt rest :
  sgdbBaseURL nameExt <> "" ->
  String.prefix steamGridDBBaseURL (sgdbBaseURL nameExt ++ rest) = true.
Proof.
  intros Hne.
  destruct (sgdbBaseURL_cases nameExt) as [E | [E | [E | E]]]; rewrite E in *;
    [reflexivity | reflexivity | reflexivity | contradiction].
Qed.

Lemma own_sgdbPass game exts :
  (forall nameExt, nth_error exts 1 = Some nameExt -> sgdbBaseURL nameExt <> "") ->
  post (sgdbPass game exts key) (always (ownExchange key secret client)).
Proof.
  intros Hbase. unfold sgdbPass, sgdbSearchByName, sgdbSelect.
  repeat first
    [ lazymatch goal with
      | |- post (steamGridDBGetRequest _ _) (always _) =>
          apply own_community;
          first [ apply search_url_prefix | apply sgdbBaseURL_prefix; auto ]
      end
    | always_step ].
Qed.

Lemma own_getSteamGridDBImage game exts :
  (forall nameExt, nth_error exts 1 = Some nameExt -> sgdbBaseURL nameExt <> "") ->
  post (getSteamGridDBImage game exts key) (always (ownExchange key secret client)).
Proof.
  intros Hbase. unfold getSteamGridDBImage. cbn [sgdbLoop].
  repeat first [ apply own_sgdbPass; exact Hbase | always_step ].
Qed.

Lemma own_igdbPostRequest url body :
  url = igdbGameURL \/ url = igdbCoverURL ->
  post (igdbPostRequest url body secret client) (always (ownExchange key secret client)).
Proof.
  intros Hurl. unfold igdbPostRequest.
  repeat always_step; cbn; eauto.
Qed.

Lemma own_getIGDBImage name : post (getIGDBImage name secret client) (always (ownExchange key secret client)).
Proof.
  unfold getIGDBImage.
  repeat first [ apply own_igdbPostRequest; auto | always_step ].
Qed.

Lemma googleSearch_url :
  fmt_Sprintf googleSearchFormat [strconv_Itoa 460; strconv_Itoa 215]
  = "https://www.google.com.br/search?tbs=isz%3Aex%2Ciszw%3A460%2Ciszh%3A215&tbm=isch&num=5&q=".
Proof. reflexivity. Qed.

Lemma own_googleScan patterns body : post (W := W) (googleScan patterns body) (always (ownExchange key secret client)).
Proof.
  induction patterns as [| p ps IH]; cbn [googleScan].
  - apply always_ret.
  - repeat always_step. exact IH.
Qed.

Lemma own_getGoogleImage name exts : post (getGoogleImage name exts) (always (ownExchange key secret client)).
Proof.
  unfold getGoogleImage. rewrite googleSearch_url.
  repeat first [ apply own_googleScan | always_step ].
  cbn. right. right. split; reflexivity.
Qed.

(** X1: Every request of a resolution has one of the forms of [ownRequest]: the
    key goes to the community database alone, as the bearer of a GET under
    its base URL; the secret goes in the URL of the token exchange alone; a
    download carries no header. *)
Theorem getImageAlternatives_requests game artStyle exts skipSteam
    skipGoogle onlyMissing sgdbOnly (w : W) r t w' :
  (forall nameExt, nth_error exts 1 = Some nameExt -> sgdbBaseURL nameExt <> "") ->
  getImageAlternatives game artStyle exts skipSteam key secret client
    skipGoogle onlyMissing sgdbOnly w = (r, t, w') ->
  forall req reply, In (req, reply) t -> ownRequest key secret client req.
Proof.
  intros Hbase Hrun req reply Hin.
  assert (H : post (getImageAlternatives game artStyle exts skipSteam key secret client
                      skipGoogle onlyMissing sgdbOnly) (always (ownExchange key secret client))).
  { unfold getImageAlternatives, candidates, primaryCDN, communityStage, metadataStage,
      searchStage, finalDownload.
    repeat first
      [ apply own_download | apply own_getSteamGridDBImage; exact Hbase
      | apply own_getIGDBImage | apply own_getGoogleImage | always_step ]. }
  exact (proj1 (Forall_forall _ _) (H w r t w' Hrun) (req, reply) Hin).
Qed.

End OwnRequests.
Section EmptyKey.
Context {W : Type} {N : Network W} {L : Library} {C : Collaborators}.

Lemma quiet_download url : post (tryDownload url) (always notCommunity).
Proof. unfold tryDownload, http_Get. repeat always_step; reflexivity. Qed.

Lemma quiet_getIGDBImage name secret client :
  post (getIGDBImage name secret client) (always notCommunity).
Proof. unfold getIGDBImage, igdbPostRequest. repeat always_step; reflexivity. Qed.

Lemma quiet_googleScan patterns body :
  post (W := W) (googleScan patterns body) (always notCommunity).
Proof.
  induction patterns as [| p ps IH]; cbn [googleScan].
  - apply always_ret.
  - repeat always_step. exact IH.
Qed.

Lemma quiet_getGoogleImage name exts : post (getGoogleImage name exts) (always notCommunity).
Proof.
  unfold getGoogleImage.
  repeat first [ apply quiet_googleScan | always_step ]; reflexivity.
Qed.

Lemma quiet_getImageAlternatives game artStyle exts skipSteam secret client
    skipGoogle onlyMissing sgdbOnly :
  post (getImageAlternatives game artStyle exts skipSteam "" secret client
          skipGoogle onlyMissing sgdbOnly) (always notCommunity).
Proof.
  unfold getImageAlternatives, candidates, primaryCDN, communityStage, metadataStage,
    searchStage, finalDownload.
  cbn [String.eqb negb andb].
  repeat first
    [ apply quiet_download | apply quiet_getIGDBImage | apply quiet_getGoogleImage
    | always_step ].
Qed.

Lemma quiet_DownloadImage gridDir game artStyle exts skipSteam secret client
    skipGoogle onlyMissing sgdbOnly :
  post (DownloadImage gridDir game artStyle exts skipSteam "" secret client
          skipGoogle onlyMissing sgdbOnly) (always notCommunity).
Proof.
  unfold DownloadImage.
  repeat first [ apply quiet_getImageAlternatives | always_step ].
Qed.

Lemma quiet_getGameName gameID : post (getGameName gameID) (always notCommunity).
Proof. unfold getGameName. repeat first [ apply quiet_download | always_step ]. Qed.

Lemma keyPost_resolveStyle flags gridDir key game artStyle exts :
  post (resolveStyle flags gridDir key game artStyle exts) (keyPost key).
Proof.
  unfold resolveStyle.
  destruct (ImageSource _ =? "").
  - apply post_bind. intros w r t w' Hrun.
    destruct r as [[game' [from err]] | msg].
    + destruct (err_is err _); apply post_ret; rewrite app_nil_r; split.
      * intros k a E. inversion E. auto.
      * intros ->. exact (quiet_DownloadImage _ _ _ _ _ _ _ _ _ _ w _ t w' Hrun).
      * intros k a E. inversion E. auto.
      * intros ->. exact (quiet_DownloadImage _ _ _ _ _ _ _ _ _ _ w _ t w' Hrun).
    + split; [discriminate |].
      intros ->. exact (quiet_DownloadImage _ _ _ _ _ _ _ _ _ _ w _ t w' Hrun).
  - apply post_ret. split; [| constructor]. intros k a E. inversion E. auto.
Qed.

Lemma keyPost_bind {A B : Type} key (m : @M W (string * A))
    (k : string * A -> @M W (string * B)) :
  post m (keyPost key) ->
  (forall key' a, key' = key \/ key' = "" -> post (k (key', a)) (keyPost key')) ->
  post (bind m k) (keyPost key).
Proof.
  intros Hm Hk. apply post_bind. eapply post_conseq; [exact Hm |].
  intros [[key' a] | msg] t1 [Hkey Hquiet]; cbv beta iota.
  - destruct (Hkey key' a eq_refl) as [-> | ->].
    + eapply post_conseq; [apply Hk; auto |].
      intros r t2 [Hkey2 Hquiet2]. split; [exact Hkey2 |].
      intros E. apply Forall_app. auto.
    + eapply post_conseq; [apply Hk; auto |].
      intros r t2 [Hkey2 Hquiet2]. split.
      * intros k' b E. destruct (Hkey2 k' b E); auto.
      * intros E. apply Forall_app. split; [auto | apply Hquiet2; reflexivity].
  - split; [discriminate | exact Hquiet].
Qed.

Lemma keyPost_forStyles flags gridDir key game artStyles :
  post (forStyles flags gridDir key game artStyles) (keyPost key).
Proof.
  revert key game. induction artStyles as [| [artStyle exts] rest IH]; intros key game;
    cbn [forStyles].
  - apply post_ret. split; [| constructor]. intros k a E. inversion E. auto.
  - apply keyPost_bind; [apply keyPost_resolveStyle |].
    intros key' game' _. apply IH.
Qed.

Lemma keyPost_forGames flags gridDir key games artStyles :
  post (forGames flags gridDir key games artStyles) (keyPost key).
Proof.
  revert key. induction games as [| game rest IH]; intros key; cbn [forGames].
  - apply post_ret. split; [| constructor]. intros k a E. inversion E. auto.
  - apply post_bind.
    assert (Hname : post (if Name game =? ""
                          then bind (getGameName (ID game))
                                    (fun name => ret (set_Name game name))
                          else ret game) (always notCommunity)).
    { repeat first [ apply quiet_getGameName | always_step ]. }
    eapply post_conseq; [exact Hname |].
    intros [game1 | msg] t1 H1; cbv beta iota.
    + assert (Hrest : post (bind (forStyles flags gridDir key game1 artStyles)
                              (fun x => match x with
                                        | (key1, game2) =>
                                            bind (forGames flags gridDir key1 rest artStyles)
                                              (fun y => match y with
                                                        | (key2, rest') =>
                                                            ret (key2, game2 :: rest')
                                                        end)
                                        end)) (keyPost key)).
      { apply keyPost_bind; [apply keyPost_forStyles |].
        intros key1 game2 _.
        apply keyPost_bind; [apply IH |].
        intros key2 rest' _. apply post_ret. split; [| constructor].
        intros k a E. inversion E. auto. }
      eapply post_conseq; [exact Hrest |].
      intros r t2 [Hkey Hquiet]. split; [exact Hkey |].
      intros E. apply Forall_app. auto.
    + split; [discriminate | intros _; exact H1].
Qed.

(** X2: The key of a batch is never replaced by another: the run ends with the
    key it was given or with the empty one; and a batch that starts without
    a key sends no request to the community database, for any game or
    style. *)
Theorem forGames_key flags gridDir key games artStyles (w : W) r t w' :
  forGames flags gridDir key games artStyles w = (r, t, w') ->
  (forall key' games', r = Ret (key', games') -> key' = key \/ key' = "") /\
  (key = "" -> forall ev, In ev t -> isCommunityRequest (fst ev) = false).
Proof.
  intros Hrun.
  destruct (keyPost_forGames flags gridDir key games artStyles w r t w' Hrun)
    as [Hkey Hquiet].
  split; [exact Hkey |].
  intros E ev Hin. exact (proj1 (Forall_forall _ _) (Hquiet E) ev Hin).
Qed.

End EmptyKey.
(** ** Where an image comes from *)

Section Provenance.
Context {W : Type} {N : Network W} {L : Library}.

Lemma tryDownload_found url :
  post (tryDownload url)
    (fun r t => exists response err, r = Ret (response, err) /\
       forall resp, response = Some resp ->
         err = None /\ t = [(GET url [], Answer resp)] /\ url <> "" /\
         StatusCode resp < 400 /\ StatusCode resp <> 404).
Proof.
  unfold tryDownload, http_Get.
  wp; do 2 eexists; (split; [reflexivity |]); intros resp E; inversion E; subst.
  all: try match goal with H : Answer _ = Failure _ |- _ => discriminate H end.
  all: try match goal with H : Failure _ = Answer _ |- _ => discriminate H end.
  all: repeat match goal with
         | H : (_ =? _)%Z = false |- _ => apply Z.eqb_neq in H
         | H : (_ <=? _)%Z = false |- _ => apply Z.leb_gt in H
         end.
  all: repeat split; auto.
Qed.

Lemma downloaded_single url resp :
  StatusCode resp < 400 -> StatusCode resp <> 404 ->
  downloaded resp [(GET url [], Answer resp)].
Proof. intros H1 H2. exists [], url. auto. Qed.

Lemma downloaded_app resp (t1 t2 : list event) :
  downloaded resp t2 -> downloaded resp (t1 ++ t2).
Proof.
  intros (t0 & url & -> & H). exists (t1 ++ t0)%list, url.
  rewrite app_assoc. auto.
Qed.

Lemma primaryCDN_found game exts skipSteam onlyMissing sgdbOnly from :
  post (primaryCDN game exts skipSteam onlyMissing sgdbOnly from)
    (fun c t =>
       (forall x, c = Ret (Return x) ->
          x = (None, "", None) \/
          exists resp, x = (Some resp, from, None) /\ downloaded resp t /\
            skipSteam = false /\ sgdbOnly = false /\ onlyMissing = false) /\
       (forall p, c = Ret (Next p) -> fst p = None)).
Proof.
  unfold primaryCDN.
  repeat first
    [ lazymatch goal with
      | |- post (bind (tryDownload _) _) _ =>
          apply post_bind; eapply post_conseq; [apply tryDownload_found |];
          let H := fresh "Hfound" in
          intros ? ? (? & ? & -> & H); cbv beta iota
      end
    | wp_step ].
  all: (split; [intros res0 Er | intros p0 Er]); inversion Er; subst; auto.
  all: guard_facts.
  all: repeat match goal with
         | x : option Response |- _ => destruct x; try discriminate
         | x : error |- _ => destruct x; try discriminate
         end.
  all: repeat match goal with
         | H : forall resp, Some ?r = Some resp -> _ |- _ =>
             destruct (H r eq_refl) as (? & -> & _ & ? & ?); clear H
         end.
  all: try discriminate.
  all: try reflexivity.
  all: right; eexists; split; [reflexivity |].
  all: rewrite ?app_nil_r; cbn [app].
  all: split; [| auto].
  all: first [ apply downloaded_single; assumption
             | apply downloaded_app; apply downloaded_single; assumption
             | apply (downloaded_app _ [_]); apply downloaded_single; assumption ].
Qed.

Lemma finalDownload_found v :
  post (finalDownload v)
    (fun r t => r = Ret (None, "", None) \/
       exists resp, r = Ret (Some resp, v_from v, None) /\ downloaded resp t /\
         v_url v <> "").
Proof.
  unfold finalDownload.
  apply post_bind. eapply post_conseq; [apply tryDownload_found |].
  intros r t (response & err & -> & Hfound). cbv beta iota.
  destruct response as [resp |].
  - destruct (Hfound resp eq_refl) as (-> & -> & Hurl & H400 & H404).
    cbn [is_nil negb andb]. apply post_ret. right. exists resp.
    split; [reflexivity |]. split; [| exact Hurl].
    rewrite app_nil_r. apply downloaded_single; assumption.
  - rewrite andb_false_r. apply post_ret. left. reflexivity.
Qed.

Lemma stageOf_cases guard label (provider : @M W (string * error)) v :
  post (stageOf guard label provider v) (stageCases guard label v).
Proof.
  eapply post_conseq;
    [ apply (stageOf_post guard label provider (fun _ _ => True) v);
      intros w r t w' _; exact I |].
  intros c t [(G & -> & ->) | (G & r & _ & ->)]; [left; auto |].
  right. split; [exact G |].
  destruct r as [[url [e |]] | msg]; cbn [stageResult is_nil negb]; eauto.
Qed.

Lemma communityStage_cases game exts key v :
  post (communityStage game exts key v)
    (stageCases (negb (key =? "") && (v_url v =? "")) "SteamGridDB" v).
Proof. apply (stageOf_cases _ _ (getSteamGridDBImage game exts key) v). Qed.

Lemma metadataStage_cases game artStyle secret client sgdbOnly v :
  post (metadataStage game artStyle secret client sgdbOnly v)
    (stageCases ((artStyle =? "Cover") && negb (client =? "") && negb (secret =? "")
                 && (v_url v =? "") && negb sgdbOnly) "IGDB" v).
Proof. apply (stageOf_cases _ _ (getIGDBImage (Name game) secret client) v). Qed.

Lemma searchStage_cases game artStyle exts skipGoogle sgdbOnly v :
  post (searchStage game artStyle exts skipGoogle sgdbOnly v)
    (stageCases (negb skipGoogle && (artStyle =? "Banner") && (v_url v =? "")
                 && negb sgdbOnly) "search" v).
Proof. apply (stageOf_cases _ _ (getGoogleImage (Name game) exts) v). Qed.

End Provenance.

Ltac stage_cases lemma :=
  eapply post_conseq; [apply lemma |];
  let c := fresh "c" in
  let Hs := fresh "Hstage" in
  let G := fresh "G" in
  intros c ? Hs;
  destruct Hs as [(G & -> & ->) | (G & [(? & ->) | [(? & ->) | (? & ->)]])];
  cbv beta iota.

Ltac found_step :=
  lazymatch goal with
  | |- post (primaryCDN _ _ _ _ _ _) _ =>
      eapply post_conseq; [apply primaryCDN_found |];
      let c := fresh "c" in
      let Hp := fresh "Hprimary" in
      intros c ? Hp; cbv beta in Hp; destruct c as [[? | [? ?]] | ?]; cbv beta iota
  | |- post (communityStage _ _ _ _) _ => stage_cases communityStage_cases
  | |- post (metadataStage _ _ _ _ _ _) _ => stage_cases metadataStage_cases
  | |- post (searchStage _ _ _ _ _ _) _ => stage_cases searchStage_cases
  | |- post (finalDownload _) _ =>
      eapply post_conseq; [apply finalDownload_found |];
      let Hf := fresh "Hfinal" in
      intros ? ? Hf; cbv beta in Hf; cbv beta iota
  | |- _ => wp_step
  end.

Section Label.
Context {W : Type} {N : Network W} {L : Library}.

Lemma getImageAlternatives_found game artStyle exts skipSteam key secret client
    skipGoogle onlyMissing sgdbOnly :
  post (getImageAlternatives game artStyle exts skipSteam key secret client
          skipGoogle onlyMissing sgdbOnly)
    (fun r t => forall response from err, r = Ret (Some response, from, err) ->
       err = None /\ downloaded response t /\
       provenance artStyle skipSteam key secret client skipGoogle onlyMissing sgdbOnly from).
Proof.
  unfold getImageAlternatives, candidates, bindc. repeat found_step.
  all: intros response0 from0 err0 Er.
  all: repeat match goal with
         | H : _ /\ _ |- _ => destruct H
         | H : forall x, Ret (Return ?y) = Ret (Return x) -> _ |- _ =>
             specialize (H y eq_refl)
         | H : forall x, Ret (Next _) = Ret (Return x) -> _ |- _ => clear H
         | H : forall p, Ret (Next ?y) = Ret (Next p) -> _ |- _ =>
             specialize (H y eq_refl); cbn [fst] in H;
             match type of H with ?v = None => subst v end
         | H : forall p, Ret (Return _) = Ret (Next p) -> _ |- _ => clear H
         | H : _ = _ \/ (exists _, _) |- _ => destruct H as [H | (? & H & ?)]
         end.
  all: try congruence.
  all: try match goal with
         | H : ?r = Ret (Some _, _, None), E : ?r = Ret _ |- _ => rewrite H in E
         | H : ?r = (Some _, _, None), E : Ret ?r = Ret _ |- _ => rewrite H in E
         end.
  all: try (inversion Er; fail).
  all: inversion Er; subst.
  all: repeat match goal with H : _ /\ _ |- _ => destruct H end.
  all: cbn [v_url v_from] in *; rewrite ?app_nil_r.
  all: try match goal with H : "" <> "" |- _ => contradiction H; reflexivity end.
  all: (split; [reflexivity |]); split;
       [ first [ assumption | apply downloaded_app; assumption ] |].
  all: unfold provenance; guard_facts; subst.
  all: first [ left; repeat split; auto; fail
             | right; left; repeat split; auto; fail
             | right; right; left; repeat split; auto; fail
             | right; right; right; repeat split; auto; fail
             | idtac ].
Qed.

(** X3: The label of a resolution is sound: the resolver hands out a response
    only without an error; the response is the answer to the last request of
    the run, a download with a status below 400; and the label names a stage
    that the flags, the credentials and the style allow. *)
Theorem getImageAlternatives_provenance game artStyle exts skipSteam key secret client
    skipGoogle onlyMissing sgdbOnly (w : W) r t w' response from err :
  getImageAlternatives game artStyle exts skipSteam key secret client
    skipGoogle onlyMissing sgdbOnly w = (r, t, w') ->
  r = Ret (Some response, from, err) ->
  err = None /\ downloaded response t /\
  provenance artStyle skipSteam key secret client skipGoogle onlyMissing sgdbOnly from.
Proof.
  intros Hrun Er.
  exact (getImageAlternatives_found game artStyle exts skipSteam key secret client
           skipGoogle onlyMissing sgdbOnly w r t w' Hrun response from err Er).
Qed.

Lemma DownloadImage_written gridDir game artStyle exts skipSteam key secret client
    skipGoogle onlyMissing sgdbOnly :
  post (DownloadImage gridDir game artStyle exts skipSteam key secret client
          skipGoogle onlyMissing sgdbOnly)
    (fun r t => forall game' from err, r = Ret (game', (from, err)) ->
       (ID game' = ID game /\ Name game' = Name game /\
        Custom game' = Custom game /\ LegacyID game' = LegacyID game /\
        OverlayImageBytes game' = OverlayImageBytes game) /\
       (from <> "" ->
        err = None /\ ImageSource game' = from /\
        provenance artStyle skipSteam key secret client skipGoogle
          onlyMissing sgdbOnly from /\
        exists response, downloaded response t /\
          CleanImageBytes game' = Some (Body response))).
Proof.
  unfold DownloadImage.
  apply post_bind. eapply post_conseq; [apply getImageAlternatives_found |].
  intros r0 t0 Hfound. destruct r0 as [[[response0 from0] err0] | msg]; cbv beta iota.
  - wp.
    all: intros game1 from1 err1 Er; inversion Er; subst; clear Er.
    all: rewrite ?app_nil_r.
    all: (split; [repeat split |]).
    all: intros Hne; try (contradiction Hne; reflexivity).
    destruct (Hfound _ _ _ eq_refl) as (_ & Hd & Hp).
    split; [reflexivity |]. split; [reflexivity |]. split; [exact Hp |].
    eexists. split; [exact Hd | reflexivity].
  - intros game1 from1 err1 Er. discriminate Er.
Qed.

(** X4: What [DownloadImage] writes: never the identifier, the name, the custom
    flag, the legacy identifier or the overlay; and when it returns a label,
    there is no error, the label is the source left in the game, and the
    bytes left in the game are the body of the last response of the run, a
    download with a status below 400. *)
Theorem DownloadImage_writes gridDir game artStyle exts skipSteam key secret client
    skipGoogle onlyMissing sgdbOnly (w : W) game' from err t w' :
  DownloadImage gridDir game artStyle exts skipSteam key secret client
    skipGoogle onlyMissing sgdbOnly w = (Ret (game', (from, err)), t, w') ->
  (ID game' = ID game /\ Name game' = Name game /\ Custom game' = Custom game /\
   LegacyID game' = LegacyID game /\ OverlayImageBytes game' = OverlayImageBytes game) /\
  (from <> "" ->
   err = None /\ ImageSource game' = from /\
   provenance artStyle skipSteam key secret client skipGoogle onlyMissing sgdbOnly from /\
   exists response, downloaded response t /\ CleanImageBytes game' = Some (Body response)).
Proof.
  intros Hrun.
  exact (DownloadImage_written gridDir game artStyle exts skipSteam key secret client
           skipGoogle onlyMissing sgdbOnly w _ t w' Hrun game' from err eq_refl).
Qed.

End Label.
(** ** Panics *)

Section Returns.
Context {W : Type} {N : Network W} {L : Library}.

Lemma returns_ret {A : Type} (a : A) : post (W := W) (ret a) returns.
Proof. apply post_ret. exists a. reflexivity. Qed.

Lemma returns_bind {A B : Type} (m : @M W A) (k : A -> @M W B) :
  post m returns -> (forall a, post (k a) returns) -> post (bind m k) returns.
Proof.
  intros Hm Hk. apply post_bind. eapply post_conseq; [exact Hm |].
  intros r t1 (a & ->). cbv beta iota.
  eapply post_conseq; [apply Hk |]. intros r t2 H. exact H.
Qed.

Lemma returns_index {A : Type} (l : list A) i :
  (i < length l)%nat -> post (W := W) (index l i) returns.
Proof.
  intros Hi. apply post_index.
  - intros a _. exists a. reflexivity.
  - intros E. apply nth_error_None in E. lia.
Qed.

Lemma returns_client_Do req : post (client_Do req) returns.
Proof. apply post_client_Do; intros; eexists; reflexivity. Qed.

End Returns.

Ltac returns_step :=
  lazymatch goal with
  | |- post (bind _ _) returns => apply returns_bind; [| intros ?]
  | |- post (bindc _ _) returns => unfold bindc at 1
  | |- post (ret _) returns => apply returns_ret
  | |- post (index _ _) returns => apply returns_index
  | |- post (client_Do _) returns => apply returns_client_Do
  | |- post (if ?b then _ else _) returns => destruct b eqn:?
  | |- post (match ?x with _ => _ end) returns => destruct x eqn:?
  | |- post (let '(_, _) := ?x in _) returns => destruct x eqn:?
  end.

Ltac length_facts :=
  repeat match goal with
    | H : _ && _ = true |- _ => apply andb_true_iff in H; destruct H
    | H : (_ <=? _)%nat = true |- _ => apply Nat.leb_le in H
    | H : (_ =? _)%nat = false |- _ => apply Nat.eqb_neq in H
    end.

Section NoPanic.
Context {W : Type} {N : Network W} {L : Library}.
Variables secret client : string.
Hypothesis Hsane : sane L secret client.
Variable exts : list string.
Hypothesis Hexts : (4 <= length exts)%nat.

Lemma returns_tryDownload url : post (tryDownload url) returns.
Proof. unfold tryDownload, http_Get. repeat returns_step. Qed.

Lemma returns_steamGridDBGetRequest url key : post (steamGridDBGetRequest url key) returns.
Proof. unfold steamGridDBGetRequest. repeat returns_step. Qed.

Lemma returns_sgdbPass game key : post (sgdbPass game exts key) returns.
Proof.
  destruct Hsane as (_ & _ & _ & _ & Hsort).
  unfold sgdbPass, sgdbSearchByName, sgdbSelect.
  repeat first [ apply returns_steamGridDBGetRequest | returns_step ].
  all: length_facts; rewrite ?Hsort; lia.
Qed.

Lemma returns_getSteamGridDBImage game key :
  post (getSteamGridDBImage game exts key) returns.
Proof.
  unfold getSteamGridDBImage. cbn [sgdbLoop].
  change (0 <? 3)%Z with true. change (0 + 2 <? 3)%Z with true.
  change (0 + 2 + 2 <? 3)%Z with false. cbv iota.
  repeat first [ apply returns_sgdbPass | returns_step ].
Qed.

Lemma returns_igdbPostRequest url body :
  url = igdbGameURL \/ url = igdbCoverURL ->
  post (igdbPostRequest url body secret client) returns.
Proof.
  destruct Hsane as (Htoken & Hgames & Hcovers & _).
  intros Hurl. unfold igdbPostRequest. rewrite Htoken.
  assert (Hnew : http_NewRequest "POST" url = None) by (destruct Hurl; subst; assumption).
  rewrite Hnew.
  repeat returns_step.
Qed.

Lemma returns_getIGDBImage name : post (getIGDBImage name secret client) returns.
Proof.
  unfold getIGDBImage.
  repeat first [ apply returns_igdbPostRequest; auto | returns_step ].
Qed.

Lemma returns_googleScan patterns body :
  incl patterns googleSearchResultPatterns ->
  post (W := W) (googleScan patterns body) returns.
Proof.
  destruct Hsane as (_ & _ & _ & Hmatch & _).
  induction patterns as [| p ps IH]; cbn [googleScan]; intros Hincl.
  - apply returns_ret.
  - repeat returns_step; [| apply IH; intros p' Hp'; apply Hincl; right; exact Hp'].
    length_facts.
    specialize (Hmatch p body (or_intror (Hincl p (or_introl eq_refl)))). lia.
Qed.

Lemma returns_getGoogleImage name : post (getGoogleImage name exts) returns.
Proof.
  unfold getGoogleImage.
  repeat first [ apply returns_googleScan; apply incl_refl | returns_step ].
Qed.

Lemma returns_getGameName gameID : post (getGameName gameID) returns.
Proof.
  destruct Hsane as (_ & _ & _ & Hmatch & _).
  unfold getGameName.
  repeat first [ apply returns_tryDownload | returns_step ].
  length_facts.
  match goal with |- (1 < length (regexp_FindStringSubmatch ?p ?s))%nat =>
    specialize (Hmatch p s (or_introl eq_refl)) end.
  lia.
Qed.

Lemma returns_getImageAlternatives game artStyle skipSteam key skipGoogle onlyMissing
    sgdbOnly :
  post (getImageAlternatives game artStyle exts skipSteam key secret client
          skipGoogle onlyMissing sgdbOnly) returns.
Proof.
  unfold getImageAlternatives, candidates, primaryCDN, communityStage, metadataStage,
    searchStage, finalDownload.
  repeat first
    [ apply returns_tryDownload | apply returns_getSteamGridDBImage
    | apply returns_getIGDBImage | apply returns_getGoogleImage | returns_step ].
  all: lia.
Qed.

(** X5: With the packages behaving as [sane] says and a style that has its
    four extensions, the resolver never panics. *)
Theorem getImageAlternatives_returns game artStyle skipSteam key skipGoogle onlyMissing
    sgdbOnly (w : W) r t w' :
  getImageAlternatives game artStyle exts skipSteam key secret client
    skipGoogle onlyMissing sgdbOnly w = (r, t, w') ->
  exists res, r = Ret res.
Proof.
  intros Hrun.
  exact (returns_getImageAlternatives game artStyle skipSteam key skipGoogle onlyMissing
           sgdbOnly w r t w' Hrun).
Qed.

End NoPanic.

Section ContentType.
Context {W : Type} {N : Network W} {L : Library}.

(** X6: [DownloadImage] panics on a response whose content type is not empty
    and has no slash, and on no other response of the resolver. *)
Theorem DownloadImage_content_type gridDir game artStyle exts skipSteam key secret client
    skipGoogle onlyMissing sgdbOnly (w : W) response from t w' :
  getImageAlternatives game artStyle exts skipSteam key secret client
    skipGoogle onlyMissing sgdbOnly w = (Ret (Some response, from, None), t, w') ->
  (ContentType response <> "" /\ strings_Contains (ContentType response) "/" = false ->
   DownloadImage gridDir game artStyle exts skipSteam key secret client
     skipGoogle onlyMissing sgdbOnly w = (Panic "index out of range", t, w')) /\
  (ContentType response = "" \/ strings_Contains (ContentType response) "/" = true ->
   exists result,
     DownloadImage gridDir game artStyle exts skipSteam key secret client
       skipGoogle onlyMissing sgdbOnly w = (Ret result, t, w')).
Proof.
  intros Hrun.
  pose proof (DownloadImage_response gridDir game artStyle exts skipSteam key secret
                client skipGoogle onlyMissing sgdbOnly w response from t w' Hrun) as Hd.
  split.
  - intros Hbad. apply (deriveExt_None _ (filepath_Ext (RequestURLPath response))) in Hbad.
    rewrite Hbad in Hd. exact Hd.
  - intros Hgood.
    destruct (deriveExt (ContentType response) (filepath_Ext (RequestURLPath response)))
      as [ext |] eqn:E.
    + destruct (detectSize _ _) as [imgSize [e |]]; [eauto |].
      destruct (wrongAspect artStyle imgSize); eauto.
    + apply deriveExt_None in E. destruct E as [E1 E2].
      destruct Hgood as [E | E]; [contradiction | congruence].
Qed.

End ContentType.
(** ** Where a candidate comes from *)

Section Metadata.
Context {W : Type} {N : Network W} {L : Library}.

Lemma igdbPostRequest_call url body secret client :
  post (igdbPostRequest url body secret client)
    (fun r t => igdbCall L url body secret client t /\
       forall bytes, r = Ret (bytes, None) ->
         igdbExchange L url body secret client bytes t).
Proof.
  unfold igdbPostRequest, igdbCall, igdbExchange, tokenRequest, queryRequest.
  wp.
  all: (split; [| intros bytes Er; inversion Er; subst]).
  all: cbn [app].
  all: try (left; reflexivity).
  all: try (right; left; eexists; reflexivity).
  all: try (right; right; do 3 eexists; split; [reflexivity | assumption]).
  all: do 3 eexists; split; [reflexivity |]; auto.
Qed.

Lemma igdbImageURL_format imageID :
  fmt_Sprintf igdbImageURL [imageID]
  = "https://images.igdb.com/igdb/image/upload/t_720p/" ++ imageID ++ ".jpg".
Proof. reflexivity. Qed.

Lemma igdbCall_nil url body secret client : igdbCall L url body secret client [].
Proof. left. reflexivity. Qed.

Lemma getIGDBImage_calls gameName secret client :
  post (getIGDBImage gameName secret client)
    (fun r t =>
       (exists t1 t2 cover,
          t = (t1 ++ t2)%list /\
          igdbCall L igdbGameURL (fmt_Sprintf igdbGameBody [gameName]) secret client t1 /\
          igdbCall L igdbCoverURL (fmt_Sprintf igdbCoverBody [strconv_Itoa cover])
            secret client t2) /\
       forall url, r = Ret (url, None) -> url <> "" ->
         exists t1 t2 bytes1 bytes2 game games cover covers,
           t = (t1 ++ t2)%list /\
           igdbExchange L igdbGameURL (fmt_Sprintf igdbGameBody [gameName]) secret client
             bytes1 t1 /\
           json_Unmarshal_igdbGames bytes1 = Ok (game :: games) /\
           igdbGame_Cover game <> 0 /\
           igdbExchange L igdbCoverURL
             (fmt_Sprintf igdbCoverBody [strconv_Itoa (igdbGame_Cover game)])
             secret client bytes2 t2 /\
           json_Unmarshal_igdbCovers bytes2 = Ok (cover :: covers) /\
           url = "https://images.igdb.com/igdb/image/upload/t_720p/"
                 ++ igdbCover_Image_ID cover ++ ".jpg").
Proof.
  unfold getIGDBImage.
  repeat first
    [ lazymatch goal with
      | |- post (bind (igdbPostRequest _ _ _ _) _) _ =>
          apply post_bind; eapply post_conseq; [apply igdbPostRequest_call |];
          let r := fresh "r" in
          let Hc := fresh "Hcall" in
          let Hx := fresh "Hexchange" in
          intros r ? [Hc Hx]; destruct r as [[? ?] | ?]; cbv beta iota
      end
    | wp_step ].
  all: (split; [| intros url0 Er Hne; inversion Er; subst;
                  try (contradiction Hne; reflexivity)]).
  all: rewrite ?app_nil_r.
  all: try (eexists; exists [], 0; rewrite app_nil_r;
            split; [reflexivity | split; [eassumption | apply igdbCall_nil]]).
  all: try (do 3 eexists; split; [reflexivity | split; eassumption]).
  all: destruct e as [e |]; cbn [is_nil negb] in *; try discriminate.
  all: destruct e0 as [e0 |]; cbn [is_nil negb] in *; try discriminate.
  do 8 eexists. split; [reflexivity |].
  split; [apply Hexchange; reflexivity |].
  split; [eassumption |].
  split; [apply Z.eqb_neq; assumption |].
  split; [apply Hexchange0; reflexivity |].
  split; [eassumption | reflexivity].
Qed.

(** X7: The metadata database is asked for a token in every call: the trace of
    a lookup is that of two calls, the query for the game and the query for
    the cover, and each query carries the token its own call has just
    obtained.  A URL the lookup returns is the fixed template filled with the
    image identifier of the first cover of the second answer, which was asked
    for with the cover number of the first game of the first answer. *)
Theorem getIGDBImage_candidate gameName secret client (w : W) r t w' :
  getIGDBImage gameName secret client w = (r, t, w') ->
  (exists t1 t2 cover,
     t = (t1 ++ t2)%list /\
     igdbCall L igdbGameURL (fmt_Sprintf igdbGameBody [gameName]) secret client t1 /\
     igdbCall L igdbCoverURL (fmt_Sprintf igdbCoverBody [strconv_Itoa cover])
       secret client t2) /\
  (forall url, r = Ret (url, None) -> url <> "" ->
     exists t1 t2 bytes1 bytes2 game games cover covers,
       t = (t1 ++ t2)%list /\
       igdbExchange L igdbGameURL (fmt_Sprintf igdbGameBody [gameName]) secret client
         bytes1 t1 /\
       json_Unmarshal_igdbGames bytes1 = Ok (game :: games) /\
       igdbGame_Cover game <> 0 /\
       igdbExchange L igdbCoverURL
         (fmt_Sprintf igdbCoverBody [strconv_Itoa (igdbGame_Cover game)])
         secret client bytes2 t2 /\
       json_Unmarshal_igdbCovers bytes2 = Ok (cover :: covers) /\
       url = "https://images.igdb.com/igdb/image/upload/t_720p/"
             ++ igdbCover_Image_ID cover ++ ".jpg").
Proof. intros Hrun. exact (getIGDBImage_calls gameName secret client w r t w' Hrun). Qed.

End Metadata.
Section Community.
Context {W : Type} {N : Network W} {L : Library}.

Lemma steamGridDBGetRequest_bytes url key :
  post (steamGridDBGetRequest url key)
    (fun r t => forall bytes, r = Ret (bytes, None) ->
       exists response,
         t = [(GET url [("Authorization", "Bearer " ++ key)], Answer response)] /\
         bytes = Body response /\
         StatusCode response <> 401 /\ StatusCode response <> 404).
Proof.
  unfold steamGridDBGetRequest.
  wp; intros bytes Er; inversion Er; subst.
  eexists. split; [reflexivity |]. split; [reflexivity |].
  split; apply Z.eqb_neq; assumption.
Qed.

Lemma sgdbSearchByName_bytes game exts key baseURL :
  post (sgdbSearchByName game exts key baseURL)
    (fun c t =>
       (forall bytes, c = Ret (Next bytes) -> lastBody bytes t) /\
       (forall url err, c = Ret (Return (url, err)) -> url = "")).
Proof.
  unfold sgdbSearchByName.
  repeat first
    [ lazymatch goal with
      | |- post (bind (steamGridDBGetRequest _ _) _) _ =>
          apply post_bind; eapply post_conseq; [apply steamGridDBGetRequest_bytes |];
          let r := fresh "r" in
          let Hb := fresh "Hbytes" in
          intros r ? Hb; destruct r as [[? ?] | ?]; cbv beta iota
      end
    | wp_step ].
  all: (split; [intros bytes0 Er | intros url0 err0 Er]); inversion Er; subst; auto.
  all: repeat match goal with
         | H : negb (is_nil ?e) = false |- _ => destruct e; [discriminate H | clear H]
         end.
  all: match goal with
  | H : forall bytes, Ret (?b, None) = Ret (bytes, None) -> _ |- lastBody ?b _ =>
      destruct (H b eq_refl) as (resp & -> & -> & H401 & H404)
  end.
  all: cbn [app]; rewrite ?app_nil_r.
  all: eexists _, _, resp; (split; [reflexivity |]); auto.
Qed.

Lemma selected_found (af : bool) entries d :
  (if af then find (fun d => strings_Contains (grid_Thumb d) "webm") entries else None)
  = Some d ->
  selected af entries d.
Proof. destruct af; [| discriminate]. intros H. left. auto. Qed.

Lemma selected_first (af : bool) entries d :
  (if af then find (fun d => strings_Contains (grid_Thumb d) "webm") entries else None)
  = None ->
  nth_error entries 0 = Some d ->
  selected af entries d.
Proof. destruct af; intros H H0; right; auto. Qed.

Lemma listed_app_r af data (t1 t2 : list event) :
  listed L af data t2 -> listed L af data (t1 ++ t2).
Proof.
  intros (req & resp & listing & Hin & H). exists req, resp, listing.
  split; [apply in_or_app; right; exact Hin | exact H].
Qed.

Lemma listed_last af data bytes listing (t : list event) :
  lastBody bytes t ->
  json_Unmarshal_steamGridDBResponse bytes = Ok listing ->
  grid_Success listing = true -> selected af (grid_Data listing) data ->
  listed L af data t.
Proof.
  intros (t0 & req & resp & -> & Hc & -> & H401 & H404) Hparse Hs Hin.
  exists req, resp, listing. split; [apply in_or_app; right; left; reflexivity |].
  auto 6.
Qed.

Lemma sgdbPass_listed game exts key nameExtension filter :
  nth_error exts 1 = Some nameExtension ->
  nth_error exts 3 = Some filter ->
  post (sgdbPass game exts key)
    (fun c t => forall url err, c = Ret (Return (url, err)) -> url <> "" ->
       err = None /\
       exists data,
         listed L (strings_Contains (sgdbBaseURL nameExtension ++ "/steam/" ++ ID game
                                     ++ filter) "animated,static") data t /\
         url = grid_URL data).
Proof.
  intros Hname Hfilter.
  unfold sgdbPass, sgdbSelect. unfold index at 1 2. rewrite Hname, Hfilter.
  repeat first
    [ lazymatch goal with
      | |- post (steamGridDBGetRequest _ _) _ =>
          eapply post_conseq; [apply steamGridDBGetRequest_bytes |];
          let r := fresh "r" in
          let Hb := fresh "Hbytes" in
          intros r ? Hb; destruct r as [[? ?] | ?]; cbv beta iota
      | |- post (sgdbSearchByName _ _ _ _) _ =>
          eapply post_conseq; [apply sgdbSearchByName_bytes |];
          let r := fresh "r" in
          let Hn := fresh "Hnext" in
          let Hr := fresh "Hreturn" in
          intros r ? [Hn Hr]; destruct r as [[[? ?] | ?] | ?]; cbv beta iota
      end
    | wp_step ].
  all: intros url0 err0 Er Hne; inversion Er; subst; try (contradiction Hne; reflexivity).
  all: try match goal with
         | H : forall url err, Ret (Return (?u, ?e)) = Ret (Return (url, err)) -> _ |- _ =>
             rewrite (H u e eq_refl) in Hne; contradiction Hne; reflexivity
         end.
  all: try (cbn in *; discriminate).
  all: (split; [reflexivity |]).
  all: rewrite ?app_nil_r; cbn [app].
  all: guard_facts.
  all: repeat match goal with
         | H : forall bytes, Ret (Next ?b) = Ret (Next bytes) -> _ |- _ =>
             specialize (H b eq_refl)
         | H : negb (is_nil ?e) = false |- _ => destruct e; [discriminate H | clear H]
         | H : forall bytes, Ret (?b, None) = Ret (bytes, None) -> _ |- _ =>
             destruct (H b eq_refl) as (? & -> & -> & ? & ?); clear H
         end.
  all: eexists; (split; [| reflexivity]).
  all: try (apply listed_app_r; eapply listed_last;
            eauto using selected_found, selected_first; fail).
  all: try (eapply listed_last; eauto using selected_found, selected_first; fail).
  all: eexists _, _, _; (split; [left; reflexivity |]).
  all: split; [reflexivity |]; repeat (split; [eassumption |]);
    eauto using selected_found, selected_first.
Qed.

Lemma getSteamGridDBImage_listed game exts key nameExtension filter :
  nth_error exts 1 = Some nameExtension ->
  nth_error exts 3 = Some filter ->
  post (getSteamGridDBImage game exts key)
    (fun r t => forall url err, r = Ret (url, err) -> url <> "" ->
       err = None /\
       exists data,
         listed L (strings_Contains (sgdbBaseURL nameExtension ++ "/steam/" ++ ID game
                                     ++ filter) "animated,static") data t /\
         url = grid_URL data).
Proof.
  intros Hname Hfilter.
  unfold getSteamGridDBImage. cbn [sgdbLoop].
  change (0 <? 3)%Z with true. change (0 + 2 <? 3)%Z with true.
  change (0 + 2 + 2 <? 3)%Z with false. cbv iota.
  repeat first
    [ lazymatch goal with
      | |- post (bind (sgdbPass _ _ _) _) _ =>
          apply post_bind; eapply post_conseq;
          [apply (sgdbPass_listed _ _ _ _ _ Hname Hfilter) |];
          let r := fresh "r" in
          let Hp := fresh "Hpass" in
          intros r ? Hp; destruct r as [[[? ?] | ?] | ?]; cbv beta iota
      end
    | wp_step ].
  all: intros url0 err0 Er Hne; inversion Er; subst; try (contradiction Hne; reflexivity).
  all: rewrite ?app_nil_r.
  - destruct (Hpass _ _ eq_refl Hne) as (-> & data & Hl & ->). eauto.
  - destruct (Hpass0 _ _ eq_refl Hne) as (-> & data & Hl & ->).
    split; [reflexivity |]. exists data. split; [apply listed_app_r; exact Hl | reflexivity].
Qed.

(** X8: A URL the lookup in the community database returns comes without an
    error and is the URL of an entry of a listing received in the run, from
    an answer whose status was neither 401 nor 404 and whose listing says
    success: the first entry of the listing, or, when the request by
    identifier holds "animated,static", the first entry with a WEBM
    thumbnail if there is one. *)
Theorem getSteamGridDBImage_candidate game exts key nameExtension filter (w : W)
    url err t w' :
  nth_error exts 1 = Some nameExtension ->
  nth_error exts 3 = Some filter ->
  getSteamGridDBImage game exts key w = (Ret (url, err), t, w') ->
  url <> "" ->
  err = None /\
  exists data,
    listed L (strings_Contains (sgdbBaseURL nameExtension ++ "/steam/" ++ ID game
                                ++ filter) "animated,static") data t /\
    url = grid_URL data.
Proof.
  intros Hname Hfilter Hrun Hne.
  exact (getSteamGridDBImage_listed game exts key nameExtension filter Hname Hfilter
           w _ t w' Hrun url err eq_refl Hne).
Qed.

End Community.
(** ** Flags and bounds *)

Ltac shape_stage lemma :=
  eapply post_conseq; [apply lemma |];
  let c := fresh "c" in
  let Hs := fresh "Hstage" in
  let r := fresh "r" in
  let HQ := fresh "HQ" in
  let G := fresh "G" in
  intros c ? Hs;
  destruct Hs as [(G & -> & ->) | (G & r & HQ & ->)];
  [ | destruct r as [[? [? |]] | ?]; cbn [stageResult is_nil negb] ];
  cbv beta iota.

Ltac shape_step :=
  lazymatch goal with
  | |- post (primaryCDN _ _ _ _ _ _) _ =>
      eapply post_conseq; [apply primaryCDN_post |];
      let c := fresh "c" in
      let Hp := fresh "Hprimary" in
      intros c ? Hp; destruct c as [[? | [? ?]] | ?]; cbv beta iota
  | |- post (communityStage _ _ _ _) _ => shape_stage communityStage_post
  | |- post (metadataStage _ _ _ _ _ _) _ => shape_stage metadataStage_post
  | |- post (searchStage _ _ _ _ _ _) _ => shape_stage searchStage_post
  | |- post (finalDownload _) _ =>
      eapply post_conseq; [apply finalDownload_post |];
      let Hf := fresh "Hfinal" in
      intros ? ? Hf; cbv beta iota
  | |- _ => wp_step
  end.

Section CommunityOnly.
Context {W : Type} {N : Network W} {L : Library}.

Lemma getImageAlternatives_only game artStyle exts skipSteam key secret client
    skipGoogle onlyMissing :
  post (getImageAlternatives game artStyle exts skipSteam key secret client
          skipGoogle onlyMissing true)
    (fun r t =>
       (exists tS tF, t = (tS ++ tF)%list /\ twoTurns tS /\ finalSegment tF) /\
       (key = "" -> t = [] /\ r = Ret (None, "", None))).
Proof.
  unfold getImageAlternatives, candidates, bindc, primaryCDN.
  rewrite andb_false_r. repeat shape_step.
  all: try (rewrite andb_false_r in *; discriminate).
  all: cbn [app]; rewrite ?app_nil_r.
  all: (split; [| intros ->; cbn in *; try discriminate]).
  all: try match goal with
         | H : communityPost _ _ _ _ _ _ ?t |- exists tS tF, ?t = _ /\ _ =>
             exists t, []; rewrite app_nil_r;
             split; [reflexivity | split; [exact (proj1 H) | apply traceOf_nil]]
         | H : communityPost _ _ _ _ _ _ ?t, F : finalPost _ _ ?u
           |- exists tS tF, (?t ++ ?u)%list = _ /\ _ =>
             exists t, u; split; [reflexivity | split; [exact (proj1 H) | exact (proj1 F)]]
         | F : finalPost _ _ ?u |- exists tS tF, ?u = _ /\ _ =>
             exists [], u; split; [reflexivity | split; [apply twoTurns_nil | exact (proj1 F)]]
         end.
  all: match goal with
       | F : finalPost _ _ _ |- _ =>
           destruct (proj2 (proj2 F) eq_refl) as [-> ->]; split; reflexivity
       end.
Qed.

(** X9: With "community database only" set, the requests of a resolution are
    those of the lookup in the community database, followed by at most one
    download; without a key nothing is sent at all and the result is the
    empty one. *)
Theorem getImageAlternatives_community_only game artStyle exts skipSteam key secret
    client skipGoogle onlyMissing (w : W) r t w' :
  getImageAlternatives game artStyle exts skipSteam key secret client
    skipGoogle onlyMissing true w = (r, t, w') ->
  (exists tS tF, t = (tS ++ tF)%list /\ twoTurns tS /\ finalSegment tF) /\
  (key = "" -> t = [] /\ r = Ret (None, "", None)).
Proof.
  intros Hrun.
  exact (getImageAlternatives_only game artStyle exts skipSteam key secret client
           skipGoogle onlyMissing w r t w' Hrun).
Qed.

End CommunityOnly.

Section Turns.
Context {W : Type} {N : Network W} {L : Library}.

Lemma sgdbLoop_done turns game exts key (w : W) :
  sgdbLoop turns (0 + 2 + 2) game exts key w = (Ret ("", None), [], w).
Proof. destruct turns; reflexivity. Qed.

(** The loop of the lookup takes at most two turns: with any bound of two
    turns or more, the run is that of [getSteamGridDBImage]. *)
Lemma sgdbLoop_turns turns game exts key (w : W) :
  (2 <= turns)%nat ->
  sgdbLoop turns 0 game exts key w = getSteamGridDBImage game exts key w.
Proof.
  intros Hturns. destruct turns as [| [| turns]]; try lia.
  unfold getSteamGridDBImage. cbn [sgdbLoop].
  change (0 <? 3)%Z with true. change (0 + 2 <? 3)%Z with true. cbv iota.
  unfold bind.
  destruct (sgdbPass game exts key w) as [[[[r | []] | msg] t1] w1]; try reflexivity.
  unfold ret.
  destruct (sgdbPass game exts key w1) as [[[[r | []] | msg] t2] w2]; try reflexivity.
  rewrite !sgdbLoop_done. reflexivity.
Qed.

End Turns.
Section GameName.
Context {W : Type} {N : Network W} {L : Library}.

Lemma post_and {A : Type} (m : @M W A) (Q1 Q2 : outcome A -> list event -> Prop) :
  post m Q1 -> post m Q2 -> post m (fun r t => Q1 r t /\ Q2 r t).
Proof. intros H1 H2 w r t w' E. split; [eapply H1 | eapply H2]; exact E. Qed.

Lemma append_nil_r (s : string) : s ++ "" = s.
Proof. induction s as [| c s IH]; cbn; [reflexivity | rewrite IH; reflexivity]. Qed.

Lemma steamDB_url gameID :
  fmt_Sprintf steamDBFormat [gameID] = "https://steamdb.info/app/" ++ gameID.
Proof. unfold steamDBFormat. cbn. rewrite append_nil_r. reflexivity. Qed.

Lemma tryDownload_trace url :
  post (tryDownload url)
    (fun r t => t = [] \/ exists reply, t = [(GET url [], reply)]).
Proof. unfold tryDownload, http_Get. wp; cbn [app]; eauto. Qed.

Lemma getGameName_post gameID :
  post (getGameName gameID)
    (fun r t =>
       (t = [] \/ exists reply, t = [(GET ("https://steamdb.info/app/" ++ gameID) [], reply)]) /\
       forall name, r = Ret name -> name <> "" ->
         exists response,
           t = [(GET ("https://steamdb.info/app/" ++ gameID) [], Answer response)] /\
           StatusCode response < 400 /\ StatusCode response <> 404 /\
           BodyErr response = None /\
           nth_error (regexp_FindStringSubmatch steamDBNamePattern (Body response)) 1
           = Some name).
Proof.
  unfold getGameName. rewrite steamDB_url.
  apply post_bind.
  eapply post_conseq; [apply (post_and _ _ _ (tryDownload_trace _) (tryDownload_found _)) |].
  intros r t [Hshape (response & err & -> & Hfound)]. cbv beta iota.
  wp.
  all: rewrite app_nil_r; (split; [exact Hshape |]).
  all: intros name Er Hne; inversion Er; subst; try (contradiction Hne; reflexivity).
  match goal with
  | H : forall resp, Some ?r = Some resp -> _ |- _ =>
      destruct (H r eq_refl) as (_ & -> & _ & H400 & H404)
  end.
  eexists. split; [reflexivity |]. auto.
Qed.

(** X10: The name of a game is asked of one page, [steamdb.info/app/] followed by
    the identifier, once at most; a name that is not empty is the first
    group of the pattern, matched in the body of an answer with a status
    below 400. *)
Theorem getGameName_source gameID (w : W) r t w' :
  getGameName gameID w = (r, t, w') ->
  (t = [] \/ exists reply, t = [(GET ("https://steamdb.info/app/" ++ gameID) [], reply)]) /\
  (forall name, r = Ret name -> name <> "" ->
     exists response,
       t = [(GET ("https://steamdb.info/app/" ++ gameID) [], Answer response)] /\
       StatusCode response < 400 /\ StatusCode response <> 404 /\
       BodyErr response = None /\
       nth_error (regexp_FindStringSubmatch steamDBNamePattern (Body response)) 1
       = Some name).
Proof. intros Hrun. exact (getGameName_post gameID w r t w' Hrun). Qed.

End GameName.
(** ** Sorting the search results *)

Section Sorting.
Context {L : Library}.

Lemma at_index_Ret {A : Type} (l : list A) (i : Z) (a : A) :
  at_index l i = Ret a <-> 0 <= i /\ nth_error l (Z.to_nat i) = Some a.
Proof.
  unfold at_index. destruct (Z.ltb_spec i 0) as [Hneg | Hpos].
  - split; [discriminate | lia].
  - destruct (nth_error l (Z.to_nat i)) as [b |].
    + split; [intros E; inversion E; auto | intros [_ E]; inversion E; reflexivity].
    + split; [discriminate | intros [_ E]; discriminate E].
Qed.

Lemma at_index_range {A : Type} (l : list A) (i : Z) :
  0 <= i < Z.of_nat (length l) -> exists a, at_index l i = Ret a.
Proof.
  intros Hi. destruct (nth_error l (Z.to_nat i)) as [a |] eqn:E.
  - exists a. apply at_index_Ret. split; [lia | exact E].
  - apply nth_error_None in E. lia.
Qed.

Lemma at_index_Panic {A : Type} (l : list A) (i : Z) :
  ~ 0 <= i < Z.of_nat (length l) -> at_index l i = Panic "index out of range".
Proof.
  intros Hi. unfold at_index. destruct (Z.ltb_spec i 0) as [Hneg | Hpos]; [reflexivity |].
  destruct (nth_error l (Z.to_nat i)) as [a |] eqn:E; [| reflexivity].
  assert (Hlt : (Z.to_nat i < length l)%nat) by (apply nth_error_Some; congruence).
  lia.
Qed.

Lemma store_length {A : Type} (l : list A) n v : length (store l n v) = length l.
Proof.
  revert n. induction l as [| a l IH]; intros [| n]; cbn [store length]; auto.
Qed.

Lemma store_nth {A : Type} (l : list A) n v k :
  (n < length l)%nat ->
  nth_error (store l n v) k = if (k =? n)%nat then Some v else nth_error l k.
Proof.
  revert n k. induction l as [| a l IH]; intros n k Hn; [cbn in Hn; lia |].
  destruct n as [| n], k as [| k]; cbn [store nth_error Nat.eqb]; try reflexivity.
  apply IH. cbn in Hn. lia.
Qed.

Lemma nth_error_ext {A : Type} (l l' : list A) :
  (forall k, nth_error l k = nth_error l' k) -> l = l'.
Proof.
  revert l'. induction l as [| a l IH]; intros [| a' l'] H.
  - reflexivity.
  - specialize (H O). discriminate H.
  - specialize (H O). discriminate H.
  - pose proof (H O) as H0. cbn in H0. inversion H0; subst. f_equal.
    apply IH. intros k. exact (H (S k)).
Qed.

(** The data after a swap, entry by entry. *)
Lemma swapped_nth {A : Type} (l : list A) i j di dj k :
  nth_error l i = Some di -> nth_error l j = Some dj ->
  nth_error (store (store l i dj) j di) k
  = nth_error l (if (k =? i)%nat then j else if (k =? j)%nat then i else k).
Proof.
  intros Hi Hj.
  assert (Hli : (i < length l)%nat) by (apply nth_error_Some; congruence).
  assert (Hlj : (j < length l)%nat) by (apply nth_error_Some; congruence).
  rewrite store_nth by (rewrite store_length; exact Hlj).
  rewrite store_nth by exact Hli.
  destruct (Nat.eqb_spec k j) as [-> | Hkj].
  - destruct (Nat.eqb_spec j i) as [-> | Hji]; congruence.
  - destruct (Nat.eqb_spec k i) as [-> | Hki]; congruence.
Qed.

(** X12: [Swap] on two indices in range exchanges the two entries and nothing
    else, keeps the length, and is undone by the same [Swap]; on an index
    out of range it panics. *)
Theorem Swap_exchanges (results : steamGridDBSearchResponse) (i j : Z) :
  (0 <= i < Len results -> 0 <= j < Len results ->
   exists results',
     Swap results i j = Ret results' /\
     search_Success results' = search_Success results /\
     Len results' = Len results /\
     (forall k, 0 <= k ->
        at_index (search_Data results') k
        = at_index (search_Data results) (if (k =? i)%Z then j else if (k =? j)%Z then i else k)) /\
     Swap results' i j = Ret results) /\
  (~ (0 <= i < Len results /\ 0 <= j < Len results) ->
   Swap results i j = Panic "index out of range").
Proof.
  destruct results as [success data]. unfold Len, Swap. cbn [search_Data search_Success].
  split.
  - intros Hi Hj.
    destruct (at_index_range data i Hi) as (di & Edi).
    destruct (at_index_range data j Hj) as (dj & Edj).
    rewrite Edi, Edj.
    apply at_index_Ret in Edi. destruct Edi as [_ Edi].
    apply at_index_Ret in Edj. destruct Edj as [_ Edj].
    eexists. split; [reflexivity |]. cbn [search_Data search_Success].
    split; [reflexivity |]. split; [rewrite !store_length; reflexivity |].
    assert (Hnth : forall k,
               nth_error (store (store data (Z.to_nat i) dj) (Z.to_nat j) di) k
               = nth_error data (if (k =? Z.to_nat i)%nat then Z.to_nat j
                                 else if (k =? Z.to_nat j)%nat then Z.to_nat i else k))
      by (intros k; apply swapped_nth; assumption).
    split.
    + intros k Hk. unfold at_index.
      destruct (Z.ltb_spec k 0) as [Hneg | _]; [lia |].
      rewrite Hnth.
      destruct (Z.eqb_spec k i) as [-> | Hki].
      * rewrite Nat.eqb_refl. destruct (Z.ltb_spec j 0); [lia | reflexivity].
      * destruct (Nat.eqb_spec (Z.to_nat k) (Z.to_nat i)) as [E | _]; [lia |].
        destruct (Z.eqb_spec k j) as [-> | Hkj].
        -- rewrite Nat.eqb_refl. destruct (Z.ltb_spec i 0); [lia | reflexivity].
        -- destruct (Nat.eqb_spec (Z.to_nat k) (Z.to_nat j)) as [E | _]; [lia |].
           destruct (Z.ltb_spec k 0); [lia | reflexivity].
    + assert (Ei : at_index (store (store data (Z.to_nat i) dj) (Z.to_nat j) di) i = Ret dj).
      { apply at_index_Ret. split; [lia |]. rewrite Hnth, Nat.eqb_refl. exact Edj. }
      assert (Ej : at_index (store (store data (Z.to_nat i) dj) (Z.to_nat j) di) j = Ret di).
      { apply at_index_Ret. split; [lia |]. rewrite Hnth.
        destruct (Nat.eqb_spec (Z.to_nat j) (Z.to_nat i)) as [E | _].
        - rewrite E. exact Edi.
        - rewrite Nat.eqb_refl. exact Edi. }
      rewrite Ei, Ej. do 2 f_equal.
      apply nth_error_ext. intros k.
      rewrite (swapped_nth _ _ _ _ _ k
                 (proj2 (proj1 (at_index_Ret _ _ _) Ei))
                 (proj2 (proj1 (at_index_Ret _ _ _) Ej))).
      rewrite Hnth.
      destruct (Nat.eqb_spec k (Z.to_nat i)) as [-> | Hki].
      * destruct (Nat.eqb_spec (Z.to_nat j) (Z.to_nat i)) as [E | _]; [congruence |].
        rewrite Nat.eqb_refl. reflexivity.
      * destruct (Nat.eqb_spec k (Z.to_nat j)) as [-> | Hkj].
        -- rewrite Nat.eqb_refl. reflexivity.
        -- destruct (Nat.eqb_spec k (Z.to_nat i)); [contradiction |].
           destruct (Nat.eqb_spec k (Z.to_nat j)); [contradiction | reflexivity].
  - intros Hout.
    destruct (at_index data j) as [dj | msg] eqn:Ej.
    + destruct (at_index data i) as [di | msg] eqn:Ei.
      * exfalso. apply Hout.
        apply at_index_Ret in Ei. apply at_index_Ret in Ej.
        destruct Ei as [Hi Ei], Ej as [Hj Ej].
        assert ((Z.to_nat i < length data)%nat) by (apply nth_error_Some; congruence).
        assert ((Z.to_nat j < length data)%nat) by (apply nth_error_Some; congruence).
        lia.
      * destruct (Z_lt_le_dec i 0) as [Hneg | Hpos].
        -- rewrite at_index_Panic in Ei by lia. congruence.
        -- destruct (Z_lt_le_dec i (Z.of_nat (length data))) as [Hlt | Hge].
           ++ destruct (at_index_range data i (conj Hpos Hlt)) as (d & E). congruence.
           ++ rewrite at_index_Panic in Ei by lia. congruence.
    + destruct (Z_lt_le_dec j 0) as [Hneg | Hpos].
      * rewrite at_index_Panic in Ej by lia. congruence.
      * destruct (Z_lt_le_dec j (Z.of_nat (length data))) as [Hlt | Hge].
        -- destruct (at_index_range data j (conj Hpos Hlt)) as (d & E). congruence.
        -- rewrite at_index_Panic in Ej by lia. congruence.
Qed.

Lemma ascii_compare_refl (c : ascii) : Ascii.compare c c = Eq.
Proof. unfold Ascii.compare. apply N.compare_refl. Qed.

Lemma string_compare_refl (s : string) : String.compare s s = Eq.
Proof.
  induction s as [| c s IH]; cbn [String.compare]; [reflexivity |].
  rewrite ascii_compare_refl. exact IH.
Qed.

Lemma ascii_compare_Eq (a b : ascii) : Ascii.compare a b = Eq -> a = b.
Proof. apply Ascii.compare_eq_iff. Qed.

Lemma ascii_compare_Lt_trans (a b c : ascii) :
  Ascii.compare a b = Lt -> Ascii.compare b c = Lt -> Ascii.compare a c = Lt.
Proof.
  unfold Ascii.compare. rewrite !N.compare_lt_iff. apply N.lt_trans.
Qed.

Lemma string_compare_Lt_trans (s1 s2 s3 : string) :
  String.compare s1 s2 = Lt -> String.compare s2 s3 = Lt -> String.compare s1 s3 = Lt.
Proof.
  revert s2 s3. induction s1 as [| c1 s1 IH]; intros [| c2 s2] [| c3 s3];
    cbn [String.compare]; try discriminate; auto.
  destruct (Ascii.compare c1 c2) eqn:E12; try discriminate;
    destruct (Ascii.compare c2 c3) eqn:E23; try discriminate; intros H12 H23.
  - apply ascii_compare_Eq in E12, E23. subst. rewrite ascii_compare_refl.
    exact (IH _ _ H12 H23).
  - apply ascii_compare_Eq in E12. subst. rewrite E23. reflexivity.
  - apply ascii_compare_Eq in E23. subst. rewrite E12. reflexivity.
  - rewrite (ascii_compare_Lt_trans _ _ _ E12 E23). reflexivity.
Qed.

Lemma ltb_irrefl (s : string) : String.ltb s s = false.
Proof. unfold String.ltb. rewrite string_compare_refl. reflexivity. Qed.

Lemma ltb_asym (s1 s2 : string) : String.ltb s1 s2 = true -> String.ltb s2 s1 = false.
Proof.
  unfold String.ltb. rewrite (String.compare_antisym s1 s2).
  destruct (String.compare s2 s1); cbn; congruence.
Qed.

Lemma ltb_trans (s1 s2 s3 : string) :
  String.ltb s1 s2 = true -> String.ltb s2 s3 = true -> String.ltb s1 s3 = true.
Proof.
  unfold String.ltb.
  destruct (String.compare s1 s2) eqn:E12; try discriminate.
  destruct (String.compare s2 s3) eqn:E23; try discriminate.
  rewrite (string_compare_Lt_trans _ _ _ E12 E23). reflexivity.
Qed.

Lemma Less_Keywords results i j ki kj :
  Keywords results i = Ret ki -> Keywords results j = Ret kj ->
  Less results i j = Ret (String.ltb ki kj).
Proof.
  unfold Keywords, Less.
  destruct (at_index (search_Data results) i) as [di | msg]; [| discriminate].
  destruct (at_index (search_Data results) j) as [dj | msg]; [| discriminate].
  intros Ei Ej. inversion Ei. inversion Ej. reflexivity.
Qed.

Lemma Keywords_range results i :
  0 <= i < Len results -> exists k, Keywords results i = Ret k.
Proof.
  intros Hi. unfold Keywords.
  destruct (at_index_range (search_Data results) i Hi) as (d & ->). eauto.
Qed.

(** X13: [Less] on indices in range compares the keywords of the two entries,
    as [Keywords] gives them, and is a strict order: irreflexive, asymmetric
    and transitive, as [sort.Interface] asks. *)
Theorem Less_strict_order (results : steamGridDBSearchResponse) (i j k : Z) :
  0 <= i < Len results -> 0 <= j < Len results -> 0 <= k < Len results ->
  (exists ki kj,
     Keywords results i = Ret ki /\ Keywords results j = Ret kj /\
     Less results i j = Ret (String.ltb ki kj)) /\
  Less results i i = Ret false /\
  (Less results i j = Ret true -> Less results j i = Ret false) /\
  (Less results i j = Ret true -> Less results j k = Ret true ->
   Less results i k = Ret true).
Proof.
  intros Hi Hj Hk.
  destruct (Keywords_range results i Hi) as (ki & Ei).
  destruct (Keywords_range results j Hj) as (kj & Ej).
  destruct (Keywords_range results k Hk) as (kk & Ek).
  rewrite (Less_Keywords _ _ _ _ _ Ei Ej), (Less_Keywords _ _ _ _ _ Ei Ei),
    (Less_Keywords _ _ _ _ _ Ej Ei), (Less_Keywords _ _ _ _ _ Ej Ek),
    (Less_Keywords _ _ _ _ _ Ei Ek).
  split; [eauto |]. split; [rewrite ltb_irrefl; reflexivity |]. split.
  - intros H. injection H as H'. rewrite (ltb_asym _ _ H'). reflexivity.
  - intros H1 H2. injection H1 as H1'. injection H2 as H2'.
    rewrite (ltb_trans _ _ _ H1' H2'). reflexivity.
Qed.

End Sorting.
(** ** steamgrid.go: the flags and the table of the styles *)

(** [bToMb] gives the whole mebibytes of a number of bytes, rounding down. *)
Lemma bToMb_floor (b : Z) :
  0 <= b ->
  bToMb b = b / 1048576 /\
  bToMb b * 1048576 <= b < (bToMb b + 1) * 1048576.
Proof.
  intros Hb. unfold bToMb.
  assert (E : b / 1024 / 1024 = b / 1048576).
  { rewrite Z.div_div by lia. reflexivity. }
  rewrite E. split; [reflexivity |].
  pose proof (Z.div_mod b 1048576 ltac:(lia)) as Hdm.
  pose proof (Z.mod_pos_bound b 1048576 ltac:(lia)) as Hm.
  lia.
Qed.


(** ** steamgrid.go: the files of a result *)

Lemma shiftl_low_bits (x c : Z) :
  0 <= x -> 0 <= c < 2 ^ 32 -> Z.land (x * 2 ^ 32) c = 0.
Proof.
  intros Hx Hc. apply Z.bits_inj'. intros n Hn.
  rewrite Z.land_spec, Z.bits_0.
  destruct (Z_lt_le_dec n 32) as [Hlt | Hge].
  - rewrite Z.mul_pow2_bits_low by lia. reflexivity.
  - rewrite (Z.bits_above_log2 c n); [apply andb_false_r | lia |].
    destruct (Z.eq_dec c 0) as [-> | Hne]; [cbn; lia |].
    apply Z.log2_lt_pow2; [lia |].
    apply Z.lt_le_trans with (2 ^ 32); [lia |].
    apply Z.pow_le_mono_r; lia.
Qed.

(** X15: The name of the copy for Big Picture mode: the identifier, cut to its
    low 32 bits, in the high half of the word, over the constant
    [0x02000000]; so identifiers below [2^32] get names of their own, and the
    high half of the name gives the identifier back. *)
Theorem legacyName_spec (id : Z) :
  0 <= id < 2 ^ 64 ->
  legacyName id = (id mod 2 ^ 32) * 2 ^ 32 + 0x02000000 /\
  legacyName id / 2 ^ 32 = id mod 2 ^ 32 /\
  0 <= legacyName id < 2 ^ 64 /\
  (forall id', 0 <= id' < 2 ^ 32 -> id < 2 ^ 32 -> legacyName id' = legacyName id ->
     id' = id).
Proof.
  assert (Hname : forall x, 0 <= x < 2 ^ 64 ->
            legacyName x = (x mod 2 ^ 32) * 2 ^ 32 + 0x02000000).
  { intros x Hx. unfold legacyName. rewrite Z.shiftl_mul_pow2 by lia.
    assert (E : (x * 2 ^ 32) mod 2 ^ 64 = (x mod 2 ^ 32) * 2 ^ 32).
    { change (2 ^ 64) with (2 ^ 32 * 2 ^ 32).
      rewrite Z.mul_mod_distr_r by lia. reflexivity. }
    rewrite E.
    pose proof (Z.mod_pos_bound x (2 ^ 32) ltac:(lia)) as Hm.
    pose proof (Z.add_lor_land ((x mod 2 ^ 32) * 2 ^ 32) 0x02000000) as Hadd.
    rewrite shiftl_low_bits in Hadd by lia. lia. }
  intros Hid. rewrite !Hname by lia.
  pose proof (Z.mod_pos_bound id (2 ^ 32) ltac:(lia)) as Hm.
  split; [reflexivity |]. split; [| split].
  - rewrite Z.div_add_l by lia. rewrite Z.div_small by lia. lia.
  - change (2 ^ 64) with (2 ^ 32 * 2 ^ 32). nia.
  - intros id' Hid' Hlt E. rewrite Hname in E by lia.
    rewrite (Z.mod_small id') in E by lia. rewrite (Z.mod_small id) in E by lia. lia.
Qed.


(** ** steamgrid.go: the counters of the loop *)

Section Counters.
Context {W : Type} {N : Network W} {L : Library}.

(** [resolveStyle] is this step without the counters. *)
Lemma resolveStyle_downloadIfMissing {C : Collaborators} flags gridDir key game artStyle
    exts tally (w : W) key' game' tally' goesOn t w' :
  downloadIfMissing flags gridDir key (prepared flags gridDir game exts) artStyle exts
    tally w = (Ret (key', game', tally', goesOn), t, w') ->
  resolveStyle flags gridDir key game artStyle exts w = (Ret (key', game'), t, w').
Proof.
  unfold downloadIfMissing, resolveStyle. fold (prepared flags gridDir game exts).
  destruct (ImageSource (prepared flags gridDir game exts) =? "").
  - unfold bind.
    destruct (DownloadImage _ _ _ _ _ _ _ _ _ _ _ w) as [[[[g [from err]] | msg] t1] w1];
      [| discriminate].
    destruct (tallyResult tally artStyle g from err) as [tally1 go1].
    destruct (err_is err _); unfold ret; intros E; inversion E; subst; reflexivity.
  - unfold ret. intros E. inversion E; subst. reflexivity.
Qed.

Lemma downloadIfMissing_post flags gridDir key game artStyle exts tally :
  ImageSource game = "" ->
  post (downloadIfMissing flags gridDir key game artStyle exts tally)
    (fun r t => forall key' game' tally' goesOn,
       r = Ret (key', game', tally', goesOn) ->
       (goesOn = false ->
        ImageSource game' = "" /\ CleanImageBytes game' = CleanImageBytes game /\
        tally' = {| nDownloaded := nDownloaded tally;
                    notFounds := (notFounds tally ++ [(artStyle, game')])%list;
                    steamGridDB := steamGridDB tally; IGDB := IGDB tally;
                    searchedGames := searchedGames tally |}) /\
       (goesOn = true ->
        ImageSource game' <> "" /\
        nDownloaded tally' = nDownloaded tally + 1 /\
        notFounds tally' = notFounds tally /\
        (IGDB tally' = IGDB tally \/
         (artStyle = "Cover" /\ IGDB tally' = (IGDB tally ++ [(artStyle, game')])%list)) /\
        (searchedGames tally' = searchedGames tally \/
         (artStyle = "Banner" /\
          searchedGames tally' = (searchedGames tally ++ [(artStyle, game')])%list)) /\
        (steamGridDB tally' = steamGridDB tally \/
         (key <> "" /\ steamGridDB tally' = (steamGridDB tally ++ [(artStyle, game')])%list)))).
Proof.
  intros Hsrc. unfold downloadIfMissing. rewrite Hsrc. cbn [String.eqb].
  apply post_bind.
  eapply post_conseq;
    [ apply (post_and _ _ _
               (DownloadImage_frame gridDir game artStyle exts (skipSteam flags) key
                  (IGDBSecret flags) (IGDBClient flags) (skipGoogle flags)
                  (onlyMissingArtwork flags) (steamGridDBOnly flags))
               (DownloadImage_written gridDir game artStyle exts (skipSteam flags) key
                  (IGDBSecret flags) (IGDBClient flags) (skipGoogle flags)
                  (onlyMissingArtwork flags) (steamGridDBOnly flags))) |].
  intros r t [Hframe Hwritten]. destruct r as [[g [from err]] | msg]; cbv beta iota;
    [| intros key' game' tally' goesOn Er; discriminate Er].
  specialize (Hframe g from err eq_refl).
  destruct (Hwritten g from err eq_refl) as [_ Hfound]. clear Hwritten.
  unfold tallyResult.
  destruct (String.eqb_spec (ImageSource g) "") as [Eg | Eg].
  - apply post_ret. intros key' game' tally' goesOn Er. inversion Er; subst; clear Er.
    split; [| discriminate]. intros _.
    split; [exact Eg |]. split; [| reflexivity].
    destruct (String.eqb_spec from "") as [-> | Hfrom].
    + exact (proj1 (Hframe (or_introl eq_refl))).
    + destruct (Hfound Hfrom) as (_ & Hs & _). congruence.
  - assert (Hfrom : from <> "").
    { intros ->. destruct (Hframe (or_introl eq_refl)) as [_ Hs]. congruence. }
    destruct (Hfound Hfrom) as (-> & _ & Hprov & _).
    cbn [is_nil].
    destruct (String.eqb_spec from "IGDB") as [-> | H1];
      [| destruct (String.eqb_spec from "SteamGridDB") as [-> | H2];
         [| destruct (String.eqb_spec from "search") as [-> | H3]]];
      apply post_ret; intros key' game' tally' goesOn Er; inversion Er; subst; clear Er;
      (split; [discriminate |]); intros _; cbn [nDownloaded notFounds IGDB searchedGames
                                                 steamGridDB];
      (split; [exact Eg |]); (split; [reflexivity |]); (split; [reflexivity |]).
    all: unfold provenance in Hprov.
    all: destruct Hprov as [(E & _) | [(E & Hk) | [(E & Hs & _) | (E & Hs & _)]]];
      try discriminate E; try (contradiction H1; exact E);
      try (contradiction H2; exact E); try (contradiction H3; exact E).
    all: repeat split; auto.
Qed.

(** X17: The counters after the step that downloads a missing image: the game
    goes to the list of those not found exactly when no source is left in it,
    and its bytes are then untouched; every image that is found is counted as
    downloaded, so the test of line 241 never fails; and a game is listed
    under the metadata database only for a Cover, under web search only for a
    Banner, under the community database only with a key. *)
Theorem downloadIfMissing_tally flags gridDir key game artStyle exts tally (w : W)
    key' game' tally' goesOn t w' :
  ImageSource game = "" ->
  downloadIfMissing flags gridDir key game artStyle exts tally w
    = (Ret (key', game', tally', goesOn), t, w') ->
  (goesOn = false ->
   ImageSource game' = "" /\ CleanImageBytes game' = CleanImageBytes game /\
   tally' = {| nDownloaded := nDownloaded tally;
               notFounds := (notFounds tally ++ [(artStyle, game')])%list;
               steamGridDB := steamGridDB tally; IGDB := IGDB tally;
               searchedGames := searchedGames tally |}) /\
  (goesOn = true ->
   ImageSource game' <> "" /\
   nDownloaded tally' = nDownloaded tally + 1 /\
   notFounds tally' = notFounds tally /\
   (IGDB tally' = IGDB tally \/
    (artStyle = "Cover" /\ IGDB tally' = (IGDB tally ++ [(artStyle, game')])%list)) /\
   (searchedGames tally' = searchedGames tally \/
    (artStyle = "Banner" /\
     searchedGames tally' = (searchedGames tally ++ [(artStyle, game')])%list)) /\
   (steamGridDB tally' = steamGridDB tally \/
    (key <> "" /\ steamGridDB tally' = (steamGridDB tally ++ [(artStyle, game')])%list))).
Proof.
  intros Hsrc Hrun.
  exact (downloadIfMissing_post flags gridDir key game artStyle exts tally Hsrc
           w _ t w' Hrun key' game' tally' goesOn eq_refl).
Qed.

End Counters.

(** ** Web search *)

Section WebSearch.
Context {W : Type} {N : Network W} {L : Library}.

Lemma googleScan_first patterns page :
  post (W := W) (googleScan patterns page)
    (fun r t =>
       t = [] /\
       forall url err, r = Ret (url, err) ->
         err = None /\ (url <> "" -> firstMatch L patterns page url)).
Proof.
  induction patterns as [| p ps IH]; cbn [googleScan].
  - apply post_ret. split; [reflexivity |].
    intros url err E. inversion E; subst. split; [reflexivity |].
    intros Hne. contradiction Hne. reflexivity.
  - destruct (1 <=? length (regexp_FindStringSubmatch p page))%nat eqn:Hlen.
    + wp; (split; [reflexivity |]); intros url err E; [| discriminate E].
      inversion E; subst. split; [reflexivity |]. intros _.
      exists [], p, ps. split; [reflexivity |]. split; [intros q [] | assumption].
    + eapply post_conseq; [exact IH |].
      intros r t [-> H]. split; [reflexivity |].
      intros url err E. destruct (H url err E) as [-> Hfirst].
      split; [reflexivity |]. intros Hne.
      destruct (Hfirst Hne) as (before & pattern & after & -> & Hnone & Hsome).
      exists (p :: before), pattern, after. split; [reflexivity |].
      split; [| exact Hsome].
      intros q [<- | Hq]; [| exact (Hnone q Hq)].
      apply Nat.leb_gt in Hlen.
      destruct (regexp_FindStringSubmatch p page); [reflexivity | simpl in Hlen; lia].
Qed.

Lemma getGoogleImage_result gameName exts :
  post (getGoogleImage gameName exts)
    (fun r t =>
       (gameName = "" -> r = Ret ("", None) /\ t = []) /\
       (t = [] \/
        exists reply,
          t = [(GET (googleSearchURL L gameName) [("User-Agent", googleUserAgent)],
                reply)]) /\
       forall url err, r = Ret (url, err) -> url <> "" ->
         err = None /\
         exists response,
           t = [(GET (googleSearchURL L gameName) [("User-Agent", googleUserAgent)],
                 Answer response)] /\
           BodyErr response = None /\
           firstMatch L googleSearchResultPatterns (Body response) url).
Proof.
  unfold getGoogleImage. rewrite googleSearch_url. fold (googleSearchURL L gameName).
  destruct (String.eqb_spec gameName "") as [-> | Hname].
  - apply post_ret. split; [auto |]. split; [auto |].
    intros url err E Hne. inversion E; subst. contradiction Hne. reflexivity.
  - destruct (http_NewRequest "GET" (googleSearchURL L gameName)) as [e |].
    + apply post_ret. split; [intros E; contradiction |]. split; [auto |].
      intros url err E Hne. inversion E; subst. contradiction Hne. reflexivity.
    + apply post_bind. apply post_client_Do.
      * intros _. cbv beta iota. apply post_ret.
        split; [intros E; contradiction |]. split; [auto |].
        intros url err E Hne. inversion E; subst. contradiction Hne. reflexivity.
      * intros _ reply. cbv beta iota.
        destruct reply as [response | e].
        -- destruct (BodyErr response) as [e |] eqn:Hbody.
           ++ apply post_ret. split; [intros E; contradiction |].
              split; [right; eexists; reflexivity |].
              intros url err E Hne. inversion E; subst. contradiction Hne. reflexivity.
           ++ eapply post_conseq; [apply googleScan_first |].
              intros r t [-> H]. cbn [app].
              split; [intros E; contradiction |].
              split; [right; eexists; reflexivity |].
              intros url err E Hne. destruct (H url err E) as [-> Hfirst].
              split; [reflexivity |].
              exists response. split; [reflexivity |]. split; [exact Hbody |].
              exact (Hfirst Hne).
        -- apply post_ret. split; [intros E; contradiction |].
           split; [right; eexists; reflexivity |].
           intros url err E Hne. inversion E; subst. contradiction Hne. reflexivity.
Qed.

(** X11: The web search sends nothing for a game without a name, and one request
    at most otherwise: a GET of the search URL, always for the size of a
    banner, with the user agent of a browser.  A URL it returns comes without
    an error and is the first group of the first result pattern that matches
    the page received, whatever the status of the answer. *)
Theorem getGoogleImage_candidate gameName exts (w : W) r t w' :
  getGoogleImage gameName exts w = (r, t, w') ->
  (gameName = "" -> r = Ret ("", None) /\ t = []) /\
  (t = [] \/
   exists reply,
     t = [(GET (googleSearchURL L gameName) [("User-Agent", googleUserAgent)], reply)]) /\
  (forall url err, r = Ret (url, err) -> url <> "" ->
     err = None /\
     exists response,
       t = [(GET (googleSearchURL L gameName) [("User-Agent", googleUserAgent)],
             Answer response)] /\
       BodyErr response = None /\
       firstMatch L googleSearchResultPatterns (Body response) url).
Proof. intros Hrun. exact (getGoogleImage_result gameName exts w r t w' Hrun). Qed.

End WebSearch.

(** ** The further properties on the examples *)

Lemma getImageAlternatives_requests_witness :
  getImageAlternatives (N := brokenImageHost) (L := exampleLibrary)
    halfLife2 "Banner" bannerExtensions true "K3Y" "" "" false false false tt
  = (Ret (None, "", None),
     [(bannerByIdentifier, listingReply); (GET gridOneURL [], serverError)], tt) /\
  ownRequest "K3Y" "" "" bannerByIdentifier /\
  ownRequest "K3Y" "" "" (GET gridOneURL []).
Proof.
  split; [reflexivity |].
  assert (Hext : forall nameExt, nth_error bannerExtensions 1 = Some nameExt ->
                                 sgdbBaseURL nameExt <> "").
  { intros nameExt E. injection E as <-. discriminate. }
  pose proof (getImageAlternatives_requests (N := brokenImageHost) (L := exampleLibrary)
                "K3Y" "" "" halfLife2 "Banner" bannerExtensions true false false false
                tt _ _ _ Hext eq_refl) as H.
  split.
  - apply (H bannerByIdentifier listingReply). left. reflexivity.
  - apply (H (GET gridOneURL []) serverError). right. left. reflexivity.
Defined.

Lemma forGames_key_witness :
  forGames (N := rejectsKey) (L := exampleLibrary) (C := exampleCollaborators)
    communityFlags "grid" "K3Y" [halfLife2] [("Banner", bannerExtensions)] tt
  = (Ret ("K3Y", [halfLife2]), [(bannerByIdentifier, unauthorized)], tt) /\
  ("K3Y" = "K3Y" \/ "K3Y" = "").
Proof.
  split; [reflexivity |].
  exact (proj1 (forGames_key (N := rejectsKey) (L := exampleLibrary)
                  (C := exampleCollaborators) communityFlags "grid" "K3Y" [halfLife2]
                  [("Banner", bannerExtensions)] tt _ _ _ eq_refl)
           "K3Y" [halfLife2] eq_refl).
Defined.

Lemma getImageAlternatives_provenance_witness :
  getImageAlternatives (N := cdnHasBanner) (L := exampleLibrary)
    halfLife2 "Banner" bannerExtensions false "" "" "" false false false tt
  = (Ret (Some (response 200 "200 OK" "image/png" "/steam/apps/220/header.jpg" png460x215),
          "steam server", None),
     [(GET bannerOnCDN [], bannerReply)], tt) /\
  (None : error) = None /\
  downloaded (response 200 "200 OK" "image/png" "/steam/apps/220/header.jpg" png460x215)
    [(GET bannerOnCDN [], bannerReply)] /\
  provenance "Banner" false "" "" "" false false false "steam server".
Proof.
  split; [reflexivity |].
  exact (getImageAlternatives_provenance (N := cdnHasBanner) (L := exampleLibrary)
           halfLife2 "Banner" bannerExtensions false "" "" "" false false false tt
           _ _ _ _ _ _ eq_refl eq_refl).
Defined.

Lemma DownloadImage_writes_witness :
  DownloadImage (N := cdnHasBanner) (L := exampleLibrary) "grid" halfLife2 "Banner"
    bannerExtensions false "" "" "" false false false tt
  = (Ret ({| ID := "220"; Name := "Half-Life 2"; Custom := false; LegacyID := 0;
             ImageSource := "steam server"; ImageExt := ".png";
             CleanImageBytes := Some png460x215; OverlayImageBytes := None |},
          ("steam server", None)),
     [(GET bannerOnCDN [], bannerReply)], tt) /\
  exists response,
    downloaded response [(GET bannerOnCDN [], bannerReply)] /\
    Some png460x215 = Some (Body response).
Proof.
  split; [reflexivity |].
  apply (proj2 (DownloadImage_writes (N := cdnHasBanner) (L := exampleLibrary) "grid"
                  halfLife2 "Banner" bannerExtensions false "" "" "" false false false tt
                  _ _ _ _ _ eq_refl)).
  discriminate.
Defined.

Lemma getImageAlternatives_returns_witness :
  sane exampleLibrary "" "" /\
  (4 <= length bannerExtensions)%nat /\
  getImageAlternatives (N := nothingAnywhere) (L := exampleLibrary)
    halfLife2 "Banner" bannerExtensions false "" "" "" true false false tt
  = (Ret (None, "", None),
     [(GET bannerOnCDN [], notFound);
      (GET bannerOnSteamCDN [], Failure unsupported_scheme)], tt) /\
  exists res : resolution, Ret (None, "", None) = Ret res.
Proof.
  assert (Hsane : sane exampleLibrary "" "").
  { repeat split; try reflexivity. intros pattern s _. discriminate. }
  assert (Hexts : (4 <= length bannerExtensions)%nat) by (simpl; lia).
  split; [exact Hsane |]. split; [exact Hexts |]. split; [reflexivity |].
  exact (getImageAlternatives_returns (N := nothingAnywhere) (L := exampleLibrary)
           "" "" Hsane bannerExtensions Hexts halfLife2 "Banner" false ""
           true false false tt _ _ _ eq_refl).
Defined.

Lemma DownloadImage_content_type_witness :
  getImageAlternatives (N := cdnBareType) (L := exampleLibrary)
    halfLife2 "Banner" bannerExtensions false "" "" "" false false false tt
  = (Ret (Some (response 200 "200 OK" "png" "/steam/apps/220/header.jpg" png460x215),
          "steam server", None),
     [(GET bannerOnCDN [], bareTypeReply)], tt) /\
  DownloadImage (N := cdnBareType) (L := exampleLibrary) "grid" halfLife2 "Banner"
    bannerExtensions false "" "" "" false false false tt
  = (Panic "index out of range", [(GET bannerOnCDN [], bareTypeReply)], tt).
Proof.
  split; [reflexivity |].
  apply (proj1 (DownloadImage_content_type (N := cdnBareType) (L := exampleLibrary) "grid"
                  halfLife2 "Banner" bannerExtensions false "" "" "" false false false tt
                  _ _ _ _ eq_refl)).
  split; [discriminate | reflexivity].
Defined.

Lemma getIGDBImage_candidate_witness :
  getIGDBImage (N := metadataKnowsGame) (L := exampleLibrary)
    "Half-Life 2" "s3cret" "cl1ent" tt
  = (Ret ("https://images.igdb.com/igdb/image/upload/t_720p/abc123.jpg", None),
     [(tokenRequest "s3cret" "cl1ent" (fmt_Sprintf igdbGameBody ["Half-Life 2"]),
       tokenReply);
      (queryRequest igdbGameURL "cl1ent" "tok" (fmt_Sprintf igdbGameBody ["Half-Life 2"]),
       gamesReply);
      (tokenRequest "s3cret" "cl1ent" (fmt_Sprintf igdbCoverBody [strconv_Itoa 9]),
       tokenReply);
      (queryRequest igdbCoverURL "cl1ent" "tok" (fmt_Sprintf igdbCoverBody [strconv_Itoa 9]),
       coversReply)], tt) /\
  exists t1 t2 cover,
    [(tokenRequest "s3cret" "cl1ent" (fmt_Sprintf igdbGameBody ["Half-Life 2"]),
      tokenReply);
     (queryRequest igdbGameURL "cl1ent" "tok" (fmt_Sprintf igdbGameBody ["Half-Life 2"]),
      gamesReply);
     (tokenRequest "s3cret" "cl1ent" (fmt_Sprintf igdbCoverBody [strconv_Itoa 9]),
      tokenReply);
     (queryRequest igdbCoverURL "cl1ent" "tok" (fmt_Sprintf igdbCoverBody [strconv_Itoa 9]),
      coversReply)] = (t1 ++ t2)%list /\
    igdbCall exampleLibrary igdbGameURL (fmt_Sprintf igdbGameBody ["Half-Life 2"])
      "s3cret" "cl1ent" t1 /\
    igdbCall exampleLibrary igdbCoverURL (fmt_Sprintf igdbCoverBody [strconv_Itoa cover])
      "s3cret" "cl1ent" t2.
Proof.
  split; [reflexivity |].
  exact (proj1 (getIGDBImage_candidate (N := metadataKnowsGame) (L := exampleLibrary)
                  "Half-Life 2" "s3cret" "cl1ent" tt _ _ _ eq_refl)).
Defined.

Lemma getSteamGridDBImage_candidate_witness :
  nth_error bannerExtensions 1 = Some ".banner" /\
  getSteamGridDBImage (N := brokenImageHost) (L := exampleLibrary)
    halfLife2 bannerExtensions "K3Y" tt
  = (Ret (gridOneURL, None), [(bannerByIdentifier, listingReply)], tt) /\
  (None : error) = None /\
  exists data,
    listed exampleLibrary false data [(bannerByIdentifier, listingReply)] /\
    gridOneURL = grid_URL data.
Proof.
  split; [reflexivity |]. split; [reflexivity |].
  apply (getSteamGridDBImage_candidate (N := brokenImageHost) (L := exampleLibrary)
           halfLife2 bannerExtensions "K3Y" ".banner"
           "?styles=alternate&types=static&nsfw=false&humor=false&dimensions=460x215,920x430"
           tt gridOneURL None _ tt eq_refl eq_refl eq_refl).
  discriminate.
Defined.

Lemma getImageAlternatives_community_only_witness :
  getImageAlternatives (N := brokenImageHost) (L := exampleLibrary)
    halfLife2 "Banner" bannerExtensions false "K3Y" "" "" false false true tt
  = (Ret (None, "", None),
     [(bannerByIdentifier, listingReply); (GET gridOneURL [], serverError)], tt) /\
  exists tS tF,
    [(bannerByIdentifier, listingReply); (GET gridOneURL [], serverError)]
    = (tS ++ tF)%list /\ twoTurns tS /\ finalSegment tF.
Proof.
  split; [reflexivity |].
  exact (proj1 (getImageAlternatives_community_only (N := brokenImageHost)
                  (L := exampleLibrary) halfLife2 "Banner" bannerExtensions false "K3Y"
                  "" "" false false tt _ _ _ eq_refl)).
Defined.

Lemma getGameName_source_witness :
  getGameName (N := nothingAnywhere) (L := exampleLibrary) "220" tt
  = (Ret "", [(GET "https://steamdb.info/app/220" [], notFound)], tt) /\
  ([(GET "https://steamdb.info/app/220" [], notFound)] = [] \/
   exists reply,
     [(GET "https://steamdb.info/app/220" [], notFound)]
     = [(GET ("https://steamdb.info/app/" ++ "220") [], reply)]).
Proof.
  split; [reflexivity |].
  exact (proj1 (getGameName_source (N := nothingAnywhere) (L := exampleLibrary) "220" tt
                  _ _ _ eq_refl)).
Defined.

Lemma Less_strict_order_witness :
  (0 <= 0 < Len searchResults /\ 0 <= 1 < Len searchResults /\
   0 <= 2 < Len searchResults) /\
  Less (L := exampleLibrary) searchResults 0 0 = Ret false /\
  (Less (L := exampleLibrary) searchResults 0 1 = Ret true ->
   Less (L := exampleLibrary) searchResults 1 0 = Ret false).
Proof.
  assert (H0 : 0 <= 0 < Len searchResults) by (unfold Len; simpl; lia).
  assert (H1 : 0 <= 1 < Len searchResults) by (unfold Len; simpl; lia).
  assert (H2 : 0 <= 2 < Len searchResults) by (unfold Len; simpl; lia).
  split; [exact (conj H0 (conj H1 H2)) |].
  pose proof (Less_strict_order (L := exampleLibrary) searchResults 0 1 2 H0 H1 H2) as H.
  exact (conj (proj1 (proj2 H)) (proj1 (proj2 (proj2 H)))).
Defined.

Lemma legacyName_spec_witness :
  0 <= 220 < 2 ^ 64 /\
  legacyName 220 = (220 mod 2 ^ 32) * 2 ^ 32 + 0x02000000 /\
  legacyName 220 / 2 ^ 32 = 220 mod 2 ^ 32.
Proof.
  assert (H : 0 <= 220 < 2 ^ 64) by lia.
  split; [exact H |].
  pose proof (legacyName_spec 220 H) as Hspec.
  exact (conj (proj1 Hspec) (proj1 (proj2 Hspec))).
Defined.


Lemma downloadIfMissing_tally_witness :
  ImageSource halfLife2 = "" /\
  downloadIfMissing (N := cdnHasBanner) (L := exampleLibrary) defaultFlags "grid" ""
    halfLife2 "Banner" bannerExtensions emptyTally tt
  = (Ret ("",
          {| ID := "220"; Name := "Half-Life 2"; Custom := false; LegacyID := 0;
             ImageSource := "steam server"; ImageExt := ".png";
             CleanImageBytes := Some png460x215; OverlayImageBytes := None |},
          {| nDownloaded := 1; notFounds := []; steamGridDB := []; IGDB := [];
             searchedGames := [] |}, true),
     [(GET bannerOnCDN [], bannerReply)], tt) /\
  nDownloaded {| nDownloaded := 1; notFounds := []; steamGridDB := []; IGDB := [];
                 searchedGames := [] |}
  = nDownloaded emptyTally + 1.
Proof.
  split; [reflexivity |]. split; [reflexivity |].
  exact (proj1 (proj2 (proj2 (downloadIfMissing_tally (N := cdnHasBanner)
                                (L := exampleLibrary) defaultFlags "grid" "" halfLife2
                                "Banner" bannerExtensions emptyTally tt _ _ _ _ _ _
                                eq_refl eq_refl)
                         eq_refl))).
Defined.

Lemma getGoogleImage_candidate_witness :
  getGoogleImage (N := nothingAnywhere) (L := exampleLibrary) "Half-Life 2"
    bannerExtensions tt
  = (Ret ("", None),
     [(GET (googleSearchURL exampleLibrary "Half-Life 2")
           [("User-Agent", googleUserAgent)], notFound)], tt) /\
  ([(GET (googleSearchURL exampleLibrary "Half-Life 2")
         [("User-Agent", googleUserAgent)], notFound)] = [] \/
   exists reply,
     [(GET (googleSearchURL exampleLibrary "Half-Life 2")
           [("User-Agent", googleUserAgent)], notFound)]
     = [(GET (googleSearchURL exampleLibrary "Half-Life 2")
             [("User-Agent", googleUserAgent)], reply)]).
Proof.
  split; [reflexivity |].
  exact (proj1 (proj2 (getGoogleImage_candidate (N := nothingAnywhere)
                         (L := exampleLibrary) "Half-Life 2" bannerExtensions tt
                         _ _ _ eq_refl))).
Defined.
